(** * glidepack (intel/dcl): the strategy dispatch core

    A shallow embedding of [strategy.go] (algorithm and strategy model, the
    four handlers, the Manager), of the shipped policy and of the stream
    facade (Writer, Reader, options), followed by the properties of the job
    life cycle, of the handlers and of the facade.

    Conventions of the embedding.
    - Go's [int], [int64] and the [int]-based enumerations are [Z]; the only
      arithmetic that can overflow is the [int64] id counter, whose
      wrap-around is written out ([wrap64]).
    - A Go [error] is [option error]; [None] is [nil].  Identity comparison
      of error values ([err == ErrNotAvailable]) is equality of
      constructors.
    - Go maps are [gmap]; [len(m)] is [size m].
    - The codec libraries (compress/gzip, lz4, zstd, ixl, isal, qatzip) and
      the caller's sinks and sources are outside the repository.  Their
      calls go through an [Engine]: arbitrary functions over an abstract
      world [W].  Every statement below holds for every engine.
    - A call either returns, panics (nil dereference) or blocks for ever on
      a mutex that is already held ([outcome]).  Library calls are taken to
      return.
    - The stream facade ([Writer], [Reader] and their options) builds the
      [JobParams] it passes to [SubmitJob] / [SubmitWithPolicy] and stores
      the id that comes back.  A method runs over its own object; [Write]
      and [Read] run over the object and the program state. *)

From Stdlib Require Import ZArith List String Lia.
From stdpp Require Import base option list gmap strings.

Local Open Scope Z_scope.

(** ** Algorithm / strategy model (strategy.go:18-123) *)

Definition Algorithm := Z.
Definition QatMode := Z.
Definition StrategyType := Z.
Definition Direction := Z.
Definition JobID := Z.

Definition DIRECT : QatMode := 0.
Definition STREAM : QatMode := 1.

Definition DEFLATE : Algorithm := 0.
Definition GZIP : Algorithm := 1.
Definition LZ4 : Algorithm := 2.
Definition ZSTD : Algorithm := 3.

Definition MAX_QAT_BINDINGS : Z := 8.
Definition MAX_IAA_BINDINGS : Z := 8.
Definition DEFAULT_OUT_BUFFER_SZ : Z := 1024 * 10.

Definition IAA_ALGORITHMS : list Algorithm := [DEFLATE; GZIP].
Definition QAT_ALGORITHMS : list Algorithm := [DEFLATE; GZIP; ZSTD].
Definition ISAL_ALGORITHMS : list Algorithm := [GZIP].
Definition DEFAULT_ALGORITHMS : list Algorithm := [DEFLATE; LZ4; GZIP; ZSTD].

Definition QAT : StrategyType := 0.
Definition ISAL : StrategyType := 1.
Definition IAA : StrategyType := 2.
Definition DEFAULT : StrategyType := 3.

Definition COMPRESS : Direction := 0.
Definition DECOMPRESS : Direction := 1.

(** Error values.  The first five are the package-level sentinels; [io_EOF]
    is [io.EOF]; [errors_New] is a value minted at the call site by
    [errors.New] or [fmt.Errorf] (never identical to a sentinel);
    [engine_error] is any other value handed back by a library or by the
    caller's sink or source. *)
Inductive error : Type :=
| ErrNotAvailable
| ErrNotInstalled
| ErrJobNotFound
| ErrUnsupported
| errNoWorkingStrategies
| io_EOF
| errors_New (msg : string)
| engine_error (code : Z).

#[global] Instance error_eq_dec : EqDecision error.
Proof. solve_decision. Defined.

Definition Algorithm_isValid (alg : Algorithm) : bool :=
  (alg =? DEFLATE) || (alg =? GZIP) || (alg =? LZ4) || (alg =? ZSTD).

Definition Algorithm_String (a : Algorithm) : string :=
  if a =? DEFLATE then "deflate"
  else if a =? GZIP then "gzip"
  else if a =? LZ4 then "lz4"
  else if a =? ZSTD then "zstd"
  else "".

(** [qatzip.Algorithm]: the library's own constants, kept abstract. *)
Inductive qatzip_Algorithm : Type :=
| qatzip_DEFLATE
| qatzip_LZ4
| qatzip_ZSTD
| qatzip_Algorithm_of (v : Z).

Definition GetQATSymbol (a : Algorithm) : qatzip_Algorithm * option error :=
  if a =? DEFLATE then (qatzip_DEFLATE, None)
  else if a =? GZIP then (qatzip_DEFLATE, None)
  else if a =? LZ4 then (qatzip_LZ4, None)
  else if a =? ZSTD then (qatzip_ZSTD, None)
  else (qatzip_Algorithm_of 0, Some (errors_New "invalid algorithm type")).

Definition StrategyType_String (s : StrategyType) : string :=
  if s =? QAT then "QAT"
  else if s =? ISAL then "ISAL"
  else if s =? IAA then "IAA"
  else "default".

Definition IsValid (s : StrategyType) : bool :=
  (s =? QAT) || (s =? ISAL) || (s =? IAA) || (s =? DEFAULT).

Definition strategyBank : list StrategyType := [QAT; ISAL; IAA; DEFAULT].

Definition GetStrategies : list StrategyType := strategyBank.

Fixpoint contains (slice : list Algorithm) (algorithm : Algorithm) : bool :=
  match slice with
  | [] => false
  | a :: rest => if a =? algorithm then true else contains rest algorithm
  end.

(** ** Jobs (strategy.go:653-703) *)

(** The instance behind a [Handler] interface value: one of the Manager's
    four handler objects. *)
Inductive HandlerRef : Type := H_qat | H_isal | H_iaa | H_fallback.

#[global] Instance HandlerRef_eq_dec : EqDecision HandlerRef.
Proof. solve_decision. Defined.

(** An [io.Writer] / [io.Reader] supplied by the caller, and an object
    created by a codec library: opaque handles. *)
Definition iohandle := N.
Definition extobj := N.

Record JobParams : Type := mkJobParams {
  JobParams_a : Algorithm;
  JobParams_level : Z;
  JobParams_id : JobID;
  JobParams_JobType : Direction;
  JobParams_w : option iohandle;
  JobParams_r : option iohandle
}.

Record Job : Type := mkJob {
  Job_id : JobID;
  Job_p : list Byte.byte;
  Job_JobType : Direction;
  Job_params : JobParams;
  Job_w : option iohandle;
  Job_r : option iohandle;
  Job_h : option HandlerRef
}.

Definition zero_JobParams : JobParams := mkJobParams 0 0 0 0 None None.

Definition len (p : list Byte.byte) : Z := Z.of_nat (length p).

(** ** Policy (policy file, package glidepack) *)

Record PolicyParameters : Type := mkPolicyParameters {
  BufferSize : Z;
  Strategies : list StrategyType;
  PolicyParameters_JobParams : JobParams
}.

Definition PolicyFunc := PolicyParameters -> list StrategyType.

Definition BufferSizePolicy (params : PolicyParameters) : list StrategyType :=
  if BufferSize params <? 1500 then [ISAL; IAA; QAT] else [QAT; IAA; ISAL].

Definition GetDefaultPolicy : PolicyFunc := BufferSizePolicy.

(** The repository holds a second copy of the policy file, in package
    [dcl]: the same function with the threshold at 65536. *)
Definition dcl_BufferSizePolicy (params : PolicyParameters) : list StrategyType :=
  if BufferSize params <? 65536 then [ISAL; IAA; QAT] else [QAT; IAA; ISAL].

(** ** Outcomes and the state monad of the embedding *)

Inductive outcome (A : Type) : Type :=
| Returns (a : A)
| Panics (why : string)
| Blocks.
Arguments Returns {A} a.
Arguments Panics {A} why.
Arguments Blocks {A}.

Definition M (S A : Type) : Type := S -> outcome (A * S).

Definition ret {S A} (a : A) : M S A := fun s => Returns (a, s).

Definition bind {S A B} (m : M S A) (k : A -> M S B) : M S B :=
  fun s =>
    match m s with
    | Returns (a, s') => k a s'
    | Panics why => Panics why
    | Blocks => Blocks
    end.

Definition panic {S A} (why : string) : M S A := fun _ => Panics why.
Definition block {S A} : M S A := fun _ => Blocks.
Definition gets {S A} (f : S -> A) : M S A := fun s => Returns (f s, s).
Definition modify {S} (f : S -> S) : M S unit := fun s => Returns (tt, f s).

(** Run a computation over a component [T] of the state [S]. *)
Definition zoom {S T A} (get : S -> T) (set : T -> S -> S) (m : M T A) : M S A :=
  fun s =>
    match m (get s) with
    | Returns (a, t) => Returns (a, set t s)
    | Panics why => Panics why
    | Blocks => Blocks
    end.

Declare Scope go_scope.
Delimit Scope go_scope with go.
Notation "'let*' p ':=' m 'in' k" := (bind m (fun p => k))
  (at level 10, p pattern, m at level 100, k at level 200, only parsing) : go_scope.
Local Open Scope go_scope.

(** [defer d] registered before [body]: [d] runs when [body] returns. *)
Definition deferring {S A} (d : M S unit) (body : M S A) : M S A :=
  let* a := body in let* _ := d in ret a.

(** ** The codec libraries and the caller's streams *)

Inductive Lib : Type := lib_ixl | lib_isal.

(** Constructor calls into the libraries, with their arguments. *)
Inductive Ctor : Type :=
| gzip_NewWriterLevel (w : option iohandle) (level : Z)
| lz4_NewWriter (w : option iohandle)
| zstd_NewWriter (w : option iohandle) (level : Z)
| gzip_NewReader (r : option iohandle)
| lz4_NewReader (r : option iohandle)
| zstd_NewReader (r : option iohandle)
| ixl_NewDeflateWriter (w : option iohandle)
| ixl_NewGzipWriter (w : option iohandle)
| ixl_NewInflate (r : option iohandle)
| isal_NewWriterLevel (w : option iohandle) (level : Z)
| isal_NewReader (r : option iohandle)
| qatzip_NewWriter (w : option iohandle)
| qatzip_NewReader (r : option iohandle)
| qatzip_NewQzBinding.

Inductive ExtOption : Type :=
| qatzip_AlgorithmOption (a : qatzip_Algorithm)
| qatzip_CompressionLevelOption (level : Z)
| qatzip_OutputBufLengthOption (n : Z)
| qatzip_DeflateFmtOption_DeflateGzip
| lz4_CompressionLevelOption (level : Z).

(** What the outside world answers.  The receiver of a method is
    [option extobj] because the QAT handler can call a method through a nil
    [*qatzip.Writer] or [*qatzip.Reader] field; what the library does then
    is the engine's business.  For a constructor that has no error result
    in Go ([lz4.NewWriter], [lz4.NewReader], [ixl.NewGzipWriter],
    [qatzip.NewWriter]) the error component is not looked at. *)
Record Engine (W : Type) : Type := mkEngine {
  Ready : Lib -> W -> bool * W;
  New : Ctor -> W -> (extobj * option error) * W;
  Apply : option extobj -> list ExtOption -> W -> option error * W;
  Write : option extobj -> list Byte.byte -> W -> (Z * option error) * W;
  Read : option extobj -> list Byte.byte -> W -> (Z * option error) * W;
  Close : option extobj -> W -> option error * W
}.
Arguments Ready {W} _ _ _.
Arguments New {W} _ _ _.
Arguments Apply {W} _ _ _ _.
Arguments Write {W} _ _ _ _.
Arguments Read {W} _ _ _ _.
Arguments Close {W} _ _ _.

Definition make_bytes (n : Z) : list Byte.byte := repeat Byte.x00 (Z.to_nat n).
Arguments make_bytes : simpl never.

(** ** Handler state (strategy.go:130-132, 254-259, 328-332, 410-423) *)

Record DefaultHandler : Type := mkDefaultHandler {
  DefaultHandler_algs : list Algorithm
}.

Record IAAHandler : Type := mkIAAHandler {
  IAAHandler_jobs : gmap JobID extobj;
  IAAHandler_readjobs : gmap JobID extobj;
  IAAHandler_jobsLock : bool;
  IAAHandler_algs : list Algorithm
}.

Record ISALHandler : Type := mkISALHandler {
  ISALHandler_jobs : gmap JobID extobj;
  ISALHandler_readjobs : gmap JobID extobj;
  ISALHandler_algs : list Algorithm
}.

(** [QATJob_job] is the [*Job] field: the handler only ever reads the id
    of the job it points to, and a job's id is never reassigned, so the
    pointer is kept as that id. *)
Record QATJob : Type := mkQATJob {
  QATJob_outBuf : list Byte.byte;
  QATJob_b : option extobj;
  QATJob_w : option extobj;
  QATJob_r : option extobj;
  QATJob_job : JobID;
  QATJob_mode : QatMode
}.

(** [QatHandler.jobsLock] is taken and released inside one function on
    every path ([defer Unlock] in [newQatJob] and [Release]), so between
    calls it is always free and it is not represented.  The same holds for
    the package mutex [mu].  [IAAHandler.jobsLock] is represented: some
    paths of [IAAHandler.Request] return with the lock still held. *)
Record QatHandler : Type := mkQatHandler {
  QatHandler_jobs : gmap JobID QATJob;
  QatHandler_algs : list Algorithm
}.

Definition NewDefaultHandler : DefaultHandler :=
  {| DefaultHandler_algs := DEFAULT_ALGORITHMS |}.

Definition NewIAAHandler : IAAHandler :=
  {| IAAHandler_jobs := ∅; IAAHandler_readjobs := ∅;
     IAAHandler_jobsLock := false; IAAHandler_algs := IAA_ALGORITHMS |}.

Definition NewISALHandler : ISALHandler :=
  {| ISALHandler_jobs := ∅; ISALHandler_readjobs := ∅;
     ISALHandler_algs := ISAL_ALGORITHMS |}.

Definition NewQATHandler : QatHandler :=
  {| QatHandler_jobs := ∅; QatHandler_algs := QAT_ALGORITHMS |}.

Definition QatHandler_ready (h : QatHandler) : bool := true.

Definition IAAHandler_set_jobs (f : gmap JobID extobj -> gmap JobID extobj)
    (h : IAAHandler) : IAAHandler :=
  {| IAAHandler_jobs := f (IAAHandler_jobs h);
     IAAHandler_readjobs := IAAHandler_readjobs h;
     IAAHandler_jobsLock := IAAHandler_jobsLock h;
     IAAHandler_algs := IAAHandler_algs h |}.

Definition IAAHandler_set_readjobs (f : gmap JobID extobj -> gmap JobID extobj)
    (h : IAAHandler) : IAAHandler :=
  {| IAAHandler_jobs := IAAHandler_jobs h;
     IAAHandler_readjobs := f (IAAHandler_readjobs h);
     IAAHandler_jobsLock := IAAHandler_jobsLock h;
     IAAHandler_algs := IAAHandler_algs h |}.

Definition IAAHandler_set_jobsLock (b : bool) (h : IAAHandler) : IAAHandler :=
  {| IAAHandler_jobs := IAAHandler_jobs h;
     IAAHandler_readjobs := IAAHandler_readjobs h;
     IAAHandler_jobsLock := b;
     IAAHandler_algs := IAAHandler_algs h |}.

Definition ISALHandler_set_jobs (f : gmap JobID extobj -> gmap JobID extobj)
    (h : ISALHandler) : ISALHandler :=
  {| ISALHandler_jobs := f (ISALHandler_jobs h);
     ISALHandler_readjobs := ISALHandler_readjobs h;
     ISALHandler_algs := ISALHandler_algs h |}.

Definition ISALHandler_set_readjobs (f : gmap JobID extobj -> gmap JobID extobj)
    (h : ISALHandler) : ISALHandler :=
  {| ISALHandler_jobs := ISALHandler_jobs h;
     ISALHandler_readjobs := f (ISALHandler_readjobs h);
     ISALHandler_algs := ISALHandler_algs h |}.

Definition QatHandler_set_jobs (f : gmap JobID QATJob -> gmap JobID QATJob)
    (h : QatHandler) : QatHandler :=
  {| QatHandler_jobs := f (QatHandler_jobs h);
     QatHandler_algs := QatHandler_algs h |}.

(** ** The four handlers (strategy.go:141-620) *)

Section Handlers.
Context {W : Type} (E : Engine W).

(** A handler method runs over its own object and the world. *)
Definition ext {H A} (f : W -> A * W) : M (H * W) A :=
  fun '(h, w) => let '(a, w') := f w in Returns (a, (h, w')).
Definition getH {H} : M (H * W) H := gets fst.
Definition modifyH {H} (f : H -> H) : M (H * W) unit :=
  modify (fun '(h, w) => (f h, w)).

Definition ext_Close {H} (o : option extobj) : M (H * W) unit :=
  let* _ := ext (Close E o) in ret tt.

(** The shared tail of every software compress case: [Write], then [Close],
    then [return n, nil] at the end of the function. *)
Definition write_then_close {H} (o : extobj) (p : list Byte.byte)
    : M (H * W) (Z * option error) :=
  let* (n, err) := ext (Write E (Some o) p) in
  match err with
  | Some e => ret (n, Some e)
  | None =>
      let* err := ext (Close E (Some o)) in
      match err with
      | Some e => ret (n, Some e)
      | None => ret (n, None)
      end
  end.

Definition DefaultHandler_Request (job : Job)
    : M (DefaultHandler * W) (Z * option error) :=
  let* h := getH in
  let a := JobParams_a (Job_params job) in
  let level := JobParams_level (Job_params job) in
  if negb (contains (DefaultHandler_algs h) a) then ret (0, Some ErrUnsupported)
  else if JobParams_JobType (Job_params job) =? COMPRESS then
    if a =? GZIP then
      let* (gw, err) := ext (New E (gzip_NewWriterLevel (Job_w job) level)) in
      match err with
      | Some _ => ret (0, Some ErrUnsupported)
      | None => deferring (ext_Close (Some gw)) (write_then_close gw (Job_p job))
      end
    else if a =? LZ4 then
      let* (lz4w, _) := ext (New E (lz4_NewWriter (Job_w job))) in
      let* err := ext (Apply E (Some lz4w) [lz4_CompressionLevelOption level]) in
      match err with
      | Some _ => ret (0, Some ErrUnsupported)
      | None => deferring (ext_Close (Some lz4w)) (write_then_close lz4w (Job_p job))
      end
    else if a =? ZSTD then
      let* (zstdw, err) := ext (New E (zstd_NewWriter (Job_w job) level)) in
      match err with
      | Some _ => ret (0, Some ErrUnsupported)
      | None => deferring (ext_Close (Some zstdw)) (write_then_close zstdw (Job_p job))
      end
    else ret (0, Some (errors_New "unsupported compression algorithm"))
  else if JobParams_JobType (Job_params job) =? DECOMPRESS then
    if a =? GZIP then
      let* (gr, err) := ext (New E (gzip_NewReader (Job_r job))) in
      match err with
      | Some e => ret (0, Some e)
      | None =>
          deferring (ext_Close (Some gr))
            (let* (n, err) := ext (Read E (Some gr) (Job_p job)) in
             match err with
             | Some e => ret (n, Some e)
             | None =>
                 let* err := ext (Close E (Some gr)) in
                 match err with
                 | Some e => ret (n, Some e)
                 | None => ret (n, None)
                 end
             end)
      end
    else if a =? LZ4 then
      let* (lz4r, _) := ext (New E (lz4_NewReader (Job_r job))) in
      let* (n, err) := ext (Read E (Some lz4r) (Job_p job)) in
      match err with
      | Some e => ret (n, Some e)
      | None => ret (n, None)
      end
    else if a =? ZSTD then
      let* (zstdr, err) := ext (New E (zstd_NewReader (Job_r job))) in
      match err with
      | Some e => ret (0, Some e)
      | None =>
          deferring (ext_Close (Some zstdr))
            (let* (n, err) := ext (Read E (Some zstdr) (Job_p job)) in
             match err with
             | Some e => ret (n, Some e)
             | None => ret (n, None)
             end)
      end
    else ret (0, Some (errors_New "unsupported decompression algorithm"))
  else ret (0, None).

Definition DefaultHandler_Release (id : JobID)
    : M (DefaultHandler * W) (option error) :=
  ret None.

(** [sync.Mutex] of the IAA handler. *)
Definition IAAHandler_Lock : M (IAAHandler * W) unit :=
  let* h := getH in
  if IAAHandler_jobsLock h then block
  else modifyH (IAAHandler_set_jobsLock true).

Definition IAAHandler_Unlock : M (IAAHandler * W) unit :=
  let* h := getH in
  if IAAHandler_jobsLock h then modifyH (IAAHandler_set_jobsLock false)
  else panic "sync: unlock of unlocked mutex".

Definition IAAHandler_Request (job : Job)
    : M (IAAHandler * W) (Z * option error) :=
  let a := JobParams_a (Job_params job) in
  let* ready := ext (Ready E lib_ixl) in
  if negb ready then ret (0, Some ErrNotInstalled) else
  let* h := getH in
  if negb (contains (IAAHandler_algs h) a) then ret (0, Some ErrUnsupported) else
  let* _ := IAAHandler_Lock in
  let* h := getH in
  if Z.of_nat (size (IAAHandler_jobs h)) >=? MAX_IAA_BINDINGS then
    let* _ := IAAHandler_Unlock in
    ret (0, Some ErrNotAvailable)
  else if JobParams_JobType (Job_params job) =? COMPRESS then
    let* made :=
      (if a =? DEFLATE then
         let* (nw, err) := ext (New E (ixl_NewDeflateWriter (Job_w job))) in
         match err with
         | Some e => ret (inr (0, Some e))
         | None => ret (inl nw)
         end
       else if a =? GZIP then
         let* (nw, _) := ext (New E (ixl_NewGzipWriter (Job_w job))) in
         ret (inl nw)
       else ret (inr (0, Some (errors_New "does not support algorithm")))) in
    match made with
    | inr res => ret res
    | inl nw =>
        let* _ := modifyH (IAAHandler_set_jobs <[Job_id job := nw]>) in
        let* _ := IAAHandler_Unlock in
        ext (Write E (Some nw) (Job_p job))
    end
  else if JobParams_JobType (Job_params job) =? DECOMPRESS then
    let* made :=
      (if (a =? DEFLATE) || (a =? GZIP) then
         let* (iar, err) := ext (New E (ixl_NewInflate (Job_r job))) in
         match err with
         | Some e => ret (inr (0, Some e))
         | None => ret (inl iar)
         end
       else ret (inr (0, Some (errors_New "does not support algorithm")))) in
    match made with
    | inr res => ret res
    | inl iar =>
        let* _ := modifyH (IAAHandler_set_readjobs <[Job_id job := iar]>) in
        let* _ := IAAHandler_Unlock in
        ext (Read E (Some iar) (Job_p job))
    end
  else ret (0, None).

Definition IAAHandler_Release (id : JobID)
    : M (IAAHandler * W) (option error) :=
  let* h := getH in
  match IAAHandler_jobs h !! id with
  | None => ret (Some (errors_New "could not find the job"))
  | Some w =>
      let* err := ext (Close E (Some w)) in
      let* _ := IAAHandler_Lock in
      deferring IAAHandler_Unlock
        (let* _ := modifyH (IAAHandler_set_jobs (delete id)) in
         ret err)
  end.

Definition ISALHandler_Request (job : Job)
    : M (ISALHandler * W) (Z * option error) :=
  let a := JobParams_a (Job_params job) in
  let* ready := ext (Ready E lib_isal) in
  if negb ready then ret (0, Some ErrNotInstalled) else
  let* h := getH in
  if negb (contains (ISALHandler_algs h) a) then ret (0, Some ErrUnsupported) else
  if JobParams_JobType (Job_params job) =? COMPRESS then
    let* got :=
      match ISALHandler_jobs h !! Job_id job with
      | Some val => ret (inl val)
      | None =>
          let* (isaw, err) :=
            ext (New E (isal_NewWriterLevel (Job_w job)
                          (JobParams_level (Job_params job)))) in
          match err with
          | Some _ => ret (inr (0, Some ErrUnsupported))
          | None => ret (inl isaw)
          end
      end in
    match got with
    | inr res => ret res
    | inl isaw =>
        let* _ := modifyH (ISALHandler_set_jobs <[Job_id job := isaw]>) in
        let* (n, err) := ext (Write E (Some isaw) (Job_p job)) in
        ret (n, err)
    end
  else if JobParams_JobType (Job_params job) =? DECOMPRESS then
    let* got :=
      match ISALHandler_readjobs h !! Job_id job with
      | Some val => ret (inl val)
      | None =>
          let* (isar, err) := ext (New E (isal_NewReader (Job_r job))) in
          match err with
          | Some e => ret (inr (0, Some e))
          | None => ret (inl isar)
          end
      end in
    match got with
    | inr res => ret res
    | inl isar =>
        let* _ := modifyH (ISALHandler_set_readjobs <[Job_id job := isar]>) in
        let* (n, err) := ext (Read E (Some isar) (Job_p job)) in
        ret (n, err)
    end
  else ret (0, None).

Definition ISALHandler_Release (id : JobID)
    : M (ISALHandler * W) (option error) :=
  let* h := getH in
  let writematch := ISALHandler_jobs h !! id in
  let readmatch := ISALHandler_readjobs h !! id in
  match writematch, readmatch with
  | None, None => ret (Some (errors_New "could not find the job"))
  | _, _ =>
      let* err1 :=
        match writematch with
        | Some w =>
            let* err := ext (Close E (Some w)) in
            let* _ := modifyH (ISALHandler_set_jobs (delete id)) in
            ret err
        | None => ret None
        end in
      match readmatch with
      | Some r =>
          let* err := ext (Close E (Some r)) in
          let* _ := modifyH (ISALHandler_set_readjobs (delete id)) in
          ret err
      | None => ret err1
      end
  end.

(** [newQatJob]: the pool check, then the library object for the mode, then
    the binding is stored under the job's id.  The mode is [DIRECT] in
    [Request]; [STREAM] is used by [RequestStream] only, which the Manager
    never calls ("functional but unused for now") and which touches the
    handler's map through [newQatJob] alone, so it is not embedded. *)
Definition newQatJob (job : Job) (mode : QatMode)
    : M (QatHandler * W) (option QATJob * option error) :=
  let* h := getH in
  if Z.of_nat (size (QatHandler_jobs h)) >=? MAX_QAT_BINDINGS then
    ret (None, Some ErrNotAvailable)
  else
    let* made :=
      (if mode =? DIRECT then
         match Job_w job, Job_r job with
         | Some _, _ =>
             let* (w, _) := ext (New E (qatzip_NewWriter (Job_w job))) in
             ret (inl (None, Some w, None))
         | None, Some _ =>
             let* (r, err) := ext (New E (qatzip_NewReader (Job_r job))) in
             match err with
             | Some e => ret (inr (None, Some e))
             | None => ret (inl (None, None, Some r))
             end
         | None, None => ret (inl (None, None, None))
         end
       else if mode =? STREAM then
         let* (q, err) := ext (New E qatzip_NewQzBinding) in
         match err with
         | Some e => ret (inr (None, Some e))
         | None => ret (inl (Some q, None, None))
         end
       else ret (inl (None, None, None))) in
    match made with
    | inr res => ret res
    | inl (q, w, r) =>
        let qat :=
          {| QATJob_outBuf := make_bytes DEFAULT_OUT_BUFFER_SZ;
             QATJob_b := q; QATJob_job := Job_id job;
             QATJob_w := w; QATJob_r := r; QATJob_mode := mode |} in
        let* _ := modifyH (QatHandler_set_jobs <[Job_id job := qat]>) in
        ret (Some qat, None)
    end.

(** [range h.jobs] visits the bindings in an unspecified order; the order
    of [map_to_list] stands for it.  Under [QatHandler_keyed] (each binding
    is stored under the id of its job) at most one binding matches. *)
Definition findJob (h : QatHandler) (id : JobID) : option QATJob * option error :=
  match List.find (fun kv => QATJob_job (snd kv) =? id)
                  (map_to_list (QatHandler_jobs h)) with
  | Some (_, qat) => (Some qat, None)
  | None => (None, Some ErrJobNotFound)
  end.

(** Field access through a [*QATJob]: a nil pointer panics. *)
Definition deref {H} (qat : option QATJob) : M (H * W) QATJob :=
  match qat with
  | Some q => ret q
  | None => panic "invalid memory address or nil pointer dereference"
  end.

(** The first half of [QatHandler.Request]: find or create the binding and
    configure a new one.  [inr] is an early [return]; [inl (qat, err)] goes
    on with the pointer and the value of [err] at that point. *)
Definition QatHandler_bind (job : Job)
    : M (QatHandler * W) ((option QATJob * option error) + (Z * option error)) :=
  let a := JobParams_a (Job_params job) in
  let sym := fst (GetQATSymbol a) in
  let* h := getH in
  match QatHandler_jobs h !! Job_id job with
  | Some val => ret (inl (Some val, None))
  | None =>
      let* (qat, err) := newQatJob job DIRECT in
      if JobParams_JobType (Job_params job) =? COMPRESS then
        let* q := deref qat in
        let* err1 :=
          ext (Apply E (QATJob_w q)
                 [qatzip_AlgorithmOption sym;
                  qatzip_CompressionLevelOption (JobParams_level (Job_params job));
                  qatzip_OutputBufLengthOption 2580000]) in
        match err1 with
        | Some _ => ret (inr (0, Some ErrUnsupported))
        | None =>
            let* err2 :=
              (if a =? GZIP
               then ext (Apply E (QATJob_w q) [qatzip_DeflateFmtOption_DeflateGzip])
               else ret None) in
            match err2 with
            | Some e => ret (inr (0, Some e))
            | None =>
                match err with
                | Some e => ret (inr (0, Some e))
                | None => ret (inl (qat, err))
                end
            end
        end
      else if JobParams_JobType (Job_params job) =? DECOMPRESS then
        let* q := deref qat in
        let* err1 := ext (Apply E (QATJob_r q) [qatzip_AlgorithmOption sym]) in
        match err1 with
        | Some _ => ret (inr (0, Some ErrUnsupported))
        | None =>
            let* err2 :=
              (if a =? GZIP
               then ext (Apply E (QATJob_r q) [qatzip_DeflateFmtOption_DeflateGzip])
               else ret None) in
            match err2 with
            | Some e => ret (inr (0, Some e))
            | None => ret (inl (qat, err))
            end
        end
      else ret (inl (qat, err))
  end.

Definition QatHandler_Request (job : Job)
    : M (QatHandler * W) (Z * option error) :=
  let a := JobParams_a (Job_params job) in
  let* h := getH in
  if negb (QatHandler_ready h) then ret (0, Some ErrNotInstalled) else
  if negb (contains (QatHandler_algs h) a) then ret (0, Some ErrUnsupported) else
  let* bound := QatHandler_bind job in
  match bound with
  | inr res => ret res
  | inl (qat, err) =>
      if JobParams_JobType (Job_params job) =? COMPRESS then
        let* q := deref qat in
        let* (n, err) := ext (Write E (QATJob_w q) (Job_p job)) in
        match err with
        | Some e => ret (0, Some e)
        | None => ret (n, None)
        end
      else if JobParams_JobType (Job_params job) =? DECOMPRESS then
        let* q := deref qat in
        let* (n, err) := ext (Read E (QATJob_r q) (Job_p job)) in
        match err with
        | Some e => if decide (e = io_EOF) then ret (n, Some e) else ret (0, Some e)
        | None => ret (n, None)
        end
      else ret (0, err)
  end.

Definition QatHandler_Release (id : JobID)
    : M (QatHandler * W) (option error) :=
  let* h := getH in
  match findJob h id with
  | (_, Some e) => ret (Some e)
  | (job, None) =>
      let* job := deref job in
      let* err :=
        (if QATJob_mode job =? DIRECT then
           match QATJob_w job, QATJob_r job with
           | Some _, _ => ext (Close E (QATJob_w job))
           | None, Some _ => ext (Close E (QATJob_r job))
           | None, None => ret None
           end
         else ext (Close E (QATJob_b job))) in
      match err with
      | Some e => ret (Some e)
      | None =>
          let* _ := modifyH (QatHandler_set_jobs (delete id)) in
          ret None
      end
  end.

End Handlers.

(** ** The Manager (strategy.go:643-802) *)

Record Manager : Type := mkManager {
  Manager_strategies : list StrategyType;
  Manager_GlobalPolicy : PolicyFunc;
  Manager_qat : QatHandler;
  Manager_isal : ISALHandler;
  Manager_iaa : IAAHandler;
  Manager_fallback : DefaultHandler;
  Manager_jobs : gmap JobID Job
}.

(** Calls that leave the Manager: an evaluation of the policy function and
    the two methods of the [Handler] interface.  The log is not data of the
    program; it records, in order, which of these calls a run has made. *)
Inductive Call : Type :=
| call_policy
| call_Request (h : HandlerRef) (id : JobID)
| call_Release (h : HandlerRef) (id : JobID).

#[global] Instance Call_eq_dec : EqDecision Call.
Proof. solve_decision. Defined.

(** The whole program state: the Manager, the package variables [nextID],
    [uniqueID] and [freeIDs], the world outside, and the call log. *)
Record State (W : Type) : Type := mkState {
  instance : Manager;
  nextID : Z;
  uniqueID : Z;
  freeIDs : list Z;
  world : W;
  calls : list Call
}.
Arguments mkState {W} _ _ _ _ _ _.
Arguments instance {W} _.
Arguments nextID {W} _.
Arguments uniqueID {W} _.
Arguments freeIDs {W} _.
Arguments world {W} _.
Arguments calls {W} _.

Definition wrap64 (z : Z) : Z := (z + 2 ^ 63) mod 2 ^ 64 - 2 ^ 63.
Definition MaxInt64 : Z := 2 ^ 63 - 1.

Definition Manager_set_jobs (f : gmap JobID Job -> gmap JobID Job) (m : Manager)
    : Manager :=
  {| Manager_strategies := Manager_strategies m;
     Manager_GlobalPolicy := Manager_GlobalPolicy m;
     Manager_qat := Manager_qat m; Manager_isal := Manager_isal m;
     Manager_iaa := Manager_iaa m; Manager_fallback := Manager_fallback m;
     Manager_jobs := f (Manager_jobs m) |}.

Definition Manager_set_qat (h : QatHandler) (m : Manager) : Manager :=
  {| Manager_strategies := Manager_strategies m;
     Manager_GlobalPolicy := Manager_GlobalPolicy m;
     Manager_qat := h; Manager_isal := Manager_isal m;
     Manager_iaa := Manager_iaa m; Manager_fallback := Manager_fallback m;
     Manager_jobs := Manager_jobs m |}.

Definition Manager_set_isal (h : ISALHandler) (m : Manager) : Manager :=
  {| Manager_strategies := Manager_strategies m;
     Manager_GlobalPolicy := Manager_GlobalPolicy m;
     Manager_qat := Manager_qat m; Manager_isal := h;
     Manager_iaa := Manager_iaa m; Manager_fallback := Manager_fallback m;
     Manager_jobs := Manager_jobs m |}.

Definition Manager_set_iaa (h : IAAHandler) (m : Manager) : Manager :=
  {| Manager_strategies := Manager_strategies m;
     Manager_GlobalPolicy := Manager_GlobalPolicy m;
     Manager_qat := Manager_qat m; Manager_isal := Manager_isal m;
     Manager_iaa := h; Manager_fallback := Manager_fallback m;
     Manager_jobs := Manager_jobs m |}.

Definition Manager_set_fallback (h : DefaultHandler) (m : Manager) : Manager :=
  {| Manager_strategies := Manager_strategies m;
     Manager_GlobalPolicy := Manager_GlobalPolicy m;
     Manager_qat := Manager_qat m; Manager_isal := Manager_isal m;
     Manager_iaa := Manager_iaa m; Manager_fallback := h;
     Manager_jobs := Manager_jobs m |}.

Definition Job_set_p (p : list Byte.byte) (j : Job) : Job :=
  {| Job_id := Job_id j; Job_p := p; Job_JobType := Job_JobType j;
     Job_params := Job_params j; Job_w := Job_w j; Job_r := Job_r j;
     Job_h := Job_h j |}.

Definition Job_set_h (h : option HandlerRef) (j : Job) : Job :=
  {| Job_id := Job_id j; Job_p := Job_p j; Job_JobType := Job_JobType j;
     Job_params := Job_params j; Job_w := Job_w j; Job_r := Job_r j;
     Job_h := h |}.

Definition getHandler (s : StrategyType) : HandlerRef :=
  if s =? QAT then H_qat
  else if s =? IAA then H_iaa
  else if s =? ISAL then H_isal
  else H_fallback.

Section TheManager.
Context {W : Type} (E : Engine W).

Definition set_instance (f : Manager -> Manager) (s : State W) : State W :=
  mkState (f (instance s)) (nextID s) (uniqueID s) (freeIDs s) (world s) (calls s).

Definition set_world (w : W) (s : State W) : State W :=
  mkState (instance s) (nextID s) (uniqueID s) (freeIDs s) w (calls s).

Definition log (c : Call) (s : State W) : State W :=
  mkState (instance s) (nextID s) (uniqueID s) (freeIDs s) (world s)
          (calls s ++ [c]).

(** A handler method of the Manager's instance [h], run in the program
    state. *)
Definition on_handler {H A} (get : Manager -> H) (set : H -> Manager -> Manager)
    (m : M (H * W) A) : M (State W) A :=
  zoom (fun s => (get (instance s), world s))
       (fun hw s => set_world (snd hw) (set_instance (set (fst hw)) s))
       m.

Definition Handler_Request (h : HandlerRef) (job : Job)
    : M (State W) (Z * option error) :=
  let* _ := modify (log (call_Request h (Job_id job))) in
  match h with
  | H_qat => on_handler Manager_qat Manager_set_qat (QatHandler_Request E job)
  | H_isal => on_handler Manager_isal Manager_set_isal (ISALHandler_Request E job)
  | H_iaa => on_handler Manager_iaa Manager_set_iaa (IAAHandler_Request E job)
  | H_fallback =>
      on_handler Manager_fallback Manager_set_fallback (DefaultHandler_Request E job)
  end.

Definition Handler_Release (h : HandlerRef) (id : JobID)
    : M (State W) (option error) :=
  let* _ := modify (log (call_Release h id)) in
  match h with
  | H_qat => on_handler Manager_qat Manager_set_qat (QatHandler_Release E id)
  | H_isal => on_handler Manager_isal Manager_set_isal (ISALHandler_Release E id)
  | H_iaa => on_handler Manager_iaa Manager_set_iaa (IAAHandler_Release E id)
  | H_fallback =>
      on_handler Manager_fallback Manager_set_fallback (DefaultHandler_Release id)
  end.

(** [atomic.AddInt64(&nextID, delta)]: adds with wrap-around and returns the
    new value. *)
Definition AddInt64_nextID (delta : Z) : M (State W) Z :=
  fun s =>
    let v := wrap64 (nextID s + delta) in
    Returns (v, mkState (instance s) v (uniqueID s) (freeIDs s) (world s) (calls s)).

Definition set_uniqueID (v : Z) : M (State W) unit :=
  modify (fun s => mkState (instance s) (nextID s) v (freeIDs s) (world s) (calls s)).

Definition new_Job (id : JobID) : Job :=
  {| Job_id := id; Job_p := []; Job_JobType := 0; Job_params := zero_JobParams;
     Job_w := None; Job_r := None; Job_h := None |}.

Definition createJob : M (State W) Job :=
  let* free := gets freeIDs in
  let* id :=
    (if (0 <? length free)%nat
     then let* _ := set_uniqueID 1 in AddInt64_nextID 1
     else let* _ := set_uniqueID 1 in
          let* u := gets uniqueID in AddInt64_nextID u) in
  ret (new_Job id).

Definition freeJobID (id : JobID) : M (State W) unit :=
  modify (fun s =>
    mkState (instance s) (nextID s) (uniqueID s) (freeIDs s ++ [id]) (world s)
            (calls s)).

Definition is_skip (err : option error) : bool :=
  match err with
  | Some ErrNotAvailable | Some ErrUnsupported | Some ErrNotInstalled => true
  | _ => false
  end.

(** The completion test of strategy.go:794. *)
Definition completes (job : Job) (err : option error) : bool :=
  ((JobParams_JobType (Job_params job) =? DECOMPRESS) && bool_decide (err = Some io_EOF))
  || ((JobParams_JobType (Job_params job) =? COMPRESS) && bool_decide (err = None)).

(** [h.Release(id); delete(m.jobs, id); freeJobID(id)]; the error of
    [Release] is dropped. *)
Definition retire (h : HandlerRef) (id : JobID) : M (State W) unit :=
  let* _ := Handler_Release h id in
  let* _ := modify (set_instance (Manager_set_jobs (delete id))) in
  freeJobID id.

(** The loop over the policy's candidates (strategy.go:776-801). *)
Fixpoint tryStrategies (job : Job) (priority : list StrategyType)
    : M (State W) (Z * JobID * option error) :=
  match priority with
  | [] => ret (0, Job_id job, Some errNoWorkingStrategies)
  | strategy :: rest =>
      if negb (IsValid strategy) then
        ret (0, Job_id job, Some (errors_New "invalid strategy given by the policy"))
      else
        let h := getHandler strategy in
        let* (n, err) := Handler_Request h job in
        if bool_decide (err = Some ErrNotAvailable)
           || bool_decide (err = Some ErrUnsupported) then
          tryStrategies job rest
        else if bool_decide (err = Some ErrNotInstalled) then
          tryStrategies job rest
        else if bool_decide (err <> None) && bool_decide (err <> Some io_EOF) then
          ret (0, Job_id job, err)
        else
          let job := Job_set_h (Some h) job in
          let* _ := modify (set_instance (Manager_set_jobs <[Job_id job := job]>)) in
          let* _ := (if completes job err then retire h (Job_id job) else ret tt) in
          ret (n, Job_id job, err)
  end.

(** A call is a continuation when [jp.id] is registered and the direction
    in [jp] is decompress (strategy.go:751). *)
Definition continuation (m : Manager) (jp : JobParams) : option Job :=
  match Manager_jobs m !! JobParams_id jp with
  | Some currentJob =>
      if JobParams_JobType jp =? DECOMPRESS then Some currentJob else None
  | None => None
  end.

Definition SubmitWithPolicy (p : list Byte.byte) (jp : JobParams) (policy : PolicyFunc)
    : M (State W) (Z * JobID * option error) :=
  let* m := gets instance in
  match continuation m jp with
  | Some currentJob =>
      (* currentJob.p = p, through the pointer stored under jp.id *)
      let currentJob := Job_set_p p currentJob in
      let* _ :=
        modify (set_instance (Manager_set_jobs <[JobParams_id jp := currentJob]>)) in
      match Job_h currentJob with
      | None => panic "invalid memory address or nil pointer dereference"
      | Some h =>
          let* (n, err) := Handler_Request h currentJob in
          let* _ :=
            (if bool_decide (err = Some io_EOF)
             then retire h (Job_id currentJob) else ret tt) in
          ret (n, Job_id currentJob, err)
      end
  | None =>
      let params :=
        {| BufferSize := len p; Strategies := Manager_strategies m;
           PolicyParameters_JobParams := jp |} in
      let* job := createJob in
      let job :=
        {| Job_id := Job_id job; Job_p := p; Job_JobType := Job_JobType job;
           Job_params := jp; Job_w := JobParams_w jp; Job_r := JobParams_r jp;
           Job_h := Job_h job |} in
      let* _ := modify (log call_policy) in
      let priority := policy params in
      tryStrategies job priority
  end.

Definition SubmitJob (p : list Byte.byte) (jp : JobParams)
    : M (State W) (Z * JobID * option error) :=
  let* m := gets instance in
  SubmitWithPolicy p jp (Manager_GlobalPolicy m).

(** [initManager], and the zero values of the package variables. *)
Definition initManager : Manager :=
  {| Manager_strategies := GetStrategies;
     Manager_GlobalPolicy := GetDefaultPolicy;
     Manager_qat := NewQATHandler;
     Manager_isal := NewISALHandler;
     Manager_iaa := NewIAAHandler;
     Manager_fallback := NewDefaultHandler;
     Manager_jobs := ∅ |}.

Definition init (w : W) : State W := mkState initManager 0 0 [] w [].

End TheManager.

(** ** The stream facade (Writer, Reader and their options) *)

(** Package variables initialised with [errors.New].  No other error of
    the package carries one of these messages, so comparing the messages is
    comparing the values. *)
Definition errClosed : error := errors_New "writer already closed".
Definition ErrParamCompressionLevel : error :=
  errors_New "compression parameter invalid".
Definition ErrApplyInvalidType : error :=
  errors_New "cannot apply parameters to this object".
Definition ErrParamAlgorithm : error := errors_New "algorithm parameter invalid".

Definition DEFAULT_LEVEL : Z := 1.

(** The field [m] of a [Writer] or [Reader] is [GetManager()], the one
    Manager of the program: the [instance] of the program state.  A nil
    [policy] is [None]. *)
Record Writer : Type := mkWriter {
  Writer_w : option iohandle;
  Writer_closed : bool;
  Writer_policy : option PolicyFunc;
  Writer_p : JobParams
}.

Record Reader : Type := mkReader {
  Reader_closed : bool;
  Reader_policy : option PolicyFunc;
  Reader_p : JobParams
}.

Definition JobParams_set_a (a : Algorithm) (jp : JobParams) : JobParams :=
  {| JobParams_a := a; JobParams_level := JobParams_level jp;
     JobParams_id := JobParams_id jp; JobParams_JobType := JobParams_JobType jp;
     JobParams_w := JobParams_w jp; JobParams_r := JobParams_r jp |}.

Definition JobParams_set_level (level : Z) (jp : JobParams) : JobParams :=
  {| JobParams_a := JobParams_a jp; JobParams_level := level;
     JobParams_id := JobParams_id jp; JobParams_JobType := JobParams_JobType jp;
     JobParams_w := JobParams_w jp; JobParams_r := JobParams_r jp |}.

Definition JobParams_set_id (id : JobID) (jp : JobParams) : JobParams :=
  {| JobParams_a := JobParams_a jp; JobParams_level := JobParams_level jp;
     JobParams_id := id; JobParams_JobType := JobParams_JobType jp;
     JobParams_w := JobParams_w jp; JobParams_r := JobParams_r jp |}.

Definition JobParams_set_r (r : option iohandle) (jp : JobParams) : JobParams :=
  {| JobParams_a := JobParams_a jp; JobParams_level := JobParams_level jp;
     JobParams_id := JobParams_id jp; JobParams_JobType := JobParams_JobType jp;
     JobParams_w := JobParams_w jp; JobParams_r := r |}.

Definition Writer_set_p (f : JobParams -> JobParams) (z : Writer) : Writer :=
  {| Writer_w := Writer_w z; Writer_closed := Writer_closed z;
     Writer_policy := Writer_policy z; Writer_p := f (Writer_p z) |}.

Definition Writer_set_closed (b : bool) (z : Writer) : Writer :=
  {| Writer_w := Writer_w z; Writer_closed := b;
     Writer_policy := Writer_policy z; Writer_p := Writer_p z |}.

Definition Writer_set_w (w : option iohandle) (z : Writer) : Writer :=
  {| Writer_w := w; Writer_closed := Writer_closed z;
     Writer_policy := Writer_policy z; Writer_p := Writer_p z |}.

Definition Writer_set_policy (p : option PolicyFunc) (z : Writer) : Writer :=
  {| Writer_w := Writer_w z; Writer_closed := Writer_closed z;
     Writer_policy := p; Writer_p := Writer_p z |}.

Definition Reader_set_p (f : JobParams -> JobParams) (z : Reader) : Reader :=
  {| Reader_closed := Reader_closed z; Reader_policy := Reader_policy z;
     Reader_p := f (Reader_p z) |}.

Definition Reader_set_closed (b : bool) (z : Reader) : Reader :=
  {| Reader_closed := b; Reader_policy := Reader_policy z; Reader_p := Reader_p z |}.

Definition Reader_set_policy (p : option PolicyFunc) (z : Reader) : Reader :=
  {| Reader_closed := Reader_closed z; Reader_policy := p; Reader_p := Reader_p z |}.

(** [new(Writer)] is the zero value; [NewWriter] then fills [p].  The
    field [w] of the Writer itself stays nil. *)
Definition NewWriter (w : option iohandle) : Writer :=
  {| Writer_w := None; Writer_closed := false; Writer_policy := None;
     Writer_p := {| JobParams_a := GZIP; JobParams_level := DEFAULT_LEVEL;
                    JobParams_id := 0; JobParams_JobType := COMPRESS;
                    JobParams_w := w; JobParams_r := None |} |}.

Definition NewReader (r : option iohandle) : Reader :=
  {| Reader_closed := false; Reader_policy := None;
     Reader_p := {| JobParams_a := GZIP; JobParams_level := 0;
                    JobParams_id := 0; JobParams_JobType := DECOMPRESS;
                    JobParams_w := None; JobParams_r := r |} |}.

(** An [Option] is a function value: one of the closures that
    [CompressionLevelOption] and [AlgorithmOption] return, or nil.  (The
    parameter type [applier] is not exported, so no other package can write
    one.) *)
Inductive Option : Type :=
| CompressionLevelOption (level : Z)
| AlgorithmOption (alg : Algorithm)
| nil_Option.

(** The dynamic type behind an [applier]: [*Writer] and [*Reader] are the
    two types with an [Apply] method. *)
Inductive applier : Type :=
| applier_Writer (z : Writer)
| applier_Reader (z : Reader).

(** The call [op(a)].  With the two appliers there are, the [default]
    case of the type switch in [AlgorithmOption] is never taken. *)
Definition Option_call (op : Option) : M applier (option error) :=
  match op with
  | CompressionLevelOption level =>
      if level <=? 0 then ret (Some ErrParamCompressionLevel)
      else
        let* a := gets (fun a => a) in
        match a with
        | applier_Writer z =>
            let* _ := modify (fun _ =>
                        applier_Writer (Writer_set_p (JobParams_set_level level) z)) in
            ret None
        | applier_Reader _ => ret (Some ErrApplyInvalidType)
        end
  | AlgorithmOption alg =>
      if negb (Algorithm_isValid alg) then ret (Some ErrParamAlgorithm)
      else
        let* a := gets (fun a => a) in
        match a with
        | applier_Reader z =>
            let* _ := modify (fun _ =>
                        applier_Reader (Reader_set_p (JobParams_set_a alg) z)) in
            ret None
        | applier_Writer z =>
            let* _ := modify (fun _ =>
                        applier_Writer (Writer_set_p (JobParams_set_a alg) z)) in
            ret None
        end
  | nil_Option => panic "invalid memory address or nil pointer dereference"
  end.

(** The loop of [Apply]: the first option that fails ends it. *)
Fixpoint apply_options (options : list Option) : M applier (option error) :=
  match options with
  | [] => ret None
  | op :: rest =>
      let* err := Option_call op in
      match err with
      | Some e => ret (Some e)
      | None => apply_options rest
      end
  end.

Definition Writer_Apply (options : list Option) : M Writer (option error) :=
  let* z := gets (fun z => z) in
  if Writer_closed z then ret (Some errClosed)
  else
    zoom applier_Writer
         (fun a z => match a with applier_Writer z' => z' | applier_Reader _ => z end)
         (apply_options options).

Definition Reader_Apply (options : list Option) : M Reader (option error) :=
  let* z := gets (fun z => z) in
  if Reader_closed z then ret (Some errClosed)
  else
    zoom applier_Reader
         (fun a z => match a with applier_Reader z' => z' | applier_Writer _ => z end)
         (apply_options options).

Definition Writer_SetPolicy (p : option PolicyFunc) : M Writer unit :=
  modify (Writer_set_policy p).

Definition Writer_Close : M Writer (option error) :=
  let* z := gets (fun z => z) in
  if Writer_closed z then ret (Some errClosed)
  else
    let* _ := modify (Writer_set_closed true) in
    ret None.

Definition Writer_Reset (w : option iohandle) : M Writer unit :=
  let* _ := modify (Writer_set_w w) in
  modify (Writer_set_closed false).

Definition Reader_SetPolicy (p : option PolicyFunc) : M Reader unit :=
  modify (Reader_set_policy p).

Definition Reader_Close : M Reader (option error) :=
  let* z := gets (fun z => z) in
  if Reader_closed z then ret (Some errClosed)
  else
    let* _ := modify (Reader_set_closed true) in
    ret None.

Definition Reader_Reset (r : option iohandle) : M Reader unit :=
  let* _ := modify (Reader_set_closed false) in
  modify (Reader_set_p (JobParams_set_r r)).

(** A method of the object that does not go to the Manager, run beside
    the program state; and a call of the Manager made from a method. *)
Definition on_object {O S A} (m : M O A) : M (O * S) A :=
  zoom fst (fun o os => (o, snd os)) m.

Definition on_Manager {O S A} (m : M S A) : M (O * S) A :=
  zoom snd (fun s os => (fst os, s)) m.

Section Facade.
Context {W : Type} (E : Engine W).

Definition Writer_Write (p : list Byte.byte)
    : M (Writer * State W) (Z * option error) :=
  let* z := gets fst in
  if Writer_closed z then ret (0, Some errClosed)
  else
    let* (n, id, err) :=
      on_Manager
        (match Writer_policy z with
         | None => SubmitJob E p (Writer_p z)
         | Some policy => SubmitWithPolicy E p (Writer_p z) policy
         end) in
    let* _ := modify (fun zs => (Writer_set_p (JobParams_set_id id) (fst zs), snd zs)) in
    ret (n, err).

Definition Reader_Read (p : list Byte.byte)
    : M (Reader * State W) (Z * option error) :=
  let* z := gets fst in
  let* (n, id, err) :=
    on_Manager
      (match Reader_policy z with
       | None => SubmitJob E p (Reader_p z)
       | Some policy => SubmitWithPolicy E p (Reader_p z) policy
       end) in
  let* _ := modify (fun zs => (Reader_set_p (JobParams_set_id id) (fst zs), snd zs)) in
  ret (n, err).

End Facade.

(** * Properties *)

(** ** Running a new operation *)

Section NewOperation.
Context {W : Type} (E : Engine W).

(** The id the next [createJob] mints. *)
Definition fresh_id (st : State W) : JobID := wrap64 (nextID st + 1).

Definition policy_params (st : State W) (p : list Byte.byte) (jp : JobParams)
    : PolicyParameters :=
  {| BufferSize := len p; Strategies := Manager_strategies (instance st);
     PolicyParameters_JobParams := jp |}.

(** The Job a new operation works on, before it is bound to a handler. *)
Definition fresh_job (st : State W) (p : list Byte.byte) (jp : JobParams) : Job :=
  {| Job_id := fresh_id st; Job_p := p; Job_JobType := 0; Job_params := jp;
     Job_w := JobParams_w jp; Job_r := JobParams_r jp; Job_h := None |}.

(** The state in which the loop over the candidates starts: the id has
    been minted and the policy evaluated. *)
Definition started (st : State W) : State W :=
  mkState (instance st) (fresh_id st) 1 (freeIDs st) (world st)
          (calls st ++ [call_policy]).

(** Every candidate of [pre] is valid and its [Request] answers with a
    skip-class error; the result is the state after the last of them. *)
Fixpoint skip_all (job : Job) (pre : list StrategyType) (st : State W)
    : option (State W) :=
  match pre with
  | [] => Some st
  | s :: pre' =>
      if IsValid s then
        match Handler_Request E (getHandler s) job st with
        | Returns ((_, err), st1) =>
            if is_skip err then skip_all job pre' st1 else None
        | _ => None
        end
      else None
  end.

Definition Request_calls (job : Job) (l : list StrategyType) : list Call :=
  map (fun s => call_Request (getHandler s) (Job_id job)) l.

(** The registration of a job under its id, and what [retire] leaves of
    the Manager's and the package's data. *)
Definition register (job : Job) (st : State W) : State W :=
  set_instance (Manager_set_jobs <[Job_id job := job]>) st.

Definition retired (id : JobID) (st : State W) : State W :=
  mkState (Manager_set_jobs (delete id) (instance st)) (nextID st) (uniqueID st)
          (freeIDs st ++ [id]) (world st) (calls st).

Lemma createJob_eq (st : State W) :
  createJob st
  = Returns (new_Job (fresh_id st),
             mkState (instance st) (fresh_id st) 1 (freeIDs st) (world st) (calls st)).
Proof.
  unfold createJob, bind, gets, set_uniqueID, modify, AddInt64_nextID, ret, fresh_id.
  destruct (0 <? length (freeIDs st))%nat; reflexivity.
Qed.

Lemma SubmitWithPolicy_new p jp policy (st : State W) :
  continuation (instance st) jp = None ->
  SubmitWithPolicy E p jp policy st
  = tryStrategies E (fresh_job st p jp) (policy (policy_params st p jp)) (started st).
Proof.
  intros Hc. unfold SubmitWithPolicy, bind at 1, gets. rewrite Hc.
  unfold bind at 1. rewrite createJob_eq. reflexivity.
Qed.

(** What a call through the [Handler] interface can touch: the handler
    objects, the world and the call log. *)
Lemma Handler_Request_frame h job (st st' : State W) r :
  Handler_Request E h job st = Returns (r, st') ->
  Manager_jobs (instance st') = Manager_jobs (instance st)
  /\ Manager_strategies (instance st') = Manager_strategies (instance st)
  /\ Manager_GlobalPolicy (instance st') = Manager_GlobalPolicy (instance st)
  /\ nextID st' = nextID st /\ uniqueID st' = uniqueID st
  /\ freeIDs st' = freeIDs st
  /\ calls st' = calls st ++ [call_Request h (Job_id job)].
Proof.
  unfold Handler_Request, bind, modify, on_handler, zoom.
  destruct h; simpl; intros H; repeat case_match; simplify_eq; simpl; auto 10.
Qed.

Lemma Handler_Release_frame h id (st st' : State W) r :
  Handler_Release E h id st = Returns (r, st') ->
  Manager_jobs (instance st') = Manager_jobs (instance st)
  /\ Manager_strategies (instance st') = Manager_strategies (instance st)
  /\ Manager_GlobalPolicy (instance st') = Manager_GlobalPolicy (instance st)
  /\ nextID st' = nextID st /\ uniqueID st' = uniqueID st
  /\ freeIDs st' = freeIDs st
  /\ calls st' = calls st ++ [call_Release h id].
Proof.
  unfold Handler_Release, bind, modify, on_handler, zoom.
  destruct h; simpl; intros H; repeat case_match; simplify_eq; simpl; auto 10.
Qed.

Lemma skip_all_app job pre rest (st st1 : State W) :
  skip_all job pre st = Some st1 ->
  tryStrategies E job (pre ++ rest) st = tryStrategies E job rest st1.
Proof.
  revert st. induction pre as [|s pre IH]; intros st H; simpl in *.
  - congruence.
  - destruct (IsValid s); [|discriminate]. simpl. unfold bind at 1.
    destruct (Handler_Request E (getHandler s) job st) as [[[n err] st2]| |];
      try discriminate.
    destruct (is_skip err) eqn:Hs; [|discriminate].
    destruct err as [[]|]; try discriminate; simpl; auto.
Qed.

Lemma skip_all_frame job pre (st st1 : State W) :
  skip_all job pre st = Some st1 ->
  Manager_jobs (instance st1) = Manager_jobs (instance st)
  /\ nextID st1 = nextID st /\ freeIDs st1 = freeIDs st
  /\ calls st1 = calls st ++ Request_calls job pre.
Proof.
  revert st. induction pre as [|s pre IH]; intros st H; simpl in *.
  - inversion H; subst. rewrite app_nil_r. auto.
  - destruct (IsValid s); [|discriminate].
    destruct (Handler_Request E (getHandler s) job st) as [[[n err] st2]| |] eqn:HR;
      try discriminate.
    destruct (is_skip err); [|discriminate].
    apply Handler_Request_frame in HR as (Hj & _ & _ & Hn & _ & Hf & Hc).
    apply IH in H as (Hj' & Hn' & Hf' & Hc').
    rewrite Hj', Hn', Hf', Hc', Hj, Hn, Hf, Hc, <- app_assoc. auto.
Qed.

Lemma skip_all_exhausted job l (st st1 : State W) :
  skip_all job l st = Some st1 ->
  tryStrategies E job l st = Returns ((0, Job_id job, Some errNoWorkingStrategies), st1).
Proof.
  intros H. rewrite <- (app_nil_r l). rewrite (skip_all_app _ _ _ _ _ H). reflexivity.
Qed.

Lemma skip_all_snoc job pre s (st st1 st2 : State W) n err :
  skip_all job pre st = Some st1 ->
  IsValid s = true ->
  Handler_Request E (getHandler s) job st1 = Returns ((n, err), st2) ->
  is_skip err = true ->
  skip_all job (pre ++ [s]) st = Some st2.
Proof.
  intros Hpre Hval Hreq Hs. revert st Hpre.
  induction pre as [|c pre IH]; intros st Hpre; cbn [skip_all app] in *.
  - inversion Hpre; subst. rewrite Hval, Hreq, Hs. reflexivity.
  - destruct (IsValid c); [|discriminate].
    destruct (Handler_Request E (getHandler c) job st) as [[[n' err'] s1]| |];
      try discriminate.
    destruct (is_skip err'); [|discriminate]. auto.
Qed.

(** One turn of the loop, by the answer of the candidate's [Request]. *)
Lemma tryStrategies_turn job s l (st st1 : State W) n err :
  IsValid s = true ->
  Handler_Request E (getHandler s) job st = Returns ((n, err), st1) ->
  tryStrategies E job (s :: l) st
  = if is_skip err then tryStrategies E job l st1
    else if bool_decide (err <> None) && bool_decide (err <> Some io_EOF)
    then Returns ((0, Job_id job, err), st1)
    else
      match (if completes (Job_set_h (Some (getHandler s)) job) err
             then retire E (getHandler s) (Job_id job)
             else ret tt) (register (Job_set_h (Some (getHandler s)) job) st1) with
      | Returns (_, st2) => Returns ((n, Job_id job, err), st2)
      | Panics why => Panics why
      | Blocks => Blocks
      end.
Proof.
  intros Hval Hreq. cbn [tryStrategies]. rewrite Hval. cbn [negb].
  unfold bind at 1. rewrite Hreq.
  destruct err as [[]|]; reflexivity.
Qed.

(** C1.  A new operation walks the policy's list in order.  After a prefix
    [pre] of candidates that were all skipped, a candidate [s] whose
    [Request] answers with a skip-class error is skipped too and the loop
    goes on with the candidates after it; if it answers with any other error
    that is neither nil nor [io.EOF], [SubmitWithPolicy] returns that error
    at once, and the [Request] calls made are exactly those on [pre] and
    [s]: no later candidate is asked. *)
Theorem SubmitWithPolicy_skip_or_abort p jp policy (st st1 st2 : State W)
    pre s rest n e :
  continuation (instance st) jp = None ->
  policy (policy_params st p jp) = pre ++ s :: rest ->
  skip_all (fresh_job st p jp) pre (started st) = Some st1 ->
  IsValid s = true ->
  Handler_Request E (getHandler s) (fresh_job st p jp) st1
    = Returns ((n, Some e), st2) ->
  (is_skip (Some e) = true ->
     SubmitWithPolicy E p jp policy st
       = tryStrategies E (fresh_job st p jp) rest st2
     /\ skip_all (fresh_job st p jp) (pre ++ [s]) (started st) = Some st2)
  /\ (is_skip (Some e) = false -> e <> io_EOF ->
     SubmitWithPolicy E p jp policy st
       = Returns ((0, fresh_id st, Some e), st2)
     /\ calls st2
        = calls st ++ call_policy :: Request_calls (fresh_job st p jp) (pre ++ [s])).
Proof.
  intros Hnew Hpol Hpre Hval Hreq.
  rewrite (SubmitWithPolicy_new _ _ _ _ Hnew), Hpol.
  rewrite (skip_all_app _ _ _ _ _ Hpre).
  rewrite (tryStrategies_turn _ _ _ _ _ _ _ Hval Hreq).
  split.
  - intros Hs. rewrite Hs. split; [reflexivity|].
    exact (skip_all_snoc _ _ _ _ _ _ _ _ Hpre Hval Hreq Hs).
  - intros Hs Heof. rewrite Hs.
    rewrite !bool_decide_eq_true_2 by congruence. split; [reflexivity|].
    apply skip_all_frame in Hpre as (_ & _ & _ & Hc).
    apply Handler_Request_frame in Hreq as (_ & _ & _ & _ & _ & _ & Hc').
    rewrite Hc', Hc. unfold Request_calls. rewrite map_app. simpl.
    rewrite <- !app_assoc. reflexivity.
Qed.

(** C7.  When every candidate of the policy's list answers with a
    skip-class error, a new operation ends with [errNoWorkingStrategies] and
    zero bytes, and the registry is what it was: the new Job was never put
    into it. *)
Theorem SubmitWithPolicy_exhausted p jp policy (st st1 : State W) :
  continuation (instance st) jp = None ->
  skip_all (fresh_job st p jp) (policy (policy_params st p jp)) (started st)
    = Some st1 ->
  SubmitWithPolicy E p jp policy st
    = Returns ((0, fresh_id st, Some errNoWorkingStrategies), st1)
  /\ Manager_jobs (instance st1) = Manager_jobs (instance st)
  /\ (Manager_jobs (instance st) !! fresh_id st = None ->
      Manager_jobs (instance st1) !! fresh_id st = None).
Proof.
  intros Hnew Hall.
  rewrite (SubmitWithPolicy_new _ _ _ _ Hnew).
  rewrite (skip_all_exhausted _ _ _ _ Hall).
  apply skip_all_frame in Hall as (Hj & _).
  split; [reflexivity|]. split; [exact Hj|]. rewrite Hj. auto.
Qed.

End NewOperation.

(** ** The shipped policy *)

(** C4, as the specification words it, does not hold: whatever the
    threshold, the policy does not put QAT first below it and ISA-L first
    from it on.  (Sizes 0 and 1500 decide it.) *)
Lemma BufferSizePolicy_not_QAT_first_when_small :
  ~ exists T : Z, forall params : PolicyParameters,
      0 <= BufferSize params ->
      (BufferSize params < T -> BufferSizePolicy params = [QAT; IAA; ISAL])
      /\ (T <= BufferSize params -> BufferSizePolicy params = [ISAL; IAA; QAT]).
Proof.
  intros [T H].
  destruct (Z_lt_le_dec 0 T) as [Hpos|Hneg].
  - destruct (H (mkPolicyParameters 0 [] zero_JobParams)) as [H0 _]; [simpl; lia|].
    specialize (H0 Hpos). discriminate H0.
  - destruct (H (mkPolicyParameters 1500 [] zero_JobParams)) as [_ H1]; [simpl; lia|].
    simpl in H1. assert (Hle : T <= 1500) by lia.
    specialize (H1 Hle). discriminate H1.
Qed.

(** C4, amended.  The default policy is [BufferSizePolicy]; its answer
    depends on the buffer size alone; below 1500 bytes it is ISA-L, IAA, QAT
    and from 1500 bytes on it is the reverse, QAT, IAA, ISA-L. *)
Theorem BufferSizePolicy_order (params : PolicyParameters) :
  GetDefaultPolicy = BufferSizePolicy
  /\ (forall params', BufferSize params' = BufferSize params ->
        BufferSizePolicy params' = BufferSizePolicy params)
  /\ (BufferSize params < 1500 -> BufferSizePolicy params = [ISAL; IAA; QAT])
  /\ (1500 <= BufferSize params -> BufferSizePolicy params = rev [ISAL; IAA; QAT])
  /\ rev [ISAL; IAA; QAT] = [QAT; IAA; ISAL].
Proof.
  unfold BufferSizePolicy.
  split; [reflexivity|]. split; [|split; [|split; [|reflexivity]]].
  - intros params' Heq. rewrite Heq. reflexivity.
  - intros Hlt. apply Z.ltb_lt in Hlt. rewrite Hlt. reflexivity.
  - intros Hge. apply Z.ltb_ge in Hge. rewrite Hge. reflexivity.
Qed.

(** The copy in package [dcl] orders the strategies the same way around
    its own threshold. *)
Lemma dcl_BufferSizePolicy_order (params : PolicyParameters) :
  (BufferSize params < 65536 -> dcl_BufferSizePolicy params = [ISAL; IAA; QAT])
  /\ (65536 <= BufferSize params -> dcl_BufferSizePolicy params = [QAT; IAA; ISAL]).
Proof.
  unfold dcl_BufferSizePolicy. split.
  - intros Hlt. apply Z.ltb_lt in Hlt. rewrite Hlt. reflexivity.
  - intros Hge. apply Z.ltb_ge in Hge. rewrite Hge. reflexivity.
Qed.

Lemma BufferSizePolicy_cases (params : PolicyParameters) :
  BufferSizePolicy params = [ISAL; IAA; QAT]
  \/ BufferSizePolicy params = [QAT; IAA; ISAL].
Proof. unfold BufferSizePolicy. destruct (BufferSize params <? 1500); auto. Qed.

(** The capability tables the handlers carry after [initManager]. *)
Definition tables_installed (m : Manager) : Prop :=
  QatHandler_algs (Manager_qat m) = QAT_ALGORITHMS
  /\ ISALHandler_algs (Manager_isal m) = ISAL_ALGORITHMS
  /\ IAAHandler_algs (Manager_iaa m) = IAA_ALGORITHMS
  /\ DefaultHandler_algs (Manager_fallback m) = DEFAULT_ALGORITHMS.

Definition hardware_supports (a : Algorithm) : bool :=
  contains ISAL_ALGORITHMS a || contains IAA_ALGORITHMS a || contains QAT_ALGORITHMS a.

Section DefaultPolicy.
Context {W : Type} (E : Engine W).

(** A hardware handler asked for an algorithm that is not in its table
    answers with a skip-class error before it touches its maps or its lock;
    the tables stay as they are. *)
Lemma hardware_Request_unsupported s job (st : State W) :
  tables_installed (instance st) ->
  hardware_supports (JobParams_a (Job_params job)) = false ->
  s = QAT \/ s = ISAL \/ s = IAA ->
  exists n err st1,
    Handler_Request E (getHandler s) job st = Returns ((n, err), st1)
    /\ is_skip err = true
    /\ tables_installed (instance st1).
Proof.
  intros (Hq & Hs & Hi & Hd) Hun Hcase.
  unfold hardware_supports in Hun.
  apply orb_false_iff in Hun as [Hun Hunq]. apply orb_false_iff in Hun as [Huns Huni].
  unfold Handler_Request, bind, modify, on_handler, zoom.
  destruct Hcase as [->|[->| ->]]; cbn [getHandler Z.eqb QAT ISAL IAA Pos.eqb].
  - unfold QatHandler_Request, bind, getH, gets, ret. cbn.
    rewrite Hq, Hunq. cbn. eexists _, _, _. split; [reflexivity|].
    split; [reflexivity|]. repeat split; assumption.
  - unfold ISALHandler_Request, bind, getH, gets, ret, ext. cbn.
    destruct (Ready E lib_isal (world st)) as [[|] w']; cbn.
    + rewrite Hs, Huns. cbn. eexists _, _, _. split; [reflexivity|].
      split; [reflexivity|]. repeat split; assumption.
    + eexists _, _, _. split; [reflexivity|].
      split; [reflexivity|]. repeat split; assumption.
  - unfold IAAHandler_Request, bind, getH, gets, ret, ext. cbn.
    destruct (Ready E lib_ixl (world st)) as [[|] w']; cbn.
    + rewrite Hi, Huni. cbn. eexists _, _, _. split; [reflexivity|].
      split; [reflexivity|]. repeat split; assumption.
    + eexists _, _, _. split; [reflexivity|].
      split; [reflexivity|]. repeat split; assumption.
Qed.

Lemma hardware_skip_all l job (st : State W) :
  tables_installed (instance st) ->
  hardware_supports (JobParams_a (Job_params job)) = false ->
  Forall (fun s => s = QAT \/ s = ISAL \/ s = IAA) l ->
  exists st1, skip_all E job l st = Some st1.
Proof.
  intros Ht Hun Hl. revert st Ht.
  induction Hl as [|s l Hs Hl IH]; intros st Ht; cbn [skip_all].
  - eauto.
  - destruct (hardware_Request_unsupported s job st Ht Hun Hs)
      as (n & err & st1 & Hreq & Hskip & Ht1).
    assert (Hv : IsValid s = true) by (destruct Hs as [->|[->| ->]]; reflexivity).
    rewrite Hv, Hreq, Hskip. apply IH. exact Ht1.
Qed.

Lemma hardware_skip_all_fallback l job (s0 s1 : State W) :
  Forall (fun s => s = QAT \/ s = ISAL \/ s = IAA) l ->
  skip_all E job l s0 = Some s1 ->
  Manager_fallback (instance s1) = Manager_fallback (instance s0).
Proof.
  intros Hl. revert s0.
  induction Hl as [|s l' Hs Hl' IH]; intros s0 H; cbn [skip_all] in H.
  - congruence.
  - destruct (IsValid s); [|discriminate].
    destruct (Handler_Request E (getHandler s) job s0) as [[[n err] s2]| |] eqn:HR;
      try discriminate.
    destruct (is_skip err); [|discriminate].
    rewrite (IH _ H). clear IH H.
    unfold Handler_Request, bind, modify, on_handler, zoom in HR.
    destruct Hs as [->|[->| ->]]; cbn [getHandler Z.eqb QAT ISAL IAA Pos.eqb] in HR;
      cbn in HR; repeat case_match; simplify_eq; reflexivity.
Qed.

(** C10.  The default policy never lists the software DEFAULT strategy.
    Hence a new operation submitted through [SubmitJob] under the default
    policy, for an algorithm that none of the ISA-L, IAA and QAT tables
    holds, returns [errNoWorkingStrategies] with zero bytes; the calls it
    makes are the policy evaluation and one [Request] on each hardware
    handler in the policy's order, none on the fallback handler.  LZ4 is
    such an algorithm, although the fallback's table holds it. *)
Theorem SubmitJob_default_policy_no_fallback p jp (st : State W) :
  continuation (instance st) jp = None ->
  Manager_GlobalPolicy (instance st) = BufferSizePolicy ->
  tables_installed (instance st) ->
  hardware_supports (JobParams_a jp) = false ->
  (forall params, ~ In DEFAULT (BufferSizePolicy params))
  /\ (exists st',
        SubmitJob E p jp st
          = Returns ((0, fresh_id st, Some errNoWorkingStrategies), st')
        /\ calls st'
           = calls st ++ call_policy
               :: Request_calls (fresh_job st p jp)
                    (BufferSizePolicy (policy_params st p jp))
        /\ (forall c, In c (calls st') -> ~ In c (calls st) ->
            forall id, c <> call_Request H_fallback id
                       /\ c <> call_Release H_fallback id)
        /\ Manager_fallback (instance st') = Manager_fallback (instance st)
        /\ Manager_jobs (instance st') = Manager_jobs (instance st))
  /\ (hardware_supports LZ4 = false /\ contains DEFAULT_ALGORITHMS LZ4 = true).
Proof.
  intros Hnew Hpol Ht Hun.
  split.
  { intros params. destruct (BufferSizePolicy_cases params) as [-> | ->];
      cbn; intros [H|[H|[H|[]]]]; discriminate H. }
  split; [|split; reflexivity].
  set (job := fresh_job st p jp).
  set (l := BufferSizePolicy (policy_params st p jp)).
  assert (Hl : Forall (fun s => s = QAT \/ s = ISAL \/ s = IAA) l).
  { subst l. destruct (BufferSizePolicy_cases (policy_params st p jp)) as [-> | ->];
      repeat (apply List.Forall_cons; [auto|]); apply List.Forall_nil. }
  destruct (hardware_skip_all l job (started st) Ht Hun Hl) as [st1 Hskip].
  exists st1.
  assert (Hrun : SubmitWithPolicy E p jp BufferSizePolicy st
                 = Returns ((0, fresh_id st, Some errNoWorkingStrategies), st1)).
  { rewrite (SubmitWithPolicy_new _ _ _ _ _ Hnew).
    exact (skip_all_exhausted _ _ _ _ _ Hskip). }
  assert (Hjobs : Manager_jobs (instance st1) = Manager_jobs (instance st)).
  { apply skip_all_frame in Hskip as (Hj & _). exact Hj. }
  assert (Hcalls : calls st1 = calls st ++ call_policy :: Request_calls job l).
  { apply skip_all_frame in Hskip as (_ & _ & _ & Hc). rewrite Hc. cbn.
    rewrite <- app_assoc. reflexivity. }
  split.
  { unfold SubmitJob, bind, gets. rewrite Hpol. exact Hrun. }
  split; [exact Hcalls|]. split; [|split; [|exact Hjobs]].
  - intros c Hin Hnot id. rewrite Hcalls in Hin.
    apply in_app_or in Hin as [Hin|Hin]; [contradiction|].
    destruct Hin as [<-|Hin]; [split; discriminate|].
    unfold Request_calls in Hin. apply in_map_iff in Hin as (s & <- & Hs).
    assert (Hs' := proj1 (Forall_forall _ _) Hl s (proj2 (list_elem_of_In _ _) Hs)).
    destruct Hs' as [->|[->| ->]]; split; discriminate.
  - exact (hardware_skip_all_fallback _ _ _ _ Hl Hskip).
Qed.

End DefaultPolicy.

(** ** JobID allocation *)

Inductive IdOp : Type :=
| op_createJob
| op_freeJobID (id : JobID).

Fixpoint creates (ops : list IdOp) : nat :=
  match ops with
  | [] => 0
  | op_createJob :: ops' => S (creates ops')
  | op_freeJobID _ :: ops' => creates ops'
  end.

Fixpoint only_creates (ops : list IdOp) : list IdOp :=
  match ops with
  | [] => []
  | op_createJob :: ops' => op_createJob :: only_creates ops'
  | op_freeJobID _ :: ops' => only_creates ops'
  end.

Fixpoint freed (ops : list IdOp) : list JobID :=
  match ops with
  | [] => []
  | op_createJob :: ops' => freed ops'
  | op_freeJobID id :: ops' => id :: freed ops'
  end.

Section JobIDs.
Context {W : Type}.

(** Any interleaving of [createJob] and [freeJobID] calls; the result is the
    list of ids that the [createJob] calls returned, oldest first. *)
Fixpoint run_ids (ops : list IdOp) (st : State W) : list JobID * State W :=
  match ops with
  | [] => ([], st)
  | op_createJob :: ops' =>
      match createJob st with
      | Returns (job, st1) =>
          let '(ids, st2) := run_ids ops' st1 in (Job_id job :: ids, st2)
      | _ => ([], st)
      end
  | op_freeJobID id :: ops' =>
      match freeJobID id st with
      | Returns (_, st1) => run_ids ops' st1
      | _ => ([], st)
      end
  end.

(** Every registered job sits under its own id, is bound to a handler, and
    was minted by the counter; so was every id on the free list. *)
Definition ids_minted (st : State W) : Prop :=
  (forall id job, Manager_jobs (instance st) !! id = Some job ->
     Job_id job = id /\ is_Some (Job_h job) /\ id <= nextID st)
  /\ Forall (fun id => id <= nextID st) (freeIDs st).

Lemma wrap64_small z : - 2 ^ 63 <= z <= MaxInt64 -> wrap64 z = z.
Proof.
  unfold wrap64, MaxInt64. intros H.
  rewrite Z.mod_small by lia. lia.
Qed.

Lemma run_ids_spec ops (st : State W) :
  - 2 ^ 63 <= nextID st ->
  nextID st + Z.of_nat (creates ops) <= MaxInt64 ->
  fst (run_ids ops st)
    = map (fun k => nextID st + Z.of_nat k) (seq 1 (creates ops))
  /\ nextID (snd (run_ids ops st)) = nextID st + Z.of_nat (creates ops)
  /\ freeIDs (snd (run_ids ops st)) = freeIDs st ++ freed ops
  /\ instance (snd (run_ids ops st)) = instance st.
Proof.
  revert st. induction ops as [|[|id] ops IH]; intros st Hlo Hhi.
  - cbn. rewrite Z.add_0_r, app_nil_r. auto.
  - cbn [run_ids]. rewrite createJob_eq.
    set (st1 := mkState (instance st) (fresh_id st) 1 (freeIDs st) (world st) (calls st)).
    assert (Hc : creates (op_createJob :: ops) = S (creates ops)) by reflexivity.
    rewrite Hc in *.
    assert (Hf : fresh_id st = nextID st + 1).
    { unfold fresh_id. apply wrap64_small. lia. }
    destruct (IH st1) as (H1 & H2 & H3 & H4); cbn [nextID st1]; try lia.
    destruct (run_ids ops st1) as [ids st2]. cbn [fst snd] in *.
    cbn [new_Job Job_id]. rewrite H1, H2, H3, H4. cbn [nextID freeIDs instance st1 seq map].
    rewrite Hf. repeat split; try lia.
    rewrite <- (seq_shift (creates ops) 1), map_map.
    apply (f_equal2 cons); [lia|]. apply map_ext. intros k. lia.
  - cbn [run_ids freeJobID modify]. 
    set (st1 := mkState (instance st) (nextID st) (uniqueID st) (freeIDs st ++ [id])
                        (world st) (calls st)).
    assert (Hc : creates (op_freeJobID id :: ops) = creates ops) by reflexivity.
    rewrite Hc in *.
    destruct (IH st1) as (H1 & H2 & H3 & H4); cbn [nextID st1]; try lia.
    change (freeJobID id st) with (Returns (tt, st1)).
    cbn [freed]. rewrite H1, H2, H3, H4. cbn [nextID freeIDs instance st1].
    rewrite <- app_assoc. auto.
Qed.

Lemma only_creates_creates ops : creates (only_creates ops) = creates ops.
Proof.
  induction ops as [|[|id] ops IH]; cbn in *; auto.
Qed.

(** C8.  As long as the [int64] counter has not run out, the ids that
    [createJob] returns are [nextID+1], [nextID+2], ... whatever
    [freeJobID] calls come in between: each is greater than all earlier
    ones, the free list only grows by the freed ids and is never read, and
    the sequence is the one obtained with the [freeJobID] calls left out.
    A new id is therefore on no free list and is the id of no registered
    job, in every state in which the registered and the freed ids are minted
    ones ([ids_minted], an invariant of the Manager: [init_ids_minted],
    [SubmitWithPolicy_ids_minted]). *)
Theorem createJob_strictly_increasing ops (st : State W) :
  - 2 ^ 63 <= nextID st ->
  nextID st + Z.of_nat (creates ops) <= MaxInt64 ->
  fst (run_ids ops st) = map (fun k => nextID st + Z.of_nat k) (seq 1 (creates ops))
  /\ (forall i j a b, (i < j)%nat ->
        fst (run_ids ops st) !! i = Some a -> fst (run_ids ops st) !! j = Some b ->
        a < b)
  /\ fst (run_ids ops st) = fst (run_ids (only_creates ops) st)
  /\ freeIDs (snd (run_ids ops st)) = freeIDs st ++ freed ops
  /\ (ids_minted st ->
      forall id, In id (fst (run_ids ops st)) ->
        ~ In id (freeIDs st) /\ Manager_jobs (instance st) !! id = None).
Proof.
  intros Hlo Hhi.
  destruct (run_ids_spec ops st Hlo Hhi) as (Hids & _ & Hfree & _).
  split; [exact Hids|]. split; [|split; [|split; [exact Hfree|]]].
  - rewrite Hids. intros i j a b Hij Ha Hb.
    rewrite list_lookup_fmap in Ha, Hb.
    destruct (seq 1 (creates ops) !! i) as [x|] eqn:Hx; [|discriminate].
    destruct (seq 1 (creates ops) !! j) as [y|] eqn:Hy; [|discriminate].
    apply lookup_seq in Hx as [-> _]. apply lookup_seq in Hy as [-> _].
    cbn in Ha, Hb. inversion Ha; inversion Hb; subst. lia.
  - rewrite Hids.
    destruct (run_ids_spec (only_creates ops) st Hlo) as (Hids' & _).
    { rewrite only_creates_creates. exact Hhi. }
    rewrite Hids', only_creates_creates. reflexivity.
  - intros (Hreg & Hfl) id Hin. rewrite Hids in Hin.
    apply in_map_iff in Hin as (k & <- & Hk). apply in_seq in Hk.
    split.
    + intros Hin. rewrite Forall_forall in Hfl.
      apply list_elem_of_In in Hin. apply Hfl in Hin. lia.
    + destruct (Manager_jobs (instance st) !! (nextID st + Z.of_nat k)) as [job|] eqn:Hj;
        [|exact Hj].
      apply Hreg in Hj as (_ & _ & Hle). lia.
Qed.

End JobIDs.

(** ** The handlers' binding maps *)

(** Each QAT binding is stored under the id of the job it was made for. *)
Definition QatHandler_keyed (h : QatHandler) : Prop :=
  forall k qat, QatHandler_jobs h !! k = Some qat -> QATJob_job qat = k.

Definition within_cap {A} (m : gmap JobID A) (cap : Z) : Prop :=
  Z.of_nat (size m) <= cap.

(** Take a returned run of a monadic computation apart, branch by branch. *)
Ltac run_cases H :=
  unfold deferring, ext_Close, deref, getH, modifyH in H;
  unfold ext, bind, ret, gets, modify, panic, block in H;
  cbn beta iota delta [fst snd] in H;
  repeat (case_match; simplify_eq; cbn beta iota delta [fst snd] in * );
  simplify_eq.

Section Bindings.
Context {W : Type} (E : Engine W).

Lemma findJob_keyed h id :
  QatHandler_keyed h ->
  findJob h id
  = match QatHandler_jobs h !! id with
    | Some qat => (Some qat, None)
    | None => (None, Some ErrJobNotFound)
    end.
Proof.
  intros Hk. unfold findJob.
  destruct (List.find _ _) as [[k qat]|] eqn:Hf.
  - apply find_some in Hf as [Hin Heq]. cbn in Heq. apply Z.eqb_eq in Heq.
    apply list_elem_of_In, elem_of_map_to_list in Hin.
    rewrite <- Heq, (Hk _ _ Hin), Hin. reflexivity.
  - destruct (QatHandler_jobs h !! id) as [qat|] eqn:Hl; [|reflexivity].
    exfalso.
    assert (Hin : In (id, qat) (map_to_list (QatHandler_jobs h))).
    { apply list_elem_of_In, elem_of_map_to_list. exact Hl. }
    apply (find_none _ _ Hf) in Hin. cbn in Hin.
    rewrite (Hk _ _ Hl), Z.eqb_refl in Hin. discriminate.
Qed.

Lemma newQatJob_returns job mode h w r h' w' :
  newQatJob E job mode (h, w) = Returns (r, (h', w')) ->
  (Z.of_nat (size (QatHandler_jobs h)) >= MAX_QAT_BINDINGS
   /\ r = (None, Some ErrNotAvailable) /\ h' = h /\ w' = w)
  \/ (Z.of_nat (size (QatHandler_jobs h)) < MAX_QAT_BINDINGS
      /\ ((exists e, r = (None, Some e) /\ h' = h)
          \/ (exists qat, r = (Some qat, None) /\ QATJob_job qat = Job_id job
                /\ h' = QatHandler_set_jobs <[Job_id job := qat]> h))).
Proof.
  unfold newQatJob. intros H. run_cases H;
    match goal with
    | Hc : (_ >=? _) = true |- _ =>
        left; apply Z.geb_le in Hc; split; [lia | auto]
    | Hc : (_ >=? _) = false |- _ =>
        right; rewrite Z.geb_leb in Hc; apply Z.leb_gt in Hc;
        split; [lia | eauto 10]
    end.
Qed.

Lemma findJob_total h id :
  (exists qat, findJob h id = (Some qat, None))
  \/ findJob h id = (None, Some ErrJobNotFound).
Proof.
  unfold findJob. destruct (List.find _ _) as [[k qat]|]; eauto.
Qed.

(** What a returned [QatHandler.Request] has done to the map: nothing, or
    one new binding for the job, made while the pool was below the cap. *)
Lemma QatHandler_Request_returns job h w r h' w' :
  QatHandler_Request E job (h, w) = Returns (r, (h', w')) ->
  QatHandler_algs h' = QatHandler_algs h
  /\ (QatHandler_jobs h' = QatHandler_jobs h
      \/ exists qat,
           QATJob_job qat = Job_id job
           /\ QatHandler_jobs h' = <[Job_id job := qat]> (QatHandler_jobs h)
           /\ QatHandler_jobs h !! Job_id job = None
           /\ Z.of_nat (size (QatHandler_jobs h)) < MAX_QAT_BINDINGS).
Proof.
  unfold QatHandler_Request, QatHandler_bind, newQatJob. intros H.
  run_cases H; (split; [reflexivity|]); try (left; reflexivity);
    right; eexists;
    (split; [|split; [reflexivity|split; [first [eassumption|reflexivity]|]]]);
    try reflexivity;
    match goal with
    | Hc : (_ >=? _) = false |- _ =>
        rewrite Z.geb_leb in Hc; apply Z.leb_gt in Hc; exact Hc
    end.
Qed.

Lemma QatHandler_Release_returns id h w :
  exists r h' w',
    QatHandler_Release E id (h, w) = Returns (r, (h', w'))
    /\ QatHandler_algs h' = QatHandler_algs h
    /\ (QatHandler_jobs h' = QatHandler_jobs h
        \/ QatHandler_jobs h' = delete id (QatHandler_jobs h)).
Proof.
  unfold QatHandler_Release.
  unfold bind at 1. unfold getH, gets. cbn beta iota delta [fst].
  destruct (findJob_total h id) as [[qat ->]| ->].
  - unfold deref, bind, ret, ext, modifyH, modify.
    destruct (QATJob_mode qat =? DIRECT).
    + destruct (QATJob_w qat) as [o|], (QATJob_r qat) as [o'|];
        try destruct (Close E _ w) as [[e|] w1]; cbn; eauto 10.
    + destruct (Close E (QATJob_b qat) w) as [[e|] w1]; cbn; eauto 10.
  - unfold ret. eauto 10.
Qed.

(** [IAAHandler.Request], when it returns: the write map is untouched or
    has one new binding, made below the cap for a compress job; a compress
    request that returns without error has released the lock; a request for
    a job that is not a compress job leaves the write map alone. *)
Lemma IAAHandler_Request_returns job h w n err h' w' :
  IAAHandler_Request E job (h, w) = Returns ((n, err), (h', w')) ->
  IAAHandler_algs h' = IAAHandler_algs h
  /\ (IAAHandler_jobs h' = IAAHandler_jobs h
      \/ (exists nw,
            IAAHandler_jobs h' = <[Job_id job := nw]> (IAAHandler_jobs h)
            /\ Z.of_nat (size (IAAHandler_jobs h)) < MAX_IAA_BINDINGS
            /\ JobParams_JobType (Job_params job) = COMPRESS
            /\ IAAHandler_jobsLock h' = false))
  /\ (JobParams_JobType (Job_params job) = COMPRESS -> err = None ->
      IAAHandler_jobsLock h' = false).
Proof.
  unfold IAAHandler_Request, IAAHandler_Lock, IAAHandler_Unlock. intros H.
  run_cases H;
    repeat match goal with
    | Hc : (_ >=? _) = false |- _ =>
        rewrite Z.geb_leb in Hc; apply Z.leb_gt in Hc
    | Hc : (_ =? _) = true |- _ => apply Z.eqb_eq in Hc
    | Hc : (_ =? _) = false |- _ => apply Z.eqb_neq in Hc
    end;
    cbn in *; (split; [reflexivity|]); (split; [|try congruence; try reflexivity]);
    try (left; reflexivity);
    try (right; eexists; repeat split; [lia | congruence]).
Qed.

(** [IAAHandler.Release] returns unless it has to take a lock that is
    still held: that is, unless the id has a write binding while the lock
    is held. *)
Lemma IAAHandler_Release_returns id h w :
  IAAHandler_jobs h !! id = None \/ IAAHandler_jobsLock h = false ->
  exists r h' w',
    IAAHandler_Release E id (h, w) = Returns (r, (h', w'))
    /\ IAAHandler_algs h' = IAAHandler_algs h
    /\ (IAAHandler_jobs h' = IAAHandler_jobs h
        \/ IAAHandler_jobs h' = delete id (IAAHandler_jobs h)).
Proof.
  intros Hfree. unfold IAAHandler_Release, IAAHandler_Lock, IAAHandler_Unlock.
  unfold deferring, getH, modifyH, ext, bind, ret, gets, modify, panic, block.
  cbn beta iota delta [fst snd].
  destruct (IAAHandler_jobs h !! id) as [o|] eqn:Hl.
  - destruct Hfree as [Hn|Hlock]; [discriminate|].
    destruct (Close E (Some o) w) as [err w1]. cbn beta iota delta [fst snd].
    rewrite Hlock. cbn. eauto 10.
  - eauto 10.
Qed.

Lemma IAAHandler_Release_blocks id h w o :
  IAAHandler_jobs h !! id = Some o -> IAAHandler_jobsLock h = true ->
  IAAHandler_Release E id (h, w) = Blocks.
Proof.
  intros Hl Hlock. unfold IAAHandler_Release, IAAHandler_Lock.
  unfold deferring, getH, modifyH, ext, bind, ret, gets, modify, panic, block.
  cbn beta iota delta [fst snd]. rewrite Hl.
  destruct (Close E (Some o) w) as [err w1]. cbn beta iota delta [fst snd].
  rewrite Hlock. reflexivity.
Qed.

Lemma ISALHandler_Release_returns id h w :
  exists r h' w',
    ISALHandler_Release E id (h, w) = Returns (r, (h', w'))
    /\ ISALHandler_algs h' = ISALHandler_algs h.
Proof.
  unfold ISALHandler_Release.
  unfold getH, modifyH, ext, bind, ret, gets, modify.
  cbn beta iota delta [fst snd].
  destruct (ISALHandler_jobs h !! id) as [o|], (ISALHandler_readjobs h !! id) as [o'|];
    repeat (match goal with
            | |- context [Close E ?x ?w] => destruct (Close E x w) as [? ?]
            end; cbn);
    eauto 10.
Qed.

Lemma size_insert_le {A} (m : gmap JobID A) k v cap :
  Z.of_nat (size m) < cap -> within_cap (<[k := v]> m) cap.
Proof.
  unfold within_cap. rewrite map_size_insert.
  destruct (m !! k); unfold id; lia.
Qed.

Lemma size_delete_le {A} (m : gmap JobID A) k cap :
  within_cap m cap -> within_cap (delete k m) cap.
Proof.
  unfold within_cap. rewrite map_size_delete.
  destruct (m !! k); unfold id; lia.
Qed.

(** C5, amended.  [Release] on an id that the handler has not bound
    answers with a not-found error and changes nothing, for the three
    handlers that keep bindings: [ErrJobNotFound] from the QAT handler, a
    "could not find the job" error from the IAA handler (which looks in its
    write map only) and from the ISA-L handler.  The software fallback
    keeps no bindings and its [Release] returns nil for every id. *)
Theorem Release_unbound (id : JobID) (w : W) :
  (forall h, QatHandler_keyed h -> QatHandler_jobs h !! id = None ->
     QatHandler_Release E id (h, w) = Returns (Some ErrJobNotFound, (h, w)))
  /\ (forall h, IAAHandler_jobs h !! id = None ->
        IAAHandler_Release E id (h, w)
        = Returns (Some (errors_New "could not find the job"), (h, w)))
  /\ (forall h, ISALHandler_jobs h !! id = None ->
        ISALHandler_readjobs h !! id = None ->
        ISALHandler_Release E id (h, w)
        = Returns (Some (errors_New "could not find the job"), (h, w)))
  /\ (forall h, DefaultHandler_Release id (h, w) = Returns (None, (h, w))).
Proof.
  split; [|split; [|split]].
  - intros h Hk Hl. unfold QatHandler_Release.
    unfold bind at 1. unfold getH, gets. cbn beta iota delta [fst].
    rewrite (findJob_keyed _ _ Hk), Hl. reflexivity.
  - intros h Hl. unfold IAAHandler_Release.
    unfold bind at 1. unfold getH, gets. cbn beta iota delta [fst].
    rewrite Hl. reflexivity.
  - intros h Hl Hr. unfold ISALHandler_Release.
    unfold bind at 1. unfold getH, gets. cbn beta iota delta [fst].
    rewrite Hl, Hr. reflexivity.
  - intros h. reflexivity.
Qed.

(** The QAT bindings stay keyed by the id of their job. *)
Lemma QatHandler_Request_keyed job h w r h' w' :
  QatHandler_keyed h ->
  QatHandler_Request E job (h, w) = Returns (r, (h', w')) ->
  QatHandler_keyed h'.
Proof.
  intros Hk H. apply QatHandler_Request_returns in H
    as (_ & [Hj|(qat & Hq & Hj & _)]); intros k q; rewrite Hj.
  - apply Hk.
  - destruct (decide (Job_id job = k)) as [<-|Hne].
    + rewrite lookup_insert_eq. intros [= <-]. exact Hq.
    + rewrite lookup_insert_ne by assumption. apply Hk.
Qed.

Lemma QatHandler_Release_keyed id h w r h' w' :
  QatHandler_keyed h ->
  QatHandler_Release E id (h, w) = Returns (r, (h', w')) ->
  QatHandler_keyed h'.
Proof.
  intros Hk H.
  destruct (QatHandler_Release_returns id h w) as (r0 & h0 & w0 & H0 & _ & Hj).
  rewrite H0 in H. inversion H; subst. intros k q.
  destruct Hj as [-> | ->]; [apply Hk|].
  destruct (decide (id = k)) as [<-|Hne].
  - rewrite lookup_delete_eq. discriminate.
  - rewrite lookup_delete_ne by assumption. apply Hk.
Qed.

(** The pools, handler by handler.  The write-binding maps [jobs] of the
    QAT and IAA handlers start empty and no returning [Request],
    [newQatJob] or [Release] takes them above the cap.  At the cap the pool
    check answers [ErrNotAvailable], with the handler as it was and no call
    into the codec library. *)
Lemma handler_pools_capped (job : Job) (id : JobID) (w : W) :
  (within_cap (QatHandler_jobs NewQATHandler) MAX_QAT_BINDINGS
   /\ within_cap (IAAHandler_jobs NewIAAHandler) MAX_IAA_BINDINGS)
  /\ (forall h, within_cap (QatHandler_jobs h) MAX_QAT_BINDINGS ->
      (forall r h' w', QatHandler_Request E job (h, w) = Returns (r, (h', w')) ->
         within_cap (QatHandler_jobs h') MAX_QAT_BINDINGS)
      /\ (forall mode r h' w', newQatJob E job mode (h, w) = Returns (r, (h', w')) ->
         within_cap (QatHandler_jobs h') MAX_QAT_BINDINGS)
      /\ (forall r h' w', QatHandler_Release E id (h, w) = Returns (r, (h', w')) ->
         within_cap (QatHandler_jobs h') MAX_QAT_BINDINGS))
  /\ (forall h, within_cap (IAAHandler_jobs h) MAX_IAA_BINDINGS ->
      (forall r h' w', IAAHandler_Request E job (h, w) = Returns (r, (h', w')) ->
         within_cap (IAAHandler_jobs h') MAX_IAA_BINDINGS)
      /\ (forall r h' w', IAAHandler_Release E id (h, w) = Returns (r, (h', w')) ->
         within_cap (IAAHandler_jobs h') MAX_IAA_BINDINGS))
  /\ (forall h, Z.of_nat (size (IAAHandler_jobs h)) >= MAX_IAA_BINDINGS ->
      fst (Ready E lib_ixl w) = true ->
      contains (IAAHandler_algs h) (JobParams_a (Job_params job)) = true ->
      IAAHandler_jobsLock h = false ->
      IAAHandler_Request E job (h, w)
      = Returns ((0, Some ErrNotAvailable), (h, snd (Ready E lib_ixl w))))
  /\ (forall h mode, Z.of_nat (size (QatHandler_jobs h)) >= MAX_QAT_BINDINGS ->
      newQatJob E job mode (h, w) = Returns ((None, Some ErrNotAvailable), (h, w))).
Proof.
  split.
  { split; unfold within_cap, MAX_QAT_BINDINGS, MAX_IAA_BINDINGS; cbn;
      rewrite map_size_empty; lia. }
  split; [|split; [|split]].
  - intros h Hcap. split; [|split].
    + intros r h' w' H. apply QatHandler_Request_returns in H
        as (_ & [-> |(qat & _ & -> & _ & Hlt)]); [exact Hcap|].
      apply size_insert_le. exact Hlt.
    + intros mode r h' w' H. apply newQatJob_returns in H
        as [(_ & _ & -> & _)|(Hlt & [(e & _ & ->)|(qat & _ & _ & ->)])];
        try exact Hcap.
      cbn. apply size_insert_le. exact Hlt.
    + intros r h' w' H.
      destruct (QatHandler_Release_returns id h w) as (r0 & h0 & w0 & H0 & _ & Hj).
      rewrite H0 in H. inversion H; subst.
      destruct Hj as [-> | ->]; [exact Hcap|]. apply size_delete_le. exact Hcap.
  - intros h Hcap. split.
    + intros [n err] h' w' H. apply IAAHandler_Request_returns in H
        as (_ & [-> |(nw & -> & Hlt & _)] & _); [exact Hcap|].
      apply size_insert_le. exact Hlt.
    + intros r h' w' H.
      unfold IAAHandler_Release, IAAHandler_Lock, IAAHandler_Unlock in H.
      run_cases H; cbn; try exact Hcap; apply size_delete_le; exact Hcap.
  - intros h Hfull Hready Hsup Hlock.
    assert (Hge : (Z.of_nat (size (IAAHandler_jobs h)) >=? MAX_IAA_BINDINGS) = true).
    { apply Z.geb_le. lia. }
    destruct (Ready E lib_ixl w) as [ready w1] eqn:HR. cbn [fst snd] in *. subst ready.
    destruct (IAAHandler_Request E job (h, w)) as [[[n err] [h' w']]| |] eqn:H;
      unfold IAAHandler_Request, IAAHandler_Lock, IAAHandler_Unlock in H;
      run_cases H; cbn in *; try congruence;
      try (rewrite Hsup in *; discriminate).
    match goal with
    | |- context [IAAHandler_set_jobsLock true ?x] => destruct x
    end.
    cbn in *; subst. reflexivity.
  - intros h mode Hfull. unfold newQatJob.
    unfold getH, bind, ret, gets. cbn beta iota delta [fst snd].
    assert (Hge : (Z.of_nat (size (QatHandler_jobs h)) >=? MAX_QAT_BINDINGS) = true).
    { apply Z.geb_le. lia. }
    rewrite Hge. reflexivity.
Qed.

End Bindings.

(** ** The job life cycle in the Manager *)

Section LifeCycle.
Context {W : Type} (E : Engine W).

(** [Release] through the interface returns, except on the IAA handler
    when the id has a write binding and the handler's lock is held. *)
Lemma Handler_Release_returns h id (st : State W) :
  (h = H_iaa ->
   IAAHandler_jobs (Manager_iaa (instance st)) !! id = None
   \/ IAAHandler_jobsLock (Manager_iaa (instance st)) = false) ->
  exists r st', Handler_Release E h id st = Returns (r, st').
Proof.
  intros Hiaa. unfold Handler_Release, bind, modify, on_handler, zoom.
  destruct h; cbn beta iota delta [fst snd log instance world].
  - destruct (QatHandler_Release_returns E id (Manager_qat (instance st)) (world st))
      as (r & h' & w' & -> & _). eauto.
  - destruct (ISALHandler_Release_returns E id (Manager_isal (instance st)) (world st))
      as (r & h' & w' & -> & _). eauto.
  - destruct (IAAHandler_Release_returns E id (Manager_iaa (instance st)) (world st)
                (Hiaa eq_refl)) as (r & h' & w' & -> & _). eauto.
  - cbn. eauto.
Qed.

(** A request for a job that is not a compress job leaves the IAA write
    map as it is, whichever handler it goes to. *)
Lemma Handler_Request_iaa_jobs h job (st st' : State W) r :
  Handler_Request E h job st = Returns (r, st') ->
  JobParams_JobType (Job_params job) <> COMPRESS ->
  IAAHandler_jobs (Manager_iaa (instance st'))
  = IAAHandler_jobs (Manager_iaa (instance st)).
Proof.
  intros H Hdir. unfold Handler_Request, bind, modify, on_handler, zoom in H.
  destruct h; cbn beta iota delta [fst snd log instance world] in H.
  - destruct (QatHandler_Request _ _ _) as [[? [? ?]]| |]; simplify_eq. reflexivity.
  - destruct (ISALHandler_Request _ _ _) as [[? [? ?]]| |]; simplify_eq. reflexivity.
  - destruct (IAAHandler_Request _ _ _) as [[[n err] [h' w']]| |] eqn:HR; simplify_eq.
    apply IAAHandler_Request_returns in HR as (_ & [Hj|(nw & _ & _ & Hc & _)] & _);
      [exact Hj | contradiction].
  - destruct (DefaultHandler_Request _ _ _) as [[? [? ?]]| |]; simplify_eq. reflexivity.
Qed.

Lemma skip_all_iaa_jobs job pre (st st1 : State W) :
  skip_all E job pre st = Some st1 ->
  JobParams_JobType (Job_params job) <> COMPRESS ->
  IAAHandler_jobs (Manager_iaa (instance st1))
  = IAAHandler_jobs (Manager_iaa (instance st)).
Proof.
  intros H Hdir. revert st H.
  induction pre as [|s pre IH]; intros st H; cbn [skip_all] in H.
  - congruence.
  - destruct (IsValid s); [|discriminate].
    destruct (Handler_Request E (getHandler s) job st) as [[[n err] st2]| |] eqn:HR;
      try discriminate.
    destruct (is_skip err); [|discriminate].
    rewrite (IH _ H). exact (Handler_Request_iaa_jobs _ _ _ _ _ HR Hdir).
Qed.

(** A compress request on the IAA handler that returns without error has
    given the lock back. *)
Lemma Handler_Request_iaa_unlocked job (st st' : State W) n :
  Handler_Request E H_iaa job st = Returns ((n, None), st') ->
  JobParams_JobType (Job_params job) = COMPRESS ->
  IAAHandler_jobsLock (Manager_iaa (instance st')) = false.
Proof.
  intros H Hdir. unfold Handler_Request, bind, modify, on_handler, zoom in H.
  cbn beta iota delta [fst snd log instance world] in H.
  destruct (IAAHandler_Request _ _ _) as [[[n' err] [h' w']]| |] eqn:HR; simplify_eq.
  apply IAAHandler_Request_returns in HR as (_ & _ & Hl). cbn. auto.
Qed.

(** [retire] once [Release] has returned. *)
Lemma retire_returns h id (st st' : State W) r :
  Handler_Release E h id st = Returns (r, st') ->
  retire E h id st = Returns (tt, retired id st').
Proof.
  intros H. unfold retire, bind. rewrite H. reflexivity.
Qed.

(** C2.  In a new operation, let [s] be the first candidate that is not
    skipped and let its [Request] return [(n, err)].  A compress job with
    [err = nil], and a decompress job with [err = io.EOF] (its first call),
    is registered, released on the handler of [s], taken out of the registry
    and its id put on the free list, all within the call, which returns
    [(n, id, err)].  A decompress job with [err = nil] is registered under
    its id, bound to that handler, and stays.  "Released" is the call of
    the handler's [Release], whose error the Manager drops.  The premise on
    the IAA write map in the decompress case says that the new id is not
    bound there yet, as is the case in every state the Manager reaches
    ([iaa_minted_fresh], [SubmitWithPolicy_iaa_minted]). *)
Theorem SubmitWithPolicy_completion p jp policy (st st1 st2 : State W)
    pre s rest n err :
  continuation (instance st) jp = None ->
  policy (policy_params st p jp) = pre ++ s :: rest ->
  skip_all E (fresh_job st p jp) pre (started st) = Some st1 ->
  IsValid s = true ->
  Handler_Request E (getHandler s) (fresh_job st p jp) st1
    = Returns ((n, err), st2) ->
  let id := fresh_id st in
  let bound := Job_set_h (Some (getHandler s)) (fresh_job st p jp) in
  ((JobParams_JobType jp = COMPRESS /\ err = None
    \/ JobParams_JobType jp = DECOMPRESS /\ err = Some io_EOF
       /\ IAAHandler_jobs (Manager_iaa (instance st)) !! id = None) ->
   exists r st3,
     Handler_Release E (getHandler s) id (register bound st2) = Returns (r, st3)
     /\ SubmitWithPolicy E p jp policy st = Returns ((n, id, err), retired id st3)
     /\ Manager_jobs (instance (retired id st3)) !! id = None
     /\ freeIDs (retired id st3) = freeIDs st ++ [id]
     /\ calls (retired id st3)
        = calls st ++ call_policy
            :: Request_calls (fresh_job st p jp) (pre ++ [s])
            ++ [call_Release (getHandler s) id])
  /\ (JobParams_JobType jp = DECOMPRESS -> err = None ->
      SubmitWithPolicy E p jp policy st
        = Returns ((n, id, None), register bound st2)
      /\ Manager_jobs (instance (register bound st2)) !! id = Some bound).
Proof.
  intros Hnew Hpol Hpre Hval Hreq id bound.
  rewrite (SubmitWithPolicy_new _ _ _ _ _ Hnew), Hpol.
  rewrite (skip_all_app _ _ _ _ _ _ Hpre).
  rewrite (tryStrategies_turn _ _ _ _ _ _ _ _ Hval Hreq).
  change (Job_id (fresh_job st p jp)) with (fresh_id st).
  subst id bound.
  set (bound := Job_set_h (Some (getHandler s)) (fresh_job st p jp)).
  set (id := fresh_id st).
  split.
  - intros Hdone.
    assert (Hc : completes bound err = true).
    { unfold completes. cbn [bound Job_set_h Job_params fresh_job].
      destruct Hdone as [[-> ->]|[-> [-> _]]]; reflexivity. }
    assert (Hs : is_skip err = false)
      by (destruct Hdone as [[_ ->]|[_ [-> _]]]; reflexivity).
    assert (Hok : bool_decide (err <> None) && bool_decide (err <> Some io_EOF) = false).
    { destruct Hdone as [[_ ->]|[_ [-> _]]]; reflexivity. }
    rewrite Hs, Hok, Hc.
    destruct (Handler_Release_returns (getHandler s) id (register bound st2))
      as (r & st3 & Hrel).
    { intros Hh. cbn [register set_instance instance Manager_set_jobs Manager_iaa].
      destruct Hdone as [[Hdir ->]|[Hdir [-> Hfresh]]].
      - right. rewrite Hh in Hreq.
        exact (Handler_Request_iaa_unlocked _ _ _ _ Hreq Hdir).
      - left.
        assert (Hd : JobParams_JobType (Job_params (fresh_job st p jp)) <> COMPRESS).
        { cbn. rewrite Hdir. discriminate. }
        rewrite (Handler_Request_iaa_jobs _ _ _ _ _ Hreq Hd).
        rewrite (skip_all_iaa_jobs _ _ _ _ Hpre Hd). exact Hfresh. }
    exists r, st3. split; [exact Hrel|].
    rewrite (retire_returns _ _ _ _ _ Hrel). split; [reflexivity|].
    apply Handler_Release_frame in Hrel as (Hj & _ & _ & _ & _ & Hf & Hcl).
    apply Handler_Request_frame in Hreq as (_ & _ & _ & _ & _ & Hf2 & Hcl2).
    apply skip_all_frame in Hpre as (_ & _ & Hf1 & Hcl1).
    cbn [retired instance Manager_set_jobs Manager_jobs freeIDs calls].
    split; [apply lookup_delete_eq|]. split.
    + rewrite Hf. cbn [register set_instance freeIDs]. rewrite Hf2, Hf1. reflexivity.
    + rewrite Hcl. cbn [register set_instance calls]. rewrite Hcl2, Hcl1.
      cbn [started calls]. unfold Request_calls. rewrite map_app. cbn [map].
      rewrite <- !app_assoc. reflexivity.
  - intros Hdir ->.
    assert (Hc : completes bound None = false).
    { unfold completes. cbn [bound Job_set_h Job_params fresh_job].
      rewrite Hdir. reflexivity. }
    cbn [is_skip]. rewrite Hc. cbn.
    split; [reflexivity|]. apply lookup_insert_eq.
Qed.

(** The state in which a continuation calls the handler: the registered
    Job holds the new buffer. *)
Definition resumed (p : list Byte.byte) (jp : JobParams) (cur : Job) (st : State W)
    : State W :=
  set_instance (Manager_set_jobs <[JobParams_id jp := Job_set_p p cur]>) st.

Lemma SubmitWithPolicy_resume p jp policy (st : State W) cur h :
  Manager_jobs (instance st) !! JobParams_id jp = Some cur ->
  JobParams_JobType jp = DECOMPRESS ->
  Job_h cur = Some h ->
  SubmitWithPolicy E p jp policy st
  = match Handler_Request E h (Job_set_p p cur) (resumed p jp cur st) with
    | Returns ((n, err), st1) =>
        match (if bool_decide (err = Some io_EOF)
               then retire E h (Job_id cur) else ret tt) st1 with
        | Returns (_, st2) => Returns ((n, Job_id cur, err), st2)
        | Panics why => Panics why
        | Blocks => Blocks
        end
    | Panics why => Panics why
    | Blocks => Blocks
    end.
Proof.
  intros Hreg Hdir Hh. unfold SubmitWithPolicy, continuation.
  unfold bind at 1. unfold gets. rewrite Hreg, Hdir. cbn [Z.eqb DECOMPRESS Pos.eqb].
  unfold bind at 1. unfold modify. cbn [Job_set_p Job_h]. rewrite Hh.
  unfold bind at 1. fold (resumed p jp cur st).
  destruct (Handler_Request E h (Job_set_p p cur) (resumed p jp cur st))
    as [[[n err] st1]| |]; reflexivity.
Qed.

(** C3.  A call whose [jp.id] is registered and whose direction is
    decompress is a continuation.  The registered Job gets the new buffer
    and its handler's [Request] is called again; the returned id is the
    Job's; the calls made are that [Request] and, on end-of-stream, the
    [Release] on the same handler: the policy is never evaluated (and the
    outcome does not depend on it).  Unless [Request] says [io.EOF] the Job
    stays registered with the new buffer.  On [io.EOF] the Job is released
    on its handler, removed from the registry and its id freed; [Release]
    returns save in the one situation named in [Handler_Release_returns],
    which does not arise for a decompress job without a stale IAA write
    binding (see [SubmitWithPolicy_decompress_unbound]). *)
Theorem SubmitWithPolicy_continuation p jp policy (st st1 : State W) cur h n err :
  Manager_jobs (instance st) !! JobParams_id jp = Some cur ->
  JobParams_JobType jp = DECOMPRESS ->
  Job_id cur = JobParams_id jp ->
  Job_h cur = Some h ->
  Handler_Request E h (Job_set_p p cur) (resumed p jp cur st)
    = Returns ((n, err), st1) ->
  let id := JobParams_id jp in
  (err <> Some io_EOF ->
     SubmitWithPolicy E p jp policy st = Returns ((n, id, err), st1)
     /\ Manager_jobs (instance st1) !! id = Some (Job_set_p p cur)
     /\ calls st1 = calls st ++ [call_Request h id]
     /\ nextID st1 = nextID st /\ freeIDs st1 = freeIDs st)
  /\ (err = Some io_EOF ->
      (forall r st2, Handler_Release E h id st1 = Returns (r, st2) ->
         SubmitWithPolicy E p jp policy st = Returns ((n, id, err), retired id st2)
         /\ Manager_jobs (instance (retired id st2)) !! id = None
         /\ freeIDs (retired id st2) = freeIDs st ++ [id]
         /\ calls (retired id st2)
            = calls st ++ [call_Request h id; call_Release h id]
         /\ nextID (retired id st2) = nextID st)
      /\ ((h = H_iaa ->
           IAAHandler_jobs (Manager_iaa (instance st1)) !! id = None
           \/ IAAHandler_jobsLock (Manager_iaa (instance st1)) = false) ->
          exists r st2, Handler_Release E h id st1 = Returns (r, st2))
      /\ (JobParams_JobType (Job_params cur) <> COMPRESS ->
          IAAHandler_jobs (Manager_iaa (instance st)) !! id = None ->
          exists r st2, Handler_Release E h id st1 = Returns (r, st2))).
Proof.
  intros Hreg Hdir Hid Hh Hreq id.
  rewrite (SubmitWithPolicy_resume _ _ _ _ _ _ Hreg Hdir Hh), Hreq, Hid.
  fold id.
  pose proof (Handler_Request_frame _ _ _ _ _ _ Hreq)
    as (Hj & _ & _ & Hn & _ & Hf & Hc).
  cbn [Job_id Job_set_p] in Hc. rewrite Hid in Hc. fold id in Hc.
  split.
  - intros Hne. rewrite bool_decide_eq_false_2 by assumption.
    split; [reflexivity|]. split; [|auto].
    rewrite Hj. cbn. apply lookup_insert_eq.
  - intros Heof. rewrite bool_decide_eq_true_2 by assumption.
    split; [|split].
    + intros r st2 Hrel. rewrite (retire_returns _ _ _ _ _ Hrel).
      split; [reflexivity|].
      apply Handler_Release_frame in Hrel as (_ & _ & _ & Hn2 & _ & Hf2 & Hc2).
      cbn [retired instance Manager_set_jobs Manager_jobs freeIDs calls nextID].
      split; [apply lookup_delete_eq|].
      rewrite Hf2, Hf, Hc2, Hc, Hn2, Hn, <- app_assoc. auto.
    + apply Handler_Release_returns.
    + intros Hdec Hunbound. apply Handler_Release_returns. intros _. left.
      rewrite (Handler_Request_iaa_jobs _ _ _ _ _ Hreq Hdec). exact Hunbound.
Qed.

Lemma retire_inv h id (st st' : State W) u :
  retire E h id st = Returns (u, st') ->
  exists r st1, Handler_Release E h id st = Returns (r, st1) /\ st' = retired id st1.
Proof.
  unfold retire, bind. intros H.
  destruct (Handler_Release E h id st) as [[r st1]| |]; try discriminate.
  cbn in H. inversion H. eauto.
Qed.

(** What a returned run of the loop has done to the registry, the counter
    and the free list: nothing (exhaustion, invalid strategy, hard error), or
    the job was registered and, when the completion test holds, retired. *)
Lemma tryStrategies_returns job l (st st' : State W) n id err :
  tryStrategies E job l st = Returns ((n, id, err), st') ->
  id = Job_id job /\ nextID st' = nextID st
  /\ ((Manager_jobs (instance st') = Manager_jobs (instance st)
       /\ freeIDs st' = freeIDs st /\ err <> None /\ err <> Some io_EOF)
      \/ exists h,
           (err = None \/ err = Some io_EOF)
           /\ if completes job err
              then Manager_jobs (instance st')
                   = delete id (<[id := Job_set_h (Some h) job]>
                                  (Manager_jobs (instance st)))
                   /\ freeIDs st' = freeIDs st ++ [id]
              else Manager_jobs (instance st')
                   = <[id := Job_set_h (Some h) job]> (Manager_jobs (instance st))
                   /\ freeIDs st' = freeIDs st).
Proof.
  revert st. induction l as [|s l IH]; intros st H.
  - cbn in H. inversion H; subst. split; [reflexivity|]. split; [reflexivity|].
    left. repeat split; discriminate.
  - destruct (IsValid s) eqn:Hval.
    2:{ cbn [tryStrategies] in H. rewrite Hval in H. cbn in H. inversion H; subst.
        split; [reflexivity|]. split; [reflexivity|]. left. repeat split; discriminate. }
    destruct (Handler_Request E (getHandler s) job st) as [[[n1 err1] st1]| |] eqn:Hreq.
    2,3: cbn [tryStrategies] in H; rewrite Hval in H; cbn [negb] in H;
         unfold bind at 1 in H; rewrite Hreq in H; discriminate.
    rewrite (tryStrategies_turn _ _ _ _ _ _ _ _ Hval Hreq) in H.
    apply Handler_Request_frame in Hreq as (Hj & _ & _ & Hn & _ & Hf & _).
    destruct (is_skip err1) eqn:Hskip.
    { apply IH in H. rewrite Hj, Hn, Hf in H. exact H. }
    destruct (bool_decide (err1 <> None) && bool_decide (err1 <> Some io_EOF)) eqn:Hhard.
    { inversion H; subst. split; [reflexivity|]. split; [exact Hn|]. left.
      apply andb_true_iff in Hhard as [H1 H2].
      apply bool_decide_eq_true in H1, H2. auto. }
    assert (Hok : err1 = None \/ err1 = Some io_EOF).
    { apply andb_false_iff in Hhard as [H1|H1]; apply bool_decide_eq_false in H1.
      - left. destruct err1; [exfalso; apply H1; discriminate | reflexivity].
      - right. destruct (decide (err1 = Some io_EOF)); [assumption | contradiction]. }
    assert (Hcj : completes (Job_set_h (Some (getHandler s)) job) err1
                  = completes job err1) by reflexivity.
    rewrite Hcj in H.
    destruct (completes job err1) eqn:Hc.
    + destruct (retire E (getHandler s) (Job_id job)
                  (register (Job_set_h (Some (getHandler s)) job) st1))
        as [[u st2]| |] eqn:Hret; try discriminate.
      inversion H; subst. apply retire_inv in Hret as (r & st3 & Hrel & ->).
      apply Handler_Release_frame in Hrel as (Hj3 & _ & _ & Hn3 & _ & Hf3 & _).
      split; [reflexivity|]. split; [cbn; rewrite Hn3; exact Hn|].
      right. exists (getHandler s). split; [exact Hok|]. rewrite Hc.
      cbn [retired instance Manager_set_jobs Manager_jobs freeIDs].
      rewrite Hj3, Hf3. cbn. rewrite Hj, Hf. auto.
    + cbn in H. inversion H; subst.
      split; [reflexivity|]. split; [exact Hn|].
      right. exists (getHandler s). split; [exact Hok|]. rewrite Hc.
      cbn. rewrite Hj, Hf. auto.
Qed.

(** Every registered job is a decompress job. *)
Definition registry_decompress (st : State W) : Prop :=
  forall id job, Manager_jobs (instance st) !! id = Some job ->
    JobParams_JobType (Job_params job) = DECOMPRESS.

(** The part of C9 that the code does guarantee.  A completed call keeps
    "every registered Job is a decompress Job" true when it is a decompress
    call, and when it is a compress call that did not return [io.EOF].
    [SubmitJob] is [SubmitWithPolicy] under the global policy. *)
Lemma registry_decompress_preserved p jp policy (st st' : State W) n id err :
  registry_decompress st ->
  JobParams_JobType jp = DECOMPRESS
  \/ (JobParams_JobType jp = COMPRESS /\ err <> Some io_EOF) ->
  (SubmitWithPolicy E p jp policy st = Returns ((n, id, err), st') ->
   registry_decompress st')
  /\ (SubmitJob E p jp st = Returns ((n, id, err), st') -> registry_decompress st').
Proof.
  intros Hinv Hcall.
  assert (Hgen : forall pol,
    SubmitWithPolicy E p jp pol st = Returns ((n, id, err), st') ->
    registry_decompress st').
  2:{ split; [apply Hgen|]. unfold SubmitJob, bind, gets. apply Hgen. }
  intros pol H.
  destruct (continuation (instance st) jp) as [cur|] eqn:Hcont.
  - unfold continuation in Hcont.
    destruct (Manager_jobs (instance st) !! JobParams_id jp) as [cur'|] eqn:Hreg;
      [|discriminate].
    destruct (JobParams_JobType jp =? DECOMPRESS) eqn:Hdir; [|discriminate].
    inversion Hcont; subst cur'. apply Z.eqb_eq in Hdir.
    destruct (Job_h cur) as [h|] eqn:Hh.
    2:{ unfold SubmitWithPolicy, continuation, bind, gets, modify in H.
        rewrite Hreg, Hdir in H. cbn in H. rewrite Hh in H. discriminate. }
    rewrite (SubmitWithPolicy_resume _ _ _ _ _ _ Hreg Hdir Hh) in H.
    destruct (Handler_Request E h (Job_set_p p cur) (resumed p jp cur st))
      as [[[n1 err1] st1]| |] eqn:Hreq; try discriminate.
    apply Handler_Request_frame in Hreq as (Hj & _).
    assert (H1 : registry_decompress st1).
    { intros k j. rewrite Hj. cbn.
      destruct (decide (JobParams_id jp = k)) as [<-|Hne].
      - rewrite lookup_insert_eq. intros [= <-]. cbn. exact (Hinv _ _ Hreg).
      - rewrite lookup_insert_ne by assumption. apply Hinv. }
    destruct (bool_decide (err1 = Some io_EOF)).
    + destruct (retire E h (Job_id cur) st1) as [[u st2]| |] eqn:Hret; try discriminate.
      inversion H; subst. apply retire_inv in Hret as (r & st3 & Hrel & ->).
      apply Handler_Release_frame in Hrel as (Hj3 & _).
      intros k j. cbn. rewrite Hj3.
      destruct (decide (Job_id cur = k)) as [<-|Hne].
      * rewrite lookup_delete_eq. discriminate.
      * rewrite lookup_delete_ne by assumption. apply H1.
    + cbn in H. inversion H; subst. exact H1.
  - rewrite (SubmitWithPolicy_new _ _ _ _ _ Hcont) in H.
    apply tryStrategies_returns in H
      as (-> & _ & [(Hj & _)|(h & Hok & Hres)]).
    + intros k j. rewrite Hj. apply Hinv.
    + assert (Hc : completes (fresh_job st p jp) err = false ->
                   JobParams_JobType jp = DECOMPRESS).
      { unfold completes. cbn [Job_params fresh_job].
        destruct Hcall as [Hd|[Hd Hne]]; [auto|]. rewrite Hd.
        destruct Hok as [-> | ->]; [discriminate | contradiction]. }
      destruct (completes (fresh_job st p jp) err).
      * destruct Hres as [Hj _]. intros k j. rewrite Hj.
        destruct (decide (Job_id (fresh_job st p jp) = k)) as [<-|Hne].
        -- rewrite lookup_delete_eq. discriminate.
        -- rewrite lookup_delete_ne, lookup_insert_ne by assumption. apply Hinv.
      * destruct Hres as [Hj _]. intros k j. rewrite Hj.
        destruct (decide (Job_id (fresh_job st p jp) = k)) as [<-|Hne].
        -- rewrite lookup_insert_eq. intros [= <-]. cbn. auto.
        -- rewrite lookup_insert_ne by assumption. apply Hinv.
Qed.

(** [ids_minted] is an invariant of the Manager: it holds initially and
    every returning call keeps it while the counter has not run out. *)
Lemma init_ids_minted (w : W) : ids_minted (init w).
Proof.
  split; [|constructor]. intros id job H. cbn in H.
  rewrite lookup_empty in H. discriminate.
Qed.

Lemma SubmitWithPolicy_ids_minted p jp policy (st st' : State W) r :
  ids_minted st ->
  - 2 ^ 63 <= nextID st < MaxInt64 ->
  SubmitWithPolicy E p jp policy st = Returns (r, st') ->
  ids_minted st'.
Proof.
  intros [Hreg Hfl] Hrange H. destruct r as [[n id] err].
  destruct (continuation (instance st) jp) as [cur|] eqn:Hcont.
  - unfold continuation in Hcont.
    destruct (Manager_jobs (instance st) !! JobParams_id jp) as [cur'|] eqn:Hl;
      [|discriminate].
    destruct (JobParams_JobType jp =? DECOMPRESS) eqn:Hdir; [|discriminate].
    inversion Hcont; subst cur'. apply Z.eqb_eq in Hdir.
    destruct (Hreg _ _ Hl) as (Hid & [h Hh] & Hle).
    rewrite (SubmitWithPolicy_resume _ _ _ _ _ _ Hl Hdir Hh) in H.
    destruct (Handler_Request E h (Job_set_p p cur) (resumed p jp cur st))
      as [[[n1 err1] st1]| |] eqn:Hreq; try discriminate.
    apply Handler_Request_frame in Hreq as (Hj & _ & _ & Hn & _ & Hf & _).
    assert (H1 : ids_minted st1).
    { split; [|rewrite Hf, Hn; exact Hfl]. intros k j. rewrite Hj, Hn. cbn.
      destruct (decide (JobParams_id jp = k)) as [<-|Hne].
      - rewrite lookup_insert_eq. intros [= <-]. cbn. rewrite Hh. eauto.
      - rewrite lookup_insert_ne by assumption. apply Hreg. }
    destruct (bool_decide (err1 = Some io_EOF)).
    + destruct (retire E h (Job_id cur) st1) as [[u st2]| |] eqn:Hret; try discriminate.
      inversion H; subst. apply retire_inv in Hret as (r & st3 & Hrel & ->).
      apply Handler_Release_frame in Hrel as (Hj3 & _ & _ & Hn3 & _ & Hf3 & _).
      destruct H1 as [Hreg1 Hfl1]. split.
      * intros k j. cbn. rewrite Hj3, Hn3.
        destruct (decide (Job_id cur = k)) as [<-|Hne].
        -- rewrite lookup_delete_eq. discriminate.
        -- rewrite lookup_delete_ne by assumption. apply Hreg1.
      * cbn. rewrite Hf3, Hn3. apply Forall_app. split; [exact Hfl1|].
        apply Forall_singleton. rewrite Hn, Hid. cbn. exact Hle.
    + cbn in H. inversion H; subst. exact H1.
  - rewrite (SubmitWithPolicy_new _ _ _ _ _ Hcont) in H.
    assert (Hfid : fresh_id st = nextID st + 1).
    { unfold fresh_id. apply wrap64_small. lia. }
    apply tryStrategies_returns in H as (-> & Hn & Hres).
    cbn [started nextID instance freeIDs fresh_job Job_id] in Hn, Hres.
    assert (Hfl' : Forall (fun i => i <= nextID st') (freeIDs st)).
    { rewrite Hn, Hfid. eapply Forall_impl; [exact Hfl|]. cbn. intros. lia. }
    assert (Hreg' : forall k j, Manager_jobs (instance st) !! k = Some j ->
              Job_id j = k /\ is_Some (Job_h j) /\ k <= nextID st').
    { intros k j Hk. destruct (Hreg _ _ Hk) as (? & ? & ?).
      rewrite Hn, Hfid. repeat split; auto. lia. }
    destruct Hres as [(Hj & Hf & _)|(h & _ & Hres)].
    + split; [intros k j; rewrite Hj; apply Hreg' | rewrite Hf; exact Hfl'].
    + destruct (completes (fresh_job st p jp) err); destruct Hres as [Hj Hf]; split.
      * intros k j. rewrite Hj.
        destruct (decide (fresh_id st = k)) as [<-|Hne].
        -- rewrite lookup_delete_eq. discriminate.
        -- rewrite lookup_delete_ne, lookup_insert_ne by assumption. apply Hreg'.
      * rewrite Hf. apply Forall_app. split; [exact Hfl'|].
        apply Forall_singleton. lia.
      * intros k j. rewrite Hj.
        destruct (decide (fresh_id st = k)) as [<-|Hne].
        -- rewrite lookup_insert_eq. intros [= <-]. cbn. split; [reflexivity|].
           split; [eauto | lia].
        -- rewrite lookup_insert_ne by assumption. apply Hreg'.
      * rewrite Hf. exact Hfl'.
Qed.

(** The ids with a write binding in the IAA handler were minted by the
    counter too; so the id that the next operation mints has none. *)
Definition iaa_minted (st : State W) : Prop :=
  forall k, is_Some (IAAHandler_jobs (Manager_iaa (instance st)) !! k) ->
    k <= nextID st.

Lemma init_iaa_minted (w : W) : iaa_minted (init w).
Proof.
  intros k [o H]. cbn in H. rewrite lookup_empty in H. discriminate.
Qed.

Lemma iaa_minted_fresh (st : State W) :
  iaa_minted st ->
  - 2 ^ 63 <= nextID st < MaxInt64 ->
  IAAHandler_jobs (Manager_iaa (instance st)) !! fresh_id st = None.
Proof.
  intros Hm Hrange.
  destruct (IAAHandler_jobs (Manager_iaa (instance st)) !! fresh_id st) as [o|] eqn:Hl;
    [exfalso|reflexivity].
  assert (Hle : fresh_id st <= nextID st) by (apply Hm; exists o; exact Hl).
  unfold fresh_id in Hle. rewrite wrap64_small in Hle by lia. lia.
Qed.

Lemma Handler_Request_iaa_keys h job (st st' : State W) r k :
  Handler_Request E h job st = Returns (r, st') ->
  is_Some (IAAHandler_jobs (Manager_iaa (instance st')) !! k) ->
  is_Some (IAAHandler_jobs (Manager_iaa (instance st)) !! k) \/ k = Job_id job.
Proof.
  intros H. unfold Handler_Request, bind, modify, on_handler, zoom in H.
  destruct h; cbn beta iota delta [fst snd log instance world] in H.
  - destruct (QatHandler_Request _ _ _) as [[? [? ?]]| |]; simplify_eq. auto.
  - destruct (ISALHandler_Request _ _ _) as [[? [? ?]]| |]; simplify_eq. auto.
  - destruct (IAAHandler_Request _ _ _) as [[[n err] [h' w']]| |] eqn:HR; simplify_eq.
    apply IAAHandler_Request_returns in HR as (_ & [Hj|(nw & Hj & _)] & _);
      cbn; rewrite Hj; [auto|].
    destruct (decide (Job_id job = k)) as [<-|Hne]; [auto|].
    rewrite lookup_insert_ne by assumption. auto.
  - destruct (DefaultHandler_Request _ _ _) as [[? [? ?]]| |]; simplify_eq. auto.
Qed.

Lemma Handler_Release_iaa_keys h id (st st' : State W) r k :
  Handler_Release E h id st = Returns (r, st') ->
  is_Some (IAAHandler_jobs (Manager_iaa (instance st')) !! k) ->
  is_Some (IAAHandler_jobs (Manager_iaa (instance st)) !! k).
Proof.
  intros H. unfold Handler_Release, bind, modify, on_handler, zoom in H.
  destruct h; cbn beta iota delta [fst snd log instance world] in H.
  - destruct (QatHandler_Release _ _ _) as [[? [? ?]]| |]; simplify_eq. auto.
  - destruct (ISALHandler_Release _ _ _) as [[? [? ?]]| |]; simplify_eq. auto.
  - destruct (IAAHandler_Release E id _) as [[r' [h' w']]| |] eqn:HR; simplify_eq.
    cbn. unfold IAAHandler_Release, IAAHandler_Lock, IAAHandler_Unlock in HR.
    run_cases HR; cbn; auto.
    destruct (decide (id = k)) as [<-|Hne].
    + rewrite lookup_delete_eq. intros [? ?]. discriminate.
    + rewrite lookup_delete_ne by assumption. auto.
  - destruct (DefaultHandler_Release _ _) as [[? [? ?]]| |]; simplify_eq. auto.
Qed.

Lemma tryStrategies_iaa_keys job l (st st' : State W) r k :
  tryStrategies E job l st = Returns (r, st') ->
  is_Some (IAAHandler_jobs (Manager_iaa (instance st')) !! k) ->
  is_Some (IAAHandler_jobs (Manager_iaa (instance st)) !! k) \/ k = Job_id job.
Proof.
  revert st. induction l as [|s l IH]; intros st H Hk.
  - cbn in H. inversion H; subst. auto.
  - destruct (IsValid s) eqn:Hval.
    2:{ cbn [tryStrategies] in H. rewrite Hval in H. cbn in H. inversion H; subst. auto. }
    destruct (Handler_Request E (getHandler s) job st) as [[[n1 err1] st1]| |] eqn:Hreq.
    2,3: cbn [tryStrategies] in H; rewrite Hval in H; cbn [negb] in H;
         unfold bind at 1 in H; rewrite Hreq in H; discriminate.
    rewrite (tryStrategies_turn _ _ _ _ _ _ _ _ Hval Hreq) in H.
    assert (Hstep : forall st2 : State W,
              Manager_iaa (instance st2) = Manager_iaa (instance st1) ->
              is_Some (IAAHandler_jobs (Manager_iaa (instance st2)) !! k) ->
              is_Some (IAAHandler_jobs (Manager_iaa (instance st)) !! k)
              \/ k = Job_id job).
    { intros st2 -> Hk2. exact (Handler_Request_iaa_keys _ _ _ _ _ _ Hreq Hk2). }
    destruct (is_skip err1).
    { destruct (IH _ H Hk) as [Hk1|Hk1]; [|auto]. apply (Hstep st1); auto. }
    destruct (bool_decide (err1 <> None) && bool_decide (err1 <> Some io_EOF)).
    { inversion H; subst. apply (Hstep st'); auto. }
    destruct (completes _ err1).
    + destruct (retire E _ _ _) as [[u st2]| |] eqn:Hret; try discriminate.
      inversion H; subst. apply retire_inv in Hret as (r0 & st3 & Hrel & ->).
      cbn in Hk. apply (Handler_Release_iaa_keys _ _ _ _ _ _ Hrel) in Hk.
      apply (Hstep st1); auto.
    + cbn in H. inversion H; subst. apply (Hstep st1); auto.
Qed.

Lemma SubmitWithPolicy_iaa_minted p jp policy (st st' : State W) r :
  ids_minted st -> iaa_minted st ->
  - 2 ^ 63 <= nextID st < MaxInt64 ->
  SubmitWithPolicy E p jp policy st = Returns (r, st') ->
  iaa_minted st'.
Proof.
  intros [Hreg _] Hm Hrange H k Hk.
  destruct (continuation (instance st) jp) as [cur|] eqn:Hcont.
  - unfold continuation in Hcont.
    destruct (Manager_jobs (instance st) !! JobParams_id jp) as [cur'|] eqn:Hl;
      [|discriminate].
    destruct (JobParams_JobType jp =? DECOMPRESS) eqn:Hdir; [|discriminate].
    inversion Hcont; subst cur'. apply Z.eqb_eq in Hdir.
    destruct (Hreg _ _ Hl) as (Hid & [h Hh] & Hle).
    rewrite (SubmitWithPolicy_resume _ _ _ _ _ _ Hl Hdir Hh) in H.
    destruct (Handler_Request E h (Job_set_p p cur) (resumed p jp cur st))
      as [[[n1 err1] st1]| |] eqn:Hreq; try discriminate.
    assert (Hn1 : nextID st1 = nextID st).
    { apply Handler_Request_frame in Hreq as (_ & _ & _ & Hn & _). exact Hn. }
    assert (H1 : forall k, is_Some (IAAHandler_jobs (Manager_iaa (instance st1)) !! k) ->
                   k <= nextID st).
    { intros k' Hk'. apply (Handler_Request_iaa_keys _ _ _ _ _ _ Hreq) in Hk'
        as [Hk'| ->]; [apply Hm; exact Hk'|]. cbn. rewrite Hid. exact Hle. }
    destruct (bool_decide (err1 = Some io_EOF)).
    + destruct (retire E h (Job_id cur) st1) as [[u st2]| |] eqn:Hret; try discriminate.
      inversion H; subst. apply retire_inv in Hret as (r0 & st3 & Hrel & ->).
      assert (Hn3 : nextID st3 = nextID st1).
      { apply Handler_Release_frame in Hrel as (_ & _ & _ & Hn & _). exact Hn. }
      cbn in Hk |- *. rewrite Hn3, Hn1.
      apply H1. exact (Handler_Release_iaa_keys _ _ _ _ _ _ Hrel Hk).
    + cbn in H. inversion H; subst. rewrite Hn1. apply H1. exact Hk.
  - rewrite (SubmitWithPolicy_new _ _ _ _ _ Hcont) in H.
    assert (Hfid : fresh_id st = nextID st + 1).
    { unfold fresh_id. apply wrap64_small. lia. }
    destruct r as [[n id] err].
    pose proof (tryStrategies_returns _ _ _ _ _ _ _ H) as (_ & Hn & _).
    cbn [started nextID] in Hn. rewrite Hn, Hfid.
    apply (tryStrategies_iaa_keys _ _ _ _ _ _ H) in Hk as [Hk| ->].
    + cbn in Hk. apply Hm in Hk. lia.
    + cbn. lia.
Qed.

(** A property of the Manager that the two interface calls keep, and that
    does not look at the registry, is kept by every returning call. *)
Lemma tryStrategies_invariant (Q : Manager -> Prop) job l (st st' : State W) r :
  (forall f m, Q m -> Q (Manager_set_jobs f m)) ->
  (forall h (s s' : State W) x,
     Handler_Request E h job s = Returns (x, s') -> Q (instance s) -> Q (instance s')) ->
  (forall h i (s s' : State W) x,
     Handler_Release E h i s = Returns (x, s') -> Q (instance s) -> Q (instance s')) ->
  Q (instance st) ->
  tryStrategies E job l st = Returns (r, st') ->
  Q (instance st').
Proof.
  intros Hset Hreq Hrel. revert st.
  induction l as [|s l IH]; intros st HQ H.
  - cbn in H. inversion H; subst. exact HQ.
  - destruct (IsValid s) eqn:Hval.
    2:{ cbn [tryStrategies] in H. rewrite Hval in H. cbn in H. inversion H; subst.
        exact HQ. }
    destruct (Handler_Request E (getHandler s) job st) as [[[n1 err1] st1]| |] eqn:HR.
    2,3: cbn [tryStrategies] in H; rewrite Hval in H; cbn [negb] in H;
         unfold bind at 1 in H; rewrite HR in H; discriminate.
    rewrite (tryStrategies_turn _ _ _ _ _ _ _ _ Hval HR) in H.
    apply Hreq in HR; [|exact HQ].
    destruct (is_skip err1); [exact (IH _ HR H)|].
    destruct (bool_decide (err1 <> None) && bool_decide (err1 <> Some io_EOF)).
    { inversion H; subst. exact HR. }
    destruct (completes _ err1).
    + destruct (retire E _ _ _) as [[u st2]| |] eqn:Hret; try discriminate.
      inversion H; subst. apply retire_inv in Hret as (r0 & st3 & Hrel3 & ->).
      cbn. apply Hset. apply (Hrel _ _ _ _ _ Hrel3). cbn. apply Hset. exact HR.
    + cbn in H. inversion H; subst. cbn. apply Hset. exact HR.
Qed.

Lemma SubmitWithPolicy_invariant (Q : Manager -> Prop) p jp policy (st st' : State W) r :
  (forall f m, Q m -> Q (Manager_set_jobs f m)) ->
  (forall h j (s s' : State W) x,
     Handler_Request E h j s = Returns (x, s') -> Q (instance s) -> Q (instance s')) ->
  (forall h i (s s' : State W) x,
     Handler_Release E h i s = Returns (x, s') -> Q (instance s) -> Q (instance s')) ->
  Q (instance st) ->
  SubmitWithPolicy E p jp policy st = Returns (r, st') ->
  Q (instance st').
Proof.
  intros Hset Hreq Hrel HQ H.
  destruct (continuation (instance st) jp) as [cur|] eqn:Hcont.
  - unfold continuation in Hcont.
    destruct (Manager_jobs (instance st) !! JobParams_id jp) as [cur'|] eqn:Hl;
      [|discriminate].
    destruct (JobParams_JobType jp =? DECOMPRESS) eqn:Hdir; [|discriminate].
    inversion Hcont; subst cur'. apply Z.eqb_eq in Hdir.
    destruct (Job_h cur) as [h|] eqn:Hh.
    2:{ unfold SubmitWithPolicy, continuation, bind, gets, modify in H.
        rewrite Hl, Hdir in H. cbn in H. rewrite Hh in H. discriminate. }
    rewrite (SubmitWithPolicy_resume _ _ _ _ _ _ Hl Hdir Hh) in H.
    destruct (Handler_Request E h (Job_set_p p cur) (resumed p jp cur st))
      as [[[n1 err1] st1]| |] eqn:HR; try discriminate.
    apply Hreq in HR; [|cbn; apply Hset; exact HQ].
    destruct (bool_decide (err1 = Some io_EOF)).
    + destruct (retire E h (Job_id cur) st1) as [[u st2]| |] eqn:Hret; try discriminate.
      inversion H; subst. apply retire_inv in Hret as (r0 & st3 & Hrel3 & ->).
      cbn. apply Hset. exact (Hrel _ _ _ _ _ Hrel3 HR).
    + cbn in H. inversion H; subst. exact HR.
  - rewrite (SubmitWithPolicy_new _ _ _ _ _ Hcont) in H.
    exact (tryStrategies_invariant Q _ _ (started st) _ _ Hset
             (fun h => Hreq h _) Hrel HQ H).
Qed.

(** No registered job that is not a compress job has a write binding in the
    IAA handler.  With [ids_minted] and [iaa_minted] this is an invariant
    of the Manager; it is what makes [Release] return in a continuation. *)
Definition decompress_unbound (st : State W) : Prop :=
  forall id job, Manager_jobs (instance st) !! id = Some job ->
    JobParams_JobType (Job_params job) <> COMPRESS ->
    IAAHandler_jobs (Manager_iaa (instance st)) !! id = None.

Lemma init_decompress_unbound (w : W) : decompress_unbound (init w).
Proof.
  intros id job H. cbn in H. rewrite lookup_empty in H. discriminate.
Qed.

Lemma not_Some_None {A} (o : option A) : ~ is_Some o -> o = None.
Proof. destruct o; [intros H; exfalso; apply H; eauto | reflexivity]. Qed.

Lemma tryStrategies_iaa_keys_shrink job l (st st' : State W) r k :
  JobParams_JobType (Job_params job) <> COMPRESS ->
  tryStrategies E job l st = Returns (r, st') ->
  is_Some (IAAHandler_jobs (Manager_iaa (instance st')) !! k) ->
  is_Some (IAAHandler_jobs (Manager_iaa (instance st)) !! k).
Proof.
  intros Hdir H.
  refine (tryStrategies_invariant
            (fun m => is_Some (IAAHandler_jobs (Manager_iaa m) !! k) ->
                      is_Some (IAAHandler_jobs (Manager_iaa (instance st)) !! k))
            job l st st' r _ _ _ _ H).
  - intros f m Hm. exact Hm.
  - intros h s s' x HR Hs. rewrite (Handler_Request_iaa_jobs _ _ _ _ _ HR Hdir).
    exact Hs.
  - intros h i s s' x HR Hs Hk. apply Hs.
    exact (Handler_Release_iaa_keys _ _ _ _ _ _ HR Hk).
  - auto.
Qed.

Lemma SubmitWithPolicy_decompress_unbound p jp policy (st st' : State W) r :
  ids_minted st -> iaa_minted st -> decompress_unbound st ->
  - 2 ^ 63 <= nextID st < MaxInt64 ->
  SubmitWithPolicy E p jp policy st = Returns (r, st') ->
  decompress_unbound st'.
Proof.
  intros [Hreg _] Hm Hun Hrange H k j Hk Hdir. apply not_Some_None. intros Hb.
  destruct (continuation (instance st) jp) as [cur|] eqn:Hcont.
  - unfold continuation in Hcont.
    destruct (Manager_jobs (instance st) !! JobParams_id jp) as [cur'|] eqn:Hl;
      [|discriminate].
    destruct (JobParams_JobType jp =? DECOMPRESS) eqn:Hd; [|discriminate].
    inversion Hcont; subst cur'. apply Z.eqb_eq in Hd.
    destruct (Hreg _ _ Hl) as (Hid & [h Hh] & _).
    rewrite (SubmitWithPolicy_resume _ _ _ _ _ _ Hl Hd Hh) in H.
    destruct (Handler_Request E h (Job_set_p p cur) (resumed p jp cur st))
      as [[[n1 err1] st1]| |] eqn:Hreq; try discriminate.
    pose proof (Handler_Request_frame _ _ _ _ _ _ Hreq) as (Hj & _).
    assert (H1 : forall k j, Manager_jobs (instance st1) !! k = Some j ->
                   JobParams_JobType (Job_params j) <> COMPRESS ->
                   ~ is_Some (IAAHandler_jobs (Manager_iaa (instance st1)) !! k)).
    { intros k' j' Hk' Hdir' Hb'. rewrite Hj in Hk'. cbn in Hk'.
      destruct (decide (JobParams_id jp = k')) as [<-|Hne].
      - rewrite lookup_insert_eq in Hk'. inversion Hk'; subst j'. cbn in Hdir'.
        rewrite (Handler_Request_iaa_jobs _ _ _ _ _ Hreq Hdir') in Hb'. cbn in Hb'.
        rewrite (Hun _ _ Hl Hdir') in Hb'. destruct Hb' as [? ?]. discriminate.
      - rewrite lookup_insert_ne in Hk' by assumption.
        apply (Handler_Request_iaa_keys _ _ _ _ _ _ Hreq) in Hb' as [Hb'|Hb'].
        + cbn in Hb'. rewrite (Hun _ _ Hk' Hdir') in Hb'.
          destruct Hb' as [? ?]. discriminate.
        + cbn in Hb'. congruence. }
    destruct (bool_decide (err1 = Some io_EOF)).
    + destruct (retire E h (Job_id cur) st1) as [[u st2]| |] eqn:Hret; try discriminate.
      inversion H; subst. apply retire_inv in Hret as (r0 & st3 & Hrel & ->).
      pose proof (Handler_Release_frame _ _ _ _ _ _ Hrel) as (Hj3 & _).
      cbn in Hk, Hb. rewrite Hj3 in Hk.
      apply (Handler_Release_iaa_keys _ _ _ _ _ _ Hrel) in Hb.
      destruct (decide (Job_id cur = k)) as [<-|Hne].
      * rewrite lookup_delete_eq in Hk. discriminate.
      * rewrite lookup_delete_ne in Hk by assumption. exact (H1 _ _ Hk Hdir Hb).
    + cbn in H. inversion H; subst. exact (H1 _ _ Hk Hdir Hb).
  - rewrite (SubmitWithPolicy_new _ _ _ _ _ Hcont) in H.
    destruct r as [[n id] err].
    pose proof (iaa_minted_fresh _ Hm Hrange) as Hfresh.
    assert (Hold : Manager_jobs (instance st) !! k = Some j ->
                   ~ is_Some (IAAHandler_jobs (Manager_iaa (instance st)) !! k)).
    { intros Hk0 [o Ho]. rewrite (Hun _ _ Hk0 Hdir) in Ho. discriminate. }
    pose proof (tryStrategies_returns _ _ _ _ _ _ _ H) as (-> & _ & Hres).
    cbn [started instance fresh_job Job_id] in Hres.
    assert (Hcase : Manager_jobs (instance st) !! k = Some j
                    \/ (k = fresh_id st
                        /\ JobParams_JobType (Job_params (fresh_job st p jp)) <> COMPRESS)).
    { destruct Hres as [(Hj & _)|(h & _ & Hres)].
      - left. rewrite <- Hj. exact Hk.
      - destruct (completes (fresh_job st p jp) err); destruct Hres as [Hj _];
          rewrite Hj in Hk; destruct (decide (fresh_id st = k)) as [<-|Hne].
        + rewrite lookup_delete_eq in Hk. discriminate.
        + rewrite lookup_delete_ne, lookup_insert_ne in Hk by assumption. auto.
        + rewrite lookup_insert_eq in Hk. inversion Hk; subst j. right. auto.
        + rewrite lookup_insert_ne in Hk by assumption. auto. }
    destruct Hcase as [Hk0|[-> Hdir0]].
    + apply (tryStrategies_iaa_keys _ _ _ _ _ _ H) in Hb as [Hb| ->].
      * exact (Hold Hk0 Hb).
      * cbn in Hk0. destruct (Hreg _ _ Hk0) as (_ & _ & Hle).
        unfold fresh_id in Hle. rewrite wrap64_small in Hle by lia. lia.
    + apply (tryStrategies_iaa_keys_shrink _ _ _ _ _ _ Hdir0 H) in Hb.
      cbn in Hb. rewrite Hfresh in Hb. destruct Hb as [? ?]. discriminate.
Qed.

End LifeCycle.

(** ** The bounded pools *)

Definition pools_within_cap (m : Manager) : Prop :=
  within_cap (QatHandler_jobs (Manager_qat m)) MAX_QAT_BINDINGS
  /\ within_cap (IAAHandler_jobs (Manager_iaa m)) MAX_IAA_BINDINGS.

Section Pools.
Context {W : Type} (E : Engine W).

Lemma Handler_Request_pools h job (st st' : State W) r :
  Handler_Request E h job st = Returns (r, st') ->
  pools_within_cap (instance st) -> pools_within_cap (instance st').
Proof.
  intros H [Hq Hi]. unfold Handler_Request, bind, modify, on_handler, zoom in H.
  destruct h; cbn beta iota delta [fst snd log instance world] in H.
  - destruct (QatHandler_Request _ _ _) as [[x [h' w']]| |] eqn:HR; simplify_eq.
    split; [|exact Hi]. cbn.
    destruct (handler_pools_capped E job 0 (world st)) as (_ & Hpres & _).
    destruct (Hpres _ Hq) as (Hreq & _). exact (Hreq _ _ _ HR).
  - destruct (ISALHandler_Request _ _ _) as [[? [? ?]]| |]; simplify_eq.
    split; assumption.
  - destruct (IAAHandler_Request _ _ _) as [[x [h' w']]| |] eqn:HR; simplify_eq.
    split; [exact Hq|]. cbn.
    destruct (handler_pools_capped E job 0 (world st)) as (_ & _ & Hpres & _).
    destruct (Hpres _ Hi) as (Hreq & _). exact (Hreq _ _ _ HR).
  - destruct (DefaultHandler_Request _ _ _) as [[? [? ?]]| |]; simplify_eq.
    split; assumption.
Qed.

Lemma Handler_Release_pools h id (st st' : State W) r :
  Handler_Release E h id st = Returns (r, st') ->
  pools_within_cap (instance st) -> pools_within_cap (instance st').
Proof.
  intros H [Hq Hi]. unfold Handler_Release, bind, modify, on_handler, zoom in H.
  destruct h; cbn beta iota delta [fst snd log instance world] in H.
  - destruct (QatHandler_Release _ _ _) as [[x [h' w']]| |] eqn:HR; simplify_eq.
    split; [|exact Hi]. cbn.
    destruct (handler_pools_capped E (new_Job 0) id (world st)) as (_ & Hpres & _).
    destruct (Hpres _ Hq) as (_ & _ & Hrel). exact (Hrel _ _ _ HR).
  - destruct (ISALHandler_Release _ _ _) as [[? [? ?]]| |]; simplify_eq.
    split; assumption.
  - destruct (IAAHandler_Release _ _ _) as [[x [h' w']]| |] eqn:HR; simplify_eq.
    split; [exact Hq|]. cbn.
    destruct (handler_pools_capped E (new_Job 0) id (world st)) as (_ & _ & Hpres & _).
    destruct (Hpres _ Hi) as (_ & Hrel). exact (Hrel _ _ _ HR).
  - destruct (DefaultHandler_Release _ _) as [[? [? ?]]| |]; simplify_eq.
    split; assumption.
Qed.

(** C6, amended.  The write-binding maps [jobs] of the QAT and IAA
    handlers never hold more than the cap of 8: they start within it and
    every returning [SubmitWithPolicy] call keeps them within it.  (IAA's
    [readjobs] map has no cap.)  A request that reaches the pool check while
    the map is at the cap is answered [ErrNotAvailable] by the check, with
    the handler as it was and no call into the codec library:
    [IAAHandler.Request] returns it once the engine reports ready, the
    algorithm is in the table and the lock is free; [newQatJob] hands it to
    [QatHandler.Request]. *)
Theorem binding_pools_capped (job : Job) (w : W) :
  pools_within_cap initManager
  /\ (forall p jp policy (st st' : State W) r,
        pools_within_cap (instance st) ->
        SubmitWithPolicy E p jp policy st = Returns (r, st') ->
        pools_within_cap (instance st'))
  /\ (forall h, Z.of_nat (size (IAAHandler_jobs h)) >= MAX_IAA_BINDINGS ->
      fst (Ready E lib_ixl w) = true ->
      contains (IAAHandler_algs h) (JobParams_a (Job_params job)) = true ->
      IAAHandler_jobsLock h = false ->
      IAAHandler_Request E job (h, w)
      = Returns ((0, Some ErrNotAvailable), (h, snd (Ready E lib_ixl w))))
  /\ (forall h mode, Z.of_nat (size (QatHandler_jobs h)) >= MAX_QAT_BINDINGS ->
      newQatJob E job mode (h, w) = Returns ((None, Some ErrNotAvailable), (h, w))).
Proof.
  destruct (handler_pools_capped E job 0 w) as (Hinit & _ & _ & Hiaa & Hqat).
  split; [exact Hinit|]. split; [|split; [exact Hiaa | exact Hqat]].
  intros p jp policy st st' r Hcap H.
  refine (SubmitWithPolicy_invariant E pools_within_cap p jp policy st st' r
            _ _ _ Hcap H).
  - intros f m Hm. exact Hm.
  - intros h j s s' x. apply Handler_Request_pools.
  - intros h i s s' x. apply Handler_Release_pools.
Qed.

End Pools.

(** ** Validity and the capability tables *)

(** X1.  [contains] is membership in the slice: it answers true exactly
    when the algorithm is one of the elements. *)
Theorem contains_In (slice : list Algorithm) (algorithm : Algorithm) :
  contains slice algorithm = true <-> In algorithm slice.
Proof.
  induction slice as [|a rest IH]; cbn [contains In].
  - split; [discriminate | contradiction].
  - destruct (Z.eqb_spec a algorithm) as [->|Hne].
    + split; auto.
    + rewrite IH. split; [auto|]. intros [H|H]; [contradiction | exact H].
Qed.

(** X2.  Validity and the tables agree.  The valid algorithms are those of
    the fallback's table, and the valid strategies those of the strategy
    bank; an algorithm that a hardware table holds is valid;
    [GetQATSymbol] fails exactly on the invalid algorithms, so the error it
    returns, which [QatHandler.Request] drops, is nil for every algorithm of
    the QAT table; and [String] gives a name exactly to the valid
    algorithms. *)
Theorem validity_and_tables (a : Algorithm) (s : StrategyType) :
  (Algorithm_isValid a = true <-> contains DEFAULT_ALGORITHMS a = true)
  /\ (IsValid s = true <-> In s GetStrategies)
  /\ (hardware_supports a = true -> Algorithm_isValid a = true)
  /\ (snd (GetQATSymbol a) = None <-> Algorithm_isValid a = true)
  /\ (contains QAT_ALGORITHMS a = true -> snd (GetQATSymbol a) = None)
  /\ (Algorithm_isValid a = true <-> Algorithm_String a <> EmptyString).
Proof.
  assert (Hs : s = 0 \/ s = 1 \/ s = 2 \/ s = 3
               \/ (s <> 0 /\ s <> 1 /\ s <> 2 /\ s <> 3)) by lia.
  assert (Ha : a = 0 \/ a = 1 \/ a = 2 \/ a = 3
               \/ (a <> 0 /\ a <> 1 /\ a <> 2 /\ a <> 3)) by lia.
  unfold Algorithm_isValid, IsValid, hardware_supports, GetQATSymbol, Algorithm_String,
    GetStrategies, strategyBank, DEFAULT_ALGORITHMS, QAT_ALGORITHMS, IAA_ALGORITHMS,
    ISAL_ALGORITHMS, contains, DEFLATE, GZIP, LZ4, ZSTD, QAT, ISAL, IAA, DEFAULT.
  split; [|split; [|split; [|split; [|split]]]].
  2:{ destruct Hs as [->|[->|[->|[->|(H0 & H1 & H2 & H3)]]]]; cbn; try tauto.
      rewrite !(proj2 (Z.eqb_neq _ _)) by assumption. cbn.
      split; [discriminate|]. intros [H|[H|[H|[H|[]]]]]; congruence. }
  all: destruct Ha as [->|[->|[->|[->|(H0 & H1 & H2 & H3)]]]];
    rewrite ?(proj2 (Z.eqb_neq _ _)) by congruence; cbn;
    try (split; congruence); congruence.
Qed.

(** ** Requests and releases, handler by handler *)

(** Unfold the monad of the embedding in the goal. *)
Ltac unfold_go :=
  unfold IAAHandler_Lock, IAAHandler_Unlock, deferring, ext_Close, deref, getH,
    modifyH;
  unfold ext, bind, ret, gets, modify, panic, block.

(** Run the goal forward: reduce, rewrite with the facts at hand [tac], and
    again. *)
Ltac fwd tac :=
  repeat (progress (cbn beta iota zeta delta
                      [fst snd negb Z.eqb Pos.eqb COMPRESS DECOMPRESS DEFLATE GZIP
                       LZ4 ZSTD DIRECT STREAM
                       IAAHandler_jobs IAAHandler_readjobs IAAHandler_jobsLock
                       IAAHandler_algs IAAHandler_set_jobs IAAHandler_set_readjobs
                       IAAHandler_set_jobsLock
                       ISALHandler_jobs ISALHandler_readjobs ISALHandler_algs
                       ISALHandler_set_jobs ISALHandler_set_readjobs
                       QatHandler_jobs QatHandler_algs QatHandler_set_jobs
                       QatHandler_ready DefaultHandler_algs];
                    tac)).

(** [run_cases] for a run in a hypothesis and another one in the goal. *)
Ltac run_cases_all :=
  unfold deferring, ext_Close, deref, getH, modifyH in *;
  unfold ext, bind, ret, gets, modify, panic, block in *;
  repeat (cbn beta iota zeta delta
            [fst snd negb IAAHandler_jobs IAAHandler_readjobs IAAHandler_jobsLock
             IAAHandler_algs IAAHandler_set_jobs IAAHandler_set_readjobs
             IAAHandler_set_jobsLock] in *;
          case_match; simplify_eq);
  simplify_eq.

Section HandlerCalls.
Context {W : Type} (E : Engine W).

Lemma geb_true x y : x >= y -> (x >=? y) = true.
Proof. intros H. apply Z.geb_le. lia. Qed.

Lemma geb_false x y : x < y -> (x >=? y) = false.
Proof. intros H. rewrite Z.geb_leb. apply Z.leb_gt. exact H. Qed.

Lemma QatHandler_Request_unsupported job h w :
  contains (QatHandler_algs h) (JobParams_a (Job_params job)) = false ->
  QatHandler_Request E job (h, w) = Returns ((0, Some ErrUnsupported), (h, w)).
Proof.
  intros Hun. unfold QatHandler_Request, getH, bind, gets, ret.
  cbn. rewrite Hun. reflexivity.
Qed.

Lemma DefaultHandler_Request_unsupported job h w :
  contains (DefaultHandler_algs h) (JobParams_a (Job_params job)) = false ->
  DefaultHandler_Request E job (h, w) = Returns ((0, Some ErrUnsupported), (h, w)).
Proof.
  intros Hun. unfold DefaultHandler_Request, getH, bind, gets, ret.
  cbn. rewrite Hun. reflexivity.
Qed.

Lemma ISALHandler_Request_not_ready job h w :
  fst (Ready E lib_isal w) = false ->
  ISALHandler_Request E job (h, w)
  = Returns ((0, Some ErrNotInstalled), (h, snd (Ready E lib_isal w))).
Proof.
  intros Hr. unfold ISALHandler_Request, ext, bind, ret.
  destruct (Ready E lib_isal w) as [b w1]. cbn in *. subst b. reflexivity.
Qed.

Lemma ISALHandler_Request_unsupported job h w :
  fst (Ready E lib_isal w) = true ->
  contains (ISALHandler_algs h) (JobParams_a (Job_params job)) = false ->
  ISALHandler_Request E job (h, w)
  = Returns ((0, Some ErrUnsupported), (h, snd (Ready E lib_isal w))).
Proof.
  intros Hr Hun. unfold ISALHandler_Request, ext, getH, gets, bind, ret.
  destruct (Ready E lib_isal w) as [b w1]. cbn in *. subst b. cbn.
  rewrite Hun. reflexivity.
Qed.

Lemma IAAHandler_Request_not_ready job h w :
  fst (Ready E lib_ixl w) = false ->
  IAAHandler_Request E job (h, w)
  = Returns ((0, Some ErrNotInstalled), (h, snd (Ready E lib_ixl w))).
Proof.
  intros Hr. unfold IAAHandler_Request, ext, bind, ret.
  destruct (Ready E lib_ixl w) as [b w1]. cbn in *. subst b. reflexivity.
Qed.

Lemma IAAHandler_Request_unsupported job h w :
  fst (Ready E lib_ixl w) = true ->
  contains (IAAHandler_algs h) (JobParams_a (Job_params job)) = false ->
  IAAHandler_Request E job (h, w)
  = Returns ((0, Some ErrUnsupported), (h, snd (Ready E lib_ixl w))).
Proof.
  intros Hr Hun. unfold IAAHandler_Request, ext, getH, gets, bind, ret.
  destruct (Ready E lib_ixl w) as [b w1]. cbn in *. subst b. cbn.
  rewrite Hun. reflexivity.
Qed.

(** X3.  Every [Request] checks before it works.  A request for an
    algorithm outside the handler's table is answered [ErrUnsupported], with
    zero bytes and the handler as it was; the QAT and the fallback handler
    have then made no library call at all, the ISA-L and the IAA handler
    only the readiness probe.  When the probe says no, ISA-L and IAA answer
    [ErrNotInstalled] without looking at the table. *)
Theorem Request_checks_before_work (job : Job) (w : W) :
  (forall h, contains (QatHandler_algs h) (JobParams_a (Job_params job)) = false ->
     QatHandler_Request E job (h, w) = Returns ((0, Some ErrUnsupported), (h, w)))
  /\ (forall h, contains (DefaultHandler_algs h) (JobParams_a (Job_params job)) = false ->
     DefaultHandler_Request E job (h, w) = Returns ((0, Some ErrUnsupported), (h, w)))
  /\ (forall h, fst (Ready E lib_isal w) = false ->
     ISALHandler_Request E job (h, w)
     = Returns ((0, Some ErrNotInstalled), (h, snd (Ready E lib_isal w))))
  /\ (forall h, fst (Ready E lib_isal w) = true ->
     contains (ISALHandler_algs h) (JobParams_a (Job_params job)) = false ->
     ISALHandler_Request E job (h, w)
     = Returns ((0, Some ErrUnsupported), (h, snd (Ready E lib_isal w))))
  /\ (forall h, fst (Ready E lib_ixl w) = false ->
     IAAHandler_Request E job (h, w)
     = Returns ((0, Some ErrNotInstalled), (h, snd (Ready E lib_ixl w))))
  /\ (forall h, fst (Ready E lib_ixl w) = true ->
     contains (IAAHandler_algs h) (JobParams_a (Job_params job)) = false ->
     IAAHandler_Request E job (h, w)
     = Returns ((0, Some ErrUnsupported), (h, snd (Ready E lib_ixl w)))).
Proof.
  split; [|split; [|split; [|split; [|split]]]]; intros h.
  - apply QatHandler_Request_unsupported.
  - apply DefaultHandler_Request_unsupported.
  - apply ISALHandler_Request_not_ready.
  - apply ISALHandler_Request_unsupported.
  - apply IAAHandler_Request_not_ready.
  - apply IAAHandler_Request_unsupported.
Qed.

(** A request for a job without a binding that meets the full QAT pool. *)
Lemma QatHandler_Request_at_cap (job : Job) (h : QatHandler) (w : W) :
  contains (QatHandler_algs h) (JobParams_a (Job_params job)) = true ->
  QatHandler_jobs h !! Job_id job = None ->
  Z.of_nat (size (QatHandler_jobs h)) >= MAX_QAT_BINDINGS ->
  (JobParams_JobType (Job_params job) = COMPRESS
   \/ JobParams_JobType (Job_params job) = DECOMPRESS ->
   QatHandler_Request E job (h, w)
   = Panics "invalid memory address or nil pointer dereference")
  /\ (JobParams_JobType (Job_params job) <> COMPRESS ->
      JobParams_JobType (Job_params job) <> DECOMPRESS ->
      QatHandler_Request E job (h, w) = Returns ((0, Some ErrNotAvailable), (h, w))).
Proof.
  intros Hsup Hun Hfull. apply geb_true in Hfull.
  unfold QatHandler_Request, QatHandler_bind, newQatJob. unfold_go.
  split.
  - intros [Hdir|Hdir]; rewrite Hdir;
      fwd ltac:(rewrite ?Hsup, ?Hun, ?Hfull); reflexivity.
  - intros Hc Hd. apply Z.eqb_neq in Hc, Hd.
    fwd ltac:(rewrite ?Hsup, ?Hun, ?Hfull, ?Hc, ?Hd). reflexivity.
Qed.

Lemma ISALHandler_Release_deletes id h w :
  exists r h' w',
    ISALHandler_Release E id (h, w) = Returns (r, (h', w'))
    /\ ISALHandler_jobs h' = delete id (ISALHandler_jobs h)
    /\ ISALHandler_readjobs h' = delete id (ISALHandler_readjobs h)
    /\ ISALHandler_algs h' = ISALHandler_algs h.
Proof.
  unfold ISALHandler_Release.
  unfold getH, modifyH, ext, bind, ret, gets, modify.
  cbn beta iota delta [fst snd].
  destruct (ISALHandler_jobs h !! id) as [o|] eqn:Hj,
           (ISALHandler_readjobs h !! id) as [o'|] eqn:Hr;
    repeat (match goal with
            | |- context [Close E ?x ?w] => destruct (Close E x w) as [? ?]
            end; cbn);
    eexists _, _, _; (split; [reflexivity|]); cbn;
    rewrite ?(delete_id _ _ Hj), ?(delete_id _ _ Hr); auto.
Qed.

(** X4.  [Release] on a bound id.  The QAT handler closes the binding's
    object and removes the binding only when [Close] returned nil; on an
    error it returns the error and keeps the binding.  The IAA handler
    (lock free) returns what [Close] returned and removes the write binding
    in either case.  The ISA-L handler always returns, and afterwards the id
    is in neither of its maps. *)
Theorem Release_bound (id : JobID) (w : W) :
  (forall h qat, QatHandler_keyed h -> QatHandler_jobs h !! id = Some qat ->
     exists r h' w',
       QatHandler_Release E id (h, w) = Returns (r, (h', w'))
       /\ (r = None /\ h' = QatHandler_set_jobs (delete id) h
           \/ (exists e, r = Some e) /\ h' = h))
  /\ (forall h o, IAAHandler_jobs h !! id = Some o -> IAAHandler_jobsLock h = false ->
        IAAHandler_Release E id (h, w)
        = Returns (fst (Close E (Some o) w),
                   (IAAHandler_set_jobs (delete id) h, snd (Close E (Some o) w))))
  /\ (forall h,
        exists r h' w',
          ISALHandler_Release E id (h, w) = Returns (r, (h', w'))
          /\ ISALHandler_jobs h' = delete id (ISALHandler_jobs h)
          /\ ISALHandler_readjobs h' = delete id (ISALHandler_readjobs h)
          /\ ISALHandler_algs h' = ISALHandler_algs h).
Proof.
  split; [|split].
  - intros h qat Hk Hl. unfold QatHandler_Release.
    unfold bind at 1. unfold getH, gets. cbn beta iota delta [fst].
    rewrite (findJob_keyed _ _ Hk), Hl.
    unfold deref, bind, ret, ext, modifyH, modify.
    destruct (QATJob_mode qat =? DIRECT).
    + destruct (QATJob_w qat) as [o|], (QATJob_r qat) as [o'|];
        try destruct (Close E _ w) as [[e|] w1]; cbn; eauto 10.
    + destruct (Close E (QATJob_b qat) w) as [[e|] w1]; cbn; eauto 10.
  - intros h o Hl Hlock. unfold IAAHandler_Release, IAAHandler_Lock, IAAHandler_Unlock.
    unfold deferring, getH, modifyH, ext, bind, ret, gets, modify, panic, block.
    cbn beta iota delta [fst snd]. rewrite Hl.
    destruct (Close E (Some o) w) as [err w1]. cbn beta iota delta [fst snd].
    rewrite Hlock. cbn. destruct h. cbn in *. subst. reflexivity.
  - intros h. apply ISALHandler_Release_deletes.
Qed.

(** X5.  [IAAHandler.Request] can return with its lock held.  Once the
    engine is ready, the algorithm is in the table, the lock is free and the
    pool is below its cap, a request whose constructor fails
    ([ixl.NewDeflateWriter] for a compress job, [ixl.NewInflate] for a
    decompress job) returns that error with the lock still taken and nothing
    bound; so does a request whose direction is neither, with a nil error.
    From a handler whose lock is held, every request that passes the two
    checks blocks. *)
Theorem IAAHandler_lock_leak (job : Job) (h : IAAHandler) (w w1 w2 : W) o e :
  Ready E lib_ixl w = (true, w1) ->
  contains (IAAHandler_algs h) (JobParams_a (Job_params job)) = true ->
  IAAHandler_jobsLock h = false ->
  Z.of_nat (size (IAAHandler_jobs h)) < MAX_IAA_BINDINGS ->
  (JobParams_JobType (Job_params job) = COMPRESS ->
   JobParams_a (Job_params job) = DEFLATE ->
   New E (ixl_NewDeflateWriter (Job_w job)) w1 = ((o, Some e), w2) ->
   IAAHandler_Request E job (h, w)
   = Returns ((0, Some e), (IAAHandler_set_jobsLock true h, w2)))
  /\ (JobParams_JobType (Job_params job) = DECOMPRESS ->
      JobParams_a (Job_params job) = DEFLATE \/ JobParams_a (Job_params job) = GZIP ->
      New E (ixl_NewInflate (Job_r job)) w1 = ((o, Some e), w2) ->
      IAAHandler_Request E job (h, w)
      = Returns ((0, Some e), (IAAHandler_set_jobsLock true h, w2)))
  /\ (JobParams_JobType (Job_params job) <> COMPRESS ->
      JobParams_JobType (Job_params job) <> DECOMPRESS ->
      IAAHandler_Request E job (h, w)
      = Returns ((0, None), (IAAHandler_set_jobsLock true h, w1)))
  /\ (forall job' h' w',
        IAAHandler_jobsLock h' = true ->
        fst (Ready E lib_ixl w') = true ->
        contains (IAAHandler_algs h') (JobParams_a (Job_params job')) = true ->
        IAAHandler_Request E job' (h', w') = Blocks).
Proof.
  intros HR Hsup Hlock Hsize. apply geb_false in Hsize.
  split; [|split; [|split]].
  - intros Hdir Ha Hnew. rewrite Ha in Hsup. unfold IAAHandler_Request. unfold_go.
    rewrite Ha, Hdir.
    fwd ltac:(rewrite ?HR, ?Hsup, ?Hlock, ?Hsize, ?Hnew). reflexivity.
  - intros Hdir Ha Hnew. unfold IAAHandler_Request. unfold_go.
    assert (Hor : (JobParams_a (Job_params job) =? DEFLATE)
                  || (JobParams_a (Job_params job) =? GZIP) = true).
    { destruct Ha as [-> | ->]; reflexivity. }
    rewrite Hdir.
    fwd ltac:(rewrite ?HR, ?Hsup, ?Hlock, ?Hsize, ?Hor, ?Hnew). reflexivity.
  - intros Hc Hd. apply Z.eqb_neq in Hc, Hd. unfold IAAHandler_Request. unfold_go.
    fwd ltac:(rewrite ?HR, ?Hsup, ?Hlock, ?Hsize, ?Hc, ?Hd). reflexivity.
  - intros job' h' w' Hl Hr Hs. unfold IAAHandler_Request. unfold_go.
    destruct (Ready E lib_ixl w') as [b w1']. cbn in Hr. subst b.
    fwd ltac:(rewrite ?Hs, ?Hl). reflexivity.
Qed.


Lemma ISALHandler_set_jobs_id h k o :
  ISALHandler_jobs h !! k = Some o -> ISALHandler_set_jobs <[k := o]> h = h.
Proof.
  intros H. destruct h as [j r a]. unfold ISALHandler_set_jobs.
  cbn [ISALHandler_jobs ISALHandler_readjobs ISALHandler_algs] in *.
  rewrite (insert_id _ _ _ H). reflexivity.
Qed.

Lemma ISALHandler_set_readjobs_id h k o :
  ISALHandler_readjobs h !! k = Some o -> ISALHandler_set_readjobs <[k := o]> h = h.
Proof.
  intros H. destruct h as [j r a]. unfold ISALHandler_set_readjobs.
  cbn [ISALHandler_jobs ISALHandler_readjobs ISALHandler_algs] in *.
  rewrite (insert_id _ _ _ H). reflexivity.
Qed.

(** X6.  A request for a job that already has a binding goes through the
    stored object.  The ISA-L handler (engine ready, algorithm in the
    table) writes to the stored writer, or reads from the stored reader, and
    is left as it was; so is the QAT handler, which maps a write error to
    zero bytes and lets [io.EOF] through with the bytes read.  No
    constructor is called and no option applied again: the level and the
    algorithm of the first request stay in force. *)
Theorem Request_reuses_binding (job : Job) (w : W) :
  (forall h o w1,
     Ready E lib_isal w = (true, w1) ->
     contains (ISALHandler_algs h) (JobParams_a (Job_params job)) = true ->
     (JobParams_JobType (Job_params job) = COMPRESS ->
      ISALHandler_jobs h !! Job_id job = Some o ->
      ISALHandler_Request E job (h, w)
      = Returns (fst (Write E (Some o) (Job_p job) w1),
                 (h, snd (Write E (Some o) (Job_p job) w1))))
     /\ (JobParams_JobType (Job_params job) = DECOMPRESS ->
         ISALHandler_readjobs h !! Job_id job = Some o ->
         ISALHandler_Request E job (h, w)
         = Returns (fst (Read E (Some o) (Job_p job) w1),
                    (h, snd (Read E (Some o) (Job_p job) w1)))))
  /\ (forall h val,
        contains (QatHandler_algs h) (JobParams_a (Job_params job)) = true ->
        QatHandler_jobs h !! Job_id job = Some val ->
        (JobParams_JobType (Job_params job) = COMPRESS ->
         QatHandler_Request E job (h, w)
         = let '((n, err), w') := Write E (QATJob_w val) (Job_p job) w in
           Returns (match err with
                    | Some e => (0, Some e)
                    | None => (n, None)
                    end, (h, w')))
        /\ (JobParams_JobType (Job_params job) = DECOMPRESS ->
            QatHandler_Request E job (h, w)
            = let '((n, err), w') := Read E (QATJob_r val) (Job_p job) w in
              Returns (match err with
                       | Some e => if decide (e = io_EOF) then (n, Some e)
                                   else (0, Some e)
                       | None => (n, None)
                       end, (h, w')))).
Proof.
  split.
  - intros h o w1 HR Hsup. split; intros Hdir Hl;
      unfold ISALHandler_Request; unfold_go; rewrite Hdir;
      fwd ltac:(rewrite ?HR, ?Hsup, ?Hl).
    + destruct (Write E (Some o) (Job_p job) w1) as [[n err] w2]. cbn.
      rewrite (ISALHandler_set_jobs_id _ _ _ Hl). reflexivity.
    + destruct (Read E (Some o) (Job_p job) w1) as [[n err] w2]. cbn.
      rewrite (ISALHandler_set_readjobs_id _ _ _ Hl). reflexivity.
  - intros h val Hsup Hl. split; intros Hdir;
      unfold QatHandler_Request, QatHandler_bind; unfold_go; rewrite Hdir;
      fwd ltac:(rewrite ?Hsup, ?Hl).
    + destruct (Write E (QATJob_w val) (Job_p job) w) as [[n [e|]] w2]; reflexivity.
    + destruct (Read E (QATJob_r val) (Job_p job) w) as [[n [e|]] w2];
        [destruct (decide (e = io_EOF))|]; reflexivity.
Qed.

(** The fallback's table holds DEFLATE; its [Request] has no case for
    it. *)
Lemma DefaultHandler_Request_DEFLATE_eq (job : Job) (h : DefaultHandler) (w : W) :
  DefaultHandler_algs h = DEFAULT_ALGORITHMS ->
  JobParams_a (Job_params job) = DEFLATE ->
  contains (DefaultHandler_algs h) DEFLATE = true
  /\ (JobParams_JobType (Job_params job) = COMPRESS ->
      DefaultHandler_Request E job (h, w)
      = Returns ((0, Some (errors_New "unsupported compression algorithm")), (h, w)))
  /\ (JobParams_JobType (Job_params job) = DECOMPRESS ->
      DefaultHandler_Request E job (h, w)
      = Returns ((0, Some (errors_New "unsupported decompression algorithm")), (h, w))).
Proof.
  intros Halgs Ha.
  split; [rewrite Halgs; reflexivity|].
  split; intros Hdir; unfold DefaultHandler_Request; unfold_go;
    rewrite Ha, Hdir; fwd ltac:(rewrite ?Halgs); reflexivity.
Qed.

(** [readjobs] in the IAA handler: left alone by [Release], only added to
    by [Request], and never read. *)
Lemma IAAHandler_readjobs_untouched (job : Job) (id : JobID) (h : IAAHandler) (w : W) :
  (forall r h' w', IAAHandler_Release E id (h, w) = Returns (r, (h', w')) ->
     IAAHandler_readjobs h' = IAAHandler_readjobs h)
  /\ (forall r h' w', IAAHandler_Request E job (h, w) = Returns (r, (h', w')) ->
        forall k, is_Some (IAAHandler_readjobs h !! k) ->
                  is_Some (IAAHandler_readjobs h' !! k))
  /\ (forall f r h' w', IAAHandler_Request E job (h, w) = Returns (r, (h', w')) ->
        exists h'',
          IAAHandler_Request E job (IAAHandler_set_readjobs f h, w)
          = Returns (r, (h'', w'))
          /\ IAAHandler_jobs h'' = IAAHandler_jobs h'
          /\ IAAHandler_jobsLock h'' = IAAHandler_jobsLock h').
Proof.
  split; [|split].
  - intros r h' w' H.
    unfold IAAHandler_Release, IAAHandler_Lock, IAAHandler_Unlock in H.
    run_cases H; reflexivity.
  - intros r h' w' H k Hk.
    unfold IAAHandler_Request, IAAHandler_Lock, IAAHandler_Unlock in H.
    run_cases H; cbn; try exact Hk.
    all: apply lookup_insert_is_Some'; right; exact Hk.
  - intros f r h' w' H. destruct h as [j rj l a].
    unfold IAAHandler_Request, IAAHandler_Lock, IAAHandler_Unlock in *.
    run_cases_all; eexists; (split; [reflexivity|]); split; reflexivity.
Qed.

(** X7.  [findJob] is a search for the binding of a job.  What it
    returns is a binding of the map whose job is [id]; it says
    [ErrJobNotFound] exactly when the map holds no such binding.  The key a
    binding is stored under plays no part. *)
Theorem findJob_spec (h : QatHandler) (id : JobID) :
  (forall qat e, findJob h id = (Some qat, e) ->
     e = None /\ QATJob_job qat = id
     /\ exists k, QatHandler_jobs h !! k = Some qat)
  /\ (findJob h id = (None, Some ErrJobNotFound)
      <-> forall k qat, QatHandler_jobs h !! k = Some qat -> QATJob_job qat <> id)
  /\ (forall e, findJob h id = (None, e) -> e = Some ErrJobNotFound).
Proof.
  unfold findJob.
  destruct (List.find _ _) as [[k qat]|] eqn:Hf.
  - apply find_some in Hf as [Hin Heq]. cbn in Heq. apply Z.eqb_eq in Heq.
    apply list_elem_of_In, elem_of_map_to_list in Hin.
    split; [|split].
    + intros q e [= <- <-]. eauto.
    + split; [discriminate|]. intros Hno. exfalso. exact (Hno _ _ Hin Heq).
    + intros e [=].
  - split; [|split].
    + intros q e [=].
    + split; [|reflexivity]. intros _ k qat Hl Heq.
      assert (Hin : In (k, qat) (map_to_list (QatHandler_jobs h))).
      { apply list_elem_of_In, elem_of_map_to_list. exact Hl. }
      apply (find_none _ _ Hf) in Hin. cbn in Hin.
      rewrite Heq, Z.eqb_refl in Hin. discriminate.
    + intros e [= <-]. reflexivity.
Qed.

End HandlerCalls.

(** ** Runs of the Manager: exhaustion, invalid strategies, ids *)

(** The capability table of the handler that serves a strategy. *)
Definition table_of (m : Manager) (s : StrategyType) : list Algorithm :=
  match getHandler s with
  | H_qat => QatHandler_algs (Manager_qat m)
  | H_isal => ISALHandler_algs (Manager_isal m)
  | H_iaa => IAAHandler_algs (Manager_iaa m)
  | H_fallback => DefaultHandler_algs (Manager_fallback m)
  end.

Section ManagerRuns.
Context {W : Type} (E : Engine W).

Lemma ISALHandler_Request_algs job h w r h' w' :
  ISALHandler_Request E job (h, w) = Returns (r, (h', w')) ->
  ISALHandler_algs h' = ISALHandler_algs h.
Proof.
  unfold ISALHandler_Request. intros H. run_cases H; reflexivity.
Qed.

Lemma DefaultHandler_Request_same job h w r h' w' :
  DefaultHandler_Request E job (h, w) = Returns (r, (h', w')) -> h' = h.
Proof.
  unfold DefaultHandler_Request, write_then_close. intros H. run_cases H; reflexivity.
Qed.

Lemma Handler_Request_tables h job (st st' : State W) r :
  Handler_Request E h job st = Returns (r, st') ->
  forall s, table_of (instance st') s = table_of (instance st) s.
Proof.
  intros H s. unfold Handler_Request, bind, modify, on_handler, zoom in H.
  unfold table_of.
  destruct h; cbn beta iota delta [fst snd log instance world] in H.
  - destruct (QatHandler_Request _ _ _) as [[x [h' w']]| |] eqn:HR; simplify_eq.
    apply QatHandler_Request_returns in HR as [Ha _].
    destruct (getHandler s); cbn; congruence.
  - destruct (ISALHandler_Request _ _ _) as [[x [h' w']]| |] eqn:HR; simplify_eq.
    apply ISALHandler_Request_algs in HR.
    destruct (getHandler s); cbn; congruence.
  - destruct (IAAHandler_Request _ _ _) as [[[n err] [h' w']]| |] eqn:HR; simplify_eq.
    apply IAAHandler_Request_returns in HR as [Ha _].
    destruct (getHandler s); cbn; congruence.
  - destruct (DefaultHandler_Request _ _ _) as [[x [h' w']]| |] eqn:HR; simplify_eq.
    apply DefaultHandler_Request_same in HR. subst h'.
    destruct (getHandler s); reflexivity.
Qed.

Lemma Handler_Release_tables h id (st st' : State W) r :
  Handler_Release E h id st = Returns (r, st') ->
  forall s, table_of (instance st') s = table_of (instance st) s.
Proof.
  intros H s. unfold Handler_Release, bind, modify, on_handler, zoom in H.
  unfold table_of.
  destruct h; cbn beta iota delta [fst snd log instance world] in H.
  - destruct (QatHandler_Release_returns E id (Manager_qat (instance st)) (world st))
      as (r0 & h0 & w0 & H0 & Ha & _).
    rewrite H0 in H. simplify_eq. destruct (getHandler s); cbn; congruence.
  - destruct (ISALHandler_Release_returns E id (Manager_isal (instance st)) (world st))
      as (r0 & h0 & w0 & H0 & Ha).
    rewrite H0 in H. simplify_eq. destruct (getHandler s); cbn; congruence.
  - destruct (IAAHandler_Release E id _) as [[x [h' w']]| |] eqn:HR; simplify_eq.
    unfold IAAHandler_Release, IAAHandler_Lock, IAAHandler_Unlock in HR.
    run_cases HR; destruct (getHandler s); reflexivity.
  - cbn in H. simplify_eq. destruct (getHandler s); reflexivity.
Qed.

Lemma skip_all_tables job pre (st st1 : State W) :
  skip_all E job pre st = Some st1 ->
  forall s, table_of (instance st1) s = table_of (instance st) s.
Proof.
  revert st. induction pre as [|c pre IH]; intros st H s; cbn [skip_all] in H.
  - congruence.
  - destruct (IsValid c); [|discriminate].
    destruct (Handler_Request E (getHandler c) job st) as [[[n err] st2]| |] eqn:HR;
      try discriminate.
    destruct (is_skip err); [|discriminate].
    rewrite (IH _ H). exact (Handler_Request_tables _ _ _ _ _ HR s).
Qed.

(** A request for an algorithm outside the table of the handler it goes to
    is answered with a skip-class error. *)
Lemma Handler_Request_unsupported s job (st : State W) :
  contains (table_of (instance st) s) (JobParams_a (Job_params job)) = false ->
  exists n err st1,
    Handler_Request E (getHandler s) job st = Returns ((n, err), st1)
    /\ is_skip err = true.
Proof.
  intros Hun. unfold table_of in Hun.
  unfold Handler_Request, bind, modify, on_handler, zoom.
  destruct (getHandler s); cbn beta iota delta [fst snd log instance world].
  - rewrite (QatHandler_Request_unsupported E _ _ _ Hun).
    eexists _, _, _. split; reflexivity.
  - destruct (fst (Ready E lib_isal (world st))) eqn:Hr.
    + rewrite (ISALHandler_Request_unsupported E _ _ _ Hr Hun).
      eexists _, _, _. split; reflexivity.
    + rewrite (ISALHandler_Request_not_ready E _ _ _ Hr).
      eexists _, _, _. split; reflexivity.
  - destruct (fst (Ready E lib_ixl (world st))) eqn:Hr.
    + rewrite (IAAHandler_Request_unsupported E _ _ _ Hr Hun).
      eexists _, _, _. split; reflexivity.
    + rewrite (IAAHandler_Request_not_ready E _ _ _ Hr).
      eexists _, _, _. split; reflexivity.
  - rewrite (DefaultHandler_Request_unsupported E _ _ _ Hun).
    eexists _, _, _. split; reflexivity.
Qed.

Lemma unsupported_skip_all l job (st : State W) :
  Forall (fun s => IsValid s = true
                   /\ contains (table_of (instance st) s) (JobParams_a (Job_params job))
                      = false) l ->
  exists st1, skip_all E job l st = Some st1.
Proof.
  revert st. induction l as [|s l IH]; intros st Hl; cbn [skip_all].
  - eauto.
  - apply Forall_cons in Hl as [[Hv Hun] Hl].
    destruct (Handler_Request_unsupported s job st Hun) as (n & err & st1 & Hreq & Hskip).
    rewrite Hv, Hreq, Hskip. apply IH.
    eapply Forall_impl; [exact Hl|]. cbn. intros c [Hc1 Hc2].
    rewrite (Handler_Request_tables _ _ _ _ _ Hreq c). auto.
Qed.

(** X8.  Exhaustion, read off the tables.  When no candidate of the policy's
    list is served by a handler whose table holds the algorithm, a new
    operation ends with [errNoWorkingStrategies] and zero bytes, whatever the
    engine does: each candidate is asked once, in order, nothing is
    registered and nothing is freed. *)
Theorem SubmitWithPolicy_unsupported_everywhere p jp policy (st : State W) :
  continuation (instance st) jp = None ->
  Forall (fun s => IsValid s = true
                   /\ contains (table_of (instance st) s) (JobParams_a jp) = false)
         (policy (policy_params st p jp)) ->
  exists st1,
    SubmitWithPolicy E p jp policy st
      = Returns ((0, fresh_id st, Some errNoWorkingStrategies), st1)
    /\ Manager_jobs (instance st1) = Manager_jobs (instance st)
    /\ freeIDs st1 = freeIDs st
    /\ calls st1
       = calls st ++ call_policy
           :: Request_calls (fresh_job st p jp) (policy (policy_params st p jp)).
Proof.
  intros Hnew Hl.
  destruct (unsupported_skip_all (policy (policy_params st p jp)) (fresh_job st p jp)
              (started st) Hl) as [st1 Hskip].
  exists st1. rewrite (SubmitWithPolicy_new _ _ _ _ _ Hnew).
  split; [exact (skip_all_exhausted _ _ _ _ _ Hskip)|].
  apply skip_all_frame in Hskip as (Hj & _ & Hf & Hc).
  split; [exact Hj|]. split; [exact Hf|]. rewrite Hc. cbn.
  rewrite <- app_assoc. reflexivity.
Qed.

(** X9.  A candidate that is not a strategy of the bank ends a new operation:
    after a skipped prefix the call returns the invalid-strategy error with
    zero bytes; the requests made are those on the prefix, the job is not
    registered, and the id minted for it is spent. *)
Theorem SubmitWithPolicy_invalid_strategy p jp policy (st st1 : State W) pre s rest :
  continuation (instance st) jp = None ->
  policy (policy_params st p jp) = pre ++ s :: rest ->
  skip_all E (fresh_job st p jp) pre (started st) = Some st1 ->
  IsValid s = false ->
  SubmitWithPolicy E p jp policy st
    = Returns ((0, fresh_id st,
                Some (errors_New "invalid strategy given by the policy")), st1)
  /\ calls st1 = calls st ++ call_policy :: Request_calls (fresh_job st p jp) pre
  /\ Manager_jobs (instance st1) = Manager_jobs (instance st)
  /\ freeIDs st1 = freeIDs st
  /\ nextID st1 = fresh_id st.
Proof.
  intros Hnew Hpol Hpre Hval.
  rewrite (SubmitWithPolicy_new _ _ _ _ _ Hnew), Hpol.
  rewrite (skip_all_app _ _ _ _ _ _ Hpre).
  cbn [tryStrategies]. rewrite Hval. cbn [negb].
  split; [reflexivity|].
  apply skip_all_frame in Hpre as (Hj & Hn & Hf & Hc).
  rewrite Hc. cbn. rewrite <- app_assoc. auto.
Qed.

(** What a returned continuation has done to the registry, the counter and
    the free list. *)
Lemma SubmitWithPolicy_resume_returns p jp policy (st st' : State W) n id err cur :
  continuation (instance st) jp = Some cur ->
  SubmitWithPolicy E p jp policy st = Returns ((n, id, err), st') ->
  Manager_jobs (instance st) !! JobParams_id jp = Some cur
  /\ JobParams_JobType jp = DECOMPRESS
  /\ id = Job_id cur /\ nextID st' = nextID st
  /\ if bool_decide (err = Some io_EOF)
     then Manager_jobs (instance st')
          = delete (Job_id cur)
              (<[JobParams_id jp := Job_set_p p cur]> (Manager_jobs (instance st)))
          /\ freeIDs st' = freeIDs st ++ [Job_id cur]
     else Manager_jobs (instance st')
          = <[JobParams_id jp := Job_set_p p cur]> (Manager_jobs (instance st))
          /\ freeIDs st' = freeIDs st.
Proof.
  intros Hcont H. unfold continuation in Hcont.
  destruct (Manager_jobs (instance st) !! JobParams_id jp) as [cur'|] eqn:Hl;
    [|discriminate].
  destruct (JobParams_JobType jp =? DECOMPRESS) eqn:Hdir; [|discriminate].
  inversion Hcont; subst cur'. apply Z.eqb_eq in Hdir.
  split; [reflexivity|]. split; [exact Hdir|].
  destruct (Job_h cur) as [h|] eqn:Hh.
  2:{ unfold SubmitWithPolicy, continuation, bind, gets, modify in H.
      rewrite Hl, Hdir in H. cbn in H. rewrite Hh in H. discriminate. }
  rewrite (SubmitWithPolicy_resume _ _ _ _ _ _ _ Hl Hdir Hh) in H.
  destruct (Handler_Request E h (Job_set_p p cur) (resumed p jp cur st))
    as [[[n1 err1] st1]| |] eqn:Hreq; try discriminate.
  apply Handler_Request_frame in Hreq as (Hj & _ & _ & Hn & _ & Hf & _).
  destruct (bool_decide (err1 = Some io_EOF)) eqn:Heof.
  - destruct (retire E h (Job_id cur) st1) as [[u st2]| |] eqn:Hret; try discriminate.
    inversion H; subst. apply retire_inv in Hret as (r & st3 & Hrel & ->).
    apply Handler_Release_frame in Hrel as (Hj3 & _ & _ & Hn3 & _ & Hf3 & _).
    rewrite Heof. cbn. rewrite Hj3, Hn3, Hf3, Hj, Hn, Hf. auto.
  - cbn in H. inversion H; subst. rewrite Heof, Hj, Hn, Hf. auto.
Qed.

(** X10.  The id a call returns and what it costs.  A new operation returns the
    id minted for it and the counter has moved to that id, whether the
    operation succeeded, was aborted or found no strategy; a continuation
    returns the id of the registered job and leaves the counter alone. *)
Theorem SubmitWithPolicy_id_accounting p jp policy (st st' : State W) n id err :
  SubmitWithPolicy E p jp policy st = Returns ((n, id, err), st') ->
  match continuation (instance st) jp with
  | None =>
      id = fresh_id st /\ nextID st' = fresh_id st
      /\ (- 2 ^ 63 <= nextID st < MaxInt64 -> id = nextID st + 1)
  | Some cur => id = Job_id cur /\ nextID st' = nextID st
  end.
Proof.
  intros H. destruct (continuation (instance st) jp) as [cur|] eqn:Hcont.
  - destruct (SubmitWithPolicy_resume_returns _ _ _ _ _ _ _ _ _ Hcont H)
      as (_ & _ & Hid & Hn & _). auto.
  - rewrite (SubmitWithPolicy_new _ _ _ _ _ Hcont) in H.
    apply tryStrategies_returns in H as (-> & Hn & _).
    cbn in Hn |- *. split; [reflexivity|]. split; [exact Hn|].
    intros Hrange. unfold fresh_id. apply wrap64_small. lia.
Qed.


(** ** Invariants of the Manager *)

Lemma tables_installed_table_of (m : Manager) :
  tables_installed m
  <-> table_of m QAT = QAT_ALGORITHMS /\ table_of m ISAL = ISAL_ALGORITHMS
      /\ table_of m IAA = IAA_ALGORITHMS /\ table_of m DEFAULT = DEFAULT_ALGORITHMS.
Proof. reflexivity. Qed.

Lemma Handler_Request_keyed h job (st st' : State W) r :
  Handler_Request E h job st = Returns (r, st') ->
  QatHandler_keyed (Manager_qat (instance st)) ->
  QatHandler_keyed (Manager_qat (instance st')).
Proof.
  intros H Hk. unfold Handler_Request, bind, modify, on_handler, zoom in H.
  destruct h; cbn beta iota delta [fst snd log instance world] in H.
  - destruct (QatHandler_Request _ _ _) as [[x [h' w']]| |] eqn:HR; simplify_eq.
    cbn. exact (QatHandler_Request_keyed _ _ _ _ _ _ _ Hk HR).
  - destruct (ISALHandler_Request _ _ _) as [[? [? ?]]| |]; simplify_eq. exact Hk.
  - destruct (IAAHandler_Request _ _ _) as [[? [? ?]]| |]; simplify_eq. exact Hk.
  - destruct (DefaultHandler_Request _ _ _) as [[? [? ?]]| |]; simplify_eq. exact Hk.
Qed.

Lemma Handler_Release_keyed h id (st st' : State W) r :
  Handler_Release E h id st = Returns (r, st') ->
  QatHandler_keyed (Manager_qat (instance st)) ->
  QatHandler_keyed (Manager_qat (instance st')).
Proof.
  intros H Hk. unfold Handler_Release, bind, modify, on_handler, zoom in H.
  destruct h; cbn beta iota delta [fst snd log instance world] in H.
  - destruct (QatHandler_Release _ _ _) as [[x [h' w']]| |] eqn:HR; simplify_eq.
    cbn. exact (QatHandler_Release_keyed _ _ _ _ _ _ _ Hk HR).
  - destruct (ISALHandler_Release _ _ _) as [[? [? ?]]| |]; simplify_eq. exact Hk.
  - destruct (IAAHandler_Release _ _ _) as [[? [? ?]]| |]; simplify_eq. exact Hk.
  - destruct (DefaultHandler_Release _ _) as [[? [? ?]]| |]; simplify_eq. exact Hk.
Qed.

(** What is fixed when the Manager is made and what its calls keep. *)
Definition Manager_wf (st : State W) : Prop :=
  ids_minted st /\ iaa_minted st /\ decompress_unbound st
  /\ QatHandler_keyed (Manager_qat (instance st))
  /\ tables_installed (instance st)
  /\ Manager_strategies (instance st) = strategyBank
  /\ Manager_GlobalPolicy (instance st) = BufferSizePolicy.

Definition Manager_fixed (m : Manager) : Prop :=
  QatHandler_keyed (Manager_qat m) /\ tables_installed m
  /\ Manager_strategies m = strategyBank
  /\ Manager_GlobalPolicy m = BufferSizePolicy.

Lemma SubmitWithPolicy_fixed p jp policy (st st' : State W) r :
  Manager_fixed (instance st) ->
  SubmitWithPolicy E p jp policy st = Returns (r, st') ->
  Manager_fixed (instance st').
Proof.
  intros Hfix H.
  refine (SubmitWithPolicy_invariant E Manager_fixed p jp policy st st' r _ _ _ Hfix H).
  - intros f m Hm. exact Hm.
  - intros h j s s' x HR (Hk & Ht & Hs & Hp).
    pose proof (Handler_Request_frame _ _ _ _ _ _ HR) as (_ & Hs' & Hp' & _).
    split; [exact (Handler_Request_keyed _ _ _ _ _ HR Hk)|].
    split; [|rewrite Hs', Hp'; auto].
    apply tables_installed_table_of. apply tables_installed_table_of in Ht.
    rewrite !(Handler_Request_tables _ _ _ _ _ HR). exact Ht.
  - intros h i s s' x HR (Hk & Ht & Hs & Hp).
    pose proof (Handler_Release_frame _ _ _ _ _ _ HR) as (_ & Hs' & Hp' & _).
    split; [exact (Handler_Release_keyed _ _ _ _ _ HR Hk)|].
    split; [|rewrite Hs', Hp'; auto].
    apply tables_installed_table_of. apply tables_installed_table_of in Ht.
    rewrite !(Handler_Release_tables _ _ _ _ _ HR). exact Ht.
Qed.

(** X11.  The states the Manager reaches.  [Manager_wf] holds of the initial
    state and every returning [SubmitWithPolicy] or [SubmitJob] keeps it,
    as long as the id counter has not run out: registered jobs sit under
    their own id and are bound to a handler, the registered, freed and
    IAA-bound ids are at most the counter, a registered job that is not a
    compress job has no IAA write binding, each QAT binding is stored under
    the id of its job, and the capability tables, the strategy bank and the
    global policy are those of [initManager]. *)
Theorem Manager_wf_invariant :
  (forall w : W, Manager_wf (init w))
  /\ (forall p jp policy (st st' : State W) r,
        Manager_wf st -> - 2 ^ 63 <= nextID st < MaxInt64 ->
        SubmitWithPolicy E p jp policy st = Returns (r, st') ->
        Manager_wf st')
  /\ (forall p jp (st st' : State W) r,
        Manager_wf st -> - 2 ^ 63 <= nextID st < MaxInt64 ->
        SubmitJob E p jp st = Returns (r, st') ->
        Manager_wf st').
Proof.
  assert (Hstep : forall p jp policy (st st' : State W) r,
            Manager_wf st -> - 2 ^ 63 <= nextID st < MaxInt64 ->
            SubmitWithPolicy E p jp policy st = Returns (r, st') ->
            Manager_wf st').
  { intros p jp policy st st' r (Hi & Ha & Hd & Hfix) Hrange H.
    split; [exact (SubmitWithPolicy_ids_minted _ _ _ _ _ _ _ Hi Hrange H)|].
    split; [exact (SubmitWithPolicy_iaa_minted _ _ _ _ _ _ _ Hi Ha Hrange H)|].
    split; [exact (SubmitWithPolicy_decompress_unbound _ _ _ _ _ _ _ Hi Ha Hd Hrange H)|].
    exact (SubmitWithPolicy_fixed _ _ _ _ _ _ Hfix H). }
  split; [|split; [exact Hstep|]].
  - intros w. split; [apply init_ids_minted|]. split; [apply init_iaa_minted|].
    split; [apply init_decompress_unbound|].
    split; [|repeat split].
    intros k qat Hl. cbn in Hl. rewrite lookup_empty in Hl. discriminate.
  - intros p jp st st' r Hwf Hrange H. unfold SubmitJob, bind, gets in H.
    exact (Hstep _ _ _ _ _ _ Hwf Hrange H).
Qed.

(** ** What is never released, and what does not return *)

Lemma Handler_Request_readjobs h job (st st' : State W) r k :
  Handler_Request E h job st = Returns (r, st') ->
  is_Some (IAAHandler_readjobs (Manager_iaa (instance st)) !! k) ->
  is_Some (IAAHandler_readjobs (Manager_iaa (instance st')) !! k).
Proof.
  intros H Hk. unfold Handler_Request, bind, modify, on_handler, zoom in H.
  destruct h; cbn beta iota delta [fst snd log instance world] in H.
  - destruct (QatHandler_Request _ _ _) as [[? [? ?]]| |]; simplify_eq. exact Hk.
  - destruct (ISALHandler_Request _ _ _) as [[? [? ?]]| |]; simplify_eq. exact Hk.
  - destruct (IAAHandler_Request _ _ _) as [[x [h' w']]| |] eqn:HR; simplify_eq.
    cbn. destruct (IAAHandler_readjobs_untouched E job 0 (Manager_iaa (instance st)) (world st))
      as (_ & Hgrow & _).
    exact (Hgrow _ _ _ HR k Hk).
  - destruct (DefaultHandler_Request _ _ _) as [[? [? ?]]| |]; simplify_eq. exact Hk.
Qed.

Lemma Handler_Release_readjobs h id (st st' : State W) r :
  Handler_Release E h id st = Returns (r, st') ->
  IAAHandler_readjobs (Manager_iaa (instance st'))
  = IAAHandler_readjobs (Manager_iaa (instance st)).
Proof.
  intros H. unfold Handler_Release, bind, modify, on_handler, zoom in H.
  destruct h; cbn beta iota delta [fst snd log instance world] in H.
  - destruct (QatHandler_Release _ _ _) as [[? [? ?]]| |]; simplify_eq. reflexivity.
  - destruct (ISALHandler_Release _ _ _) as [[? [? ?]]| |]; simplify_eq. reflexivity.
  - destruct (IAAHandler_Release _ _ _) as [[x [h' w']]| |] eqn:HR; simplify_eq.
    cbn. destruct (IAAHandler_readjobs_untouched E (new_Job 0) id (Manager_iaa (instance st))
                (world st)) as (Hrel & _).
    exact (Hrel _ _ _ HR).
  - destruct (DefaultHandler_Release _ _) as [[? [? ?]]| |]; simplify_eq. reflexivity.
Qed.

(** X12.  The IAA handler's [readjobs] map is written and nothing else.
    [Release] looks in [jobs] only and leaves [readjobs] as it is; a
    [Request] adds or overwrites one entry at most, and what it returns and
    does to the world is the same whatever [readjobs] holds: a stored reader
    is never used again.  So no call of the Manager ever takes a read
    binding out: an id bound there stays bound. *)
Theorem IAAHandler_readjobs_write_only (job : Job) (id : JobID) (h : IAAHandler) (w : W) :
  (forall r h' w', IAAHandler_Release E id (h, w) = Returns (r, (h', w')) ->
     IAAHandler_readjobs h' = IAAHandler_readjobs h)
  /\ (forall r h' w', IAAHandler_Request E job (h, w) = Returns (r, (h', w')) ->
        forall k, is_Some (IAAHandler_readjobs h !! k) ->
                  is_Some (IAAHandler_readjobs h' !! k))
  /\ (forall f r h' w', IAAHandler_Request E job (h, w) = Returns (r, (h', w')) ->
        exists h'',
          IAAHandler_Request E job (IAAHandler_set_readjobs f h, w)
          = Returns (r, (h'', w'))
          /\ IAAHandler_jobs h'' = IAAHandler_jobs h'
          /\ IAAHandler_jobsLock h'' = IAAHandler_jobsLock h')
  /\ (forall p jp policy (st st' : State W) r k,
        SubmitWithPolicy E p jp policy st = Returns (r, st') ->
        is_Some (IAAHandler_readjobs (Manager_iaa (instance st)) !! k) ->
        is_Some (IAAHandler_readjobs (Manager_iaa (instance st')) !! k)).
Proof.
  destruct (IAAHandler_readjobs_untouched E job id h w) as (H1 & H2 & H3).
  split; [exact H1|]. split; [exact H2|]. split; [exact H3|].
  intros p jp policy st st' r k H Hk.
  refine (SubmitWithPolicy_invariant E
            (fun m => is_Some (IAAHandler_readjobs (Manager_iaa m) !! k))
            p jp policy st st' r _ _ _ Hk H).
  - intros f m Hm. exact Hm.
  - intros h0 j s s' x HR Hs. exact (Handler_Request_readjobs _ _ _ _ _ _ HR Hs).
  - intros h0 i s s' x HR Hs. rewrite (Handler_Release_readjobs _ _ _ _ _ HR). exact Hs.
Qed.

(** X13.  A new request that finds the QAT pool full does not come back with
    [ErrNotAvailable].  [newQatJob] returns a nil binding with that error,
    and for a compress or a decompress job [Request] goes through the
    binding before it looks at the error: the call panics, and so does the
    new operation whose policy has led it to QAT.  Only a job whose
    direction is neither gets [ErrNotAvailable] back. *)
Theorem QatHandler_Request_full_pool p jp policy (st st1 : State W) pre rest :
  (forall job h w,
     contains (QatHandler_algs h) (JobParams_a (Job_params job)) = true ->
     QatHandler_jobs h !! Job_id job = None ->
     Z.of_nat (size (QatHandler_jobs h)) >= MAX_QAT_BINDINGS ->
     (JobParams_JobType (Job_params job) = COMPRESS
      \/ JobParams_JobType (Job_params job) = DECOMPRESS ->
      QatHandler_Request E job (h, w)
      = Panics "invalid memory address or nil pointer dereference")
     /\ (JobParams_JobType (Job_params job) <> COMPRESS ->
         JobParams_JobType (Job_params job) <> DECOMPRESS ->
         QatHandler_Request E job (h, w) = Returns ((0, Some ErrNotAvailable), (h, w))))
  /\ (continuation (instance st) jp = None ->
      policy (policy_params st p jp) = pre ++ QAT :: rest ->
      skip_all E (fresh_job st p jp) pre (started st) = Some st1 ->
      JobParams_JobType jp = COMPRESS \/ JobParams_JobType jp = DECOMPRESS ->
      contains (QatHandler_algs (Manager_qat (instance st1))) (JobParams_a jp) = true ->
      QatHandler_jobs (Manager_qat (instance st1)) !! fresh_id st = None ->
      Z.of_nat (size (QatHandler_jobs (Manager_qat (instance st1)))) >= MAX_QAT_BINDINGS ->
      SubmitWithPolicy E p jp policy st
      = Panics "invalid memory address or nil pointer dereference").
Proof.
  split; [intros job h w; apply QatHandler_Request_at_cap|].
  intros Hnew Hpol Hpre Hdir Hsup Hun Hfull.
  rewrite (SubmitWithPolicy_new _ _ _ _ _ Hnew), Hpol.
  rewrite (skip_all_app _ _ _ _ _ _ Hpre).
  cbn [tryStrategies]. cbn.
  unfold Handler_Request, bind, modify, on_handler, zoom.
  cbn beta iota delta [fst snd log instance world].
  destruct (QatHandler_Request_at_cap E (fresh_job st p jp)
              (Manager_qat (instance st1)) (world st1) Hsup Hun Hfull) as [Hp _].
  rewrite (Hp Hdir). reflexivity.
Qed.

(** X14.  DEFLATE and the software fallback.  The fallback's table lists
    DEFLATE, but its [Request] has no case for it: the request makes no
    library call and returns a fresh "unsupported ... algorithm" error, which
    is not one of the skip-class sentinels.  A new DEFLATE operation that
    reaches DEFAULT is therefore aborted with that error; nothing is
    registered and no later candidate is asked. *)
Theorem SubmitWithPolicy_DEFLATE_on_fallback p jp policy (st st1 : State W) pre rest :
  continuation (instance st) jp = None ->
  policy (policy_params st p jp) = pre ++ DEFAULT :: rest ->
  skip_all E (fresh_job st p jp) pre (started st) = Some st1 ->
  DefaultHandler_algs (Manager_fallback (instance st)) = DEFAULT_ALGORITHMS ->
  JobParams_a jp = DEFLATE ->
  JobParams_JobType jp = COMPRESS \/ JobParams_JobType jp = DECOMPRESS ->
  contains DEFAULT_ALGORITHMS DEFLATE = true
  /\ exists msg,
       is_skip (Some (errors_New msg)) = false
       /\ DefaultHandler_Request E (fresh_job st p jp)
            (Manager_fallback (instance st1), world st1)
          = Returns ((0, Some (errors_New msg)),
                     (Manager_fallback (instance st1), world st1))
       /\ SubmitWithPolicy E p jp policy st
          = Returns ((0, fresh_id st, Some (errors_New msg)),
                     log (call_Request H_fallback (fresh_id st)) st1)
       /\ Manager_jobs (instance st1) = Manager_jobs (instance st)
       /\ calls st1 = calls st ++ call_policy :: Request_calls (fresh_job st p jp) pre.
Proof.
  intros Hnew Hpol Hpre Halgs Ha Hdir.
  split; [reflexivity|].
  assert (Halgs1 : DefaultHandler_algs (Manager_fallback (instance st1))
                   = DEFAULT_ALGORITHMS).
  { pose proof (skip_all_tables _ _ _ _ Hpre DEFAULT) as Ht.
    unfold table_of in Ht. cbn in Ht. rewrite Ht. exact Halgs. }
  destruct (DefaultHandler_Request_DEFLATE_eq E (fresh_job st p jp)
              (Manager_fallback (instance st1)) (world st1) Halgs1 Ha)
    as (_ & Hc & Hd).
  assert (Hreq : exists msg,
            DefaultHandler_Request E (fresh_job st p jp)
              (Manager_fallback (instance st1), world st1)
            = Returns ((0, Some (errors_New msg)),
                       (Manager_fallback (instance st1), world st1))).
  { destruct Hdir as [Hdir|Hdir]; eexists; [apply Hc | apply Hd]; exact Hdir. }
  destruct Hreq as [msg Hreq]. exists msg.
  split; [reflexivity|]. split; [exact Hreq|].
  pose proof (skip_all_frame _ _ _ _ _ Hpre) as (Hj & _ & _ & Hcalls).
  split; [|split; [exact Hj|]].
  - rewrite (SubmitWithPolicy_new _ _ _ _ _ Hnew), Hpol.
    rewrite (skip_all_app _ _ _ _ _ _ Hpre).
    assert (HR : Handler_Request E (getHandler DEFAULT) (fresh_job st p jp) st1
                 = Returns ((0, Some (errors_New msg)),
                            log (call_Request H_fallback (fresh_id st)) st1)).
    { unfold Handler_Request, bind, modify, on_handler, zoom.
      cbn beta iota delta [fst snd log instance world getHandler].
      cbn. cbn in Hreq. rewrite Hreq. cbn.
      destruct st1 as [[] ? ? ? ? ?]. reflexivity. }
    rewrite (tryStrategies_turn E _ DEFAULT _ _ _ _ _ eq_refl HR). reflexivity.
  - rewrite Hcalls. cbn. rewrite <- app_assoc. reflexivity.
Qed.

Lemma retire_isal id (st : State W) :
  exists st',
    retire E H_isal id st = Returns (tt, st')
    /\ ISALHandler_jobs (Manager_isal (instance st')) !! id = None
    /\ ISALHandler_readjobs (Manager_isal (instance st')) !! id = None
    /\ Manager_jobs (instance st') !! id = None.
Proof.
  destruct (ISALHandler_Release_deletes E id (Manager_isal (instance st)) (world st))
    as (r & h' & w' & Hrel & Hj & Hr & _).
  assert (HR : Handler_Release E H_isal id st
               = Returns (r, set_world w' (set_instance (Manager_set_isal h')
                                             (log (call_Release H_isal id) st)))).
  { unfold Handler_Release, bind, modify, on_handler, zoom.
    cbn beta iota delta [fst snd log instance world]. rewrite Hrel. reflexivity. }
  eexists. split; [exact (retire_returns _ _ _ _ _ _ HR)|].
  cbn. rewrite Hj, Hr, !lookup_delete_eq. auto.
Qed.

(** X15.  ISA-L keeps nothing of a finished job.  When a new operation
    completes on ISA-L (a compress request answered nil, a decompress
    request answered [io.EOF]), and when a continuation on ISA-L reaches
    [io.EOF], the call returns, and afterwards the job's id is in neither of
    the ISA-L handler's maps nor in the registry: [ISALHandler.Release]
    removes both bindings whatever [Close] says. *)
Theorem SubmitWithPolicy_ISAL_cleanup p jp policy (st : State W) :
  (forall st1 st2 pre rest n err,
     continuation (instance st) jp = None ->
     policy (policy_params st p jp) = pre ++ ISAL :: rest ->
     skip_all E (fresh_job st p jp) pre (started st) = Some st1 ->
     Handler_Request E H_isal (fresh_job st p jp) st1 = Returns ((n, err), st2) ->
     JobParams_JobType jp = COMPRESS /\ err = None
     \/ JobParams_JobType jp = DECOMPRESS /\ err = Some io_EOF ->
     exists st',
       SubmitWithPolicy E p jp policy st = Returns ((n, fresh_id st, err), st')
       /\ ISALHandler_jobs (Manager_isal (instance st')) !! fresh_id st = None
       /\ ISALHandler_readjobs (Manager_isal (instance st')) !! fresh_id st = None
       /\ Manager_jobs (instance st') !! fresh_id st = None)
  /\ (forall cur st1 n,
        Manager_jobs (instance st) !! JobParams_id jp = Some cur ->
        JobParams_JobType jp = DECOMPRESS ->
        Job_id cur = JobParams_id jp ->
        Job_h cur = Some H_isal ->
        Handler_Request E H_isal (Job_set_p p cur) (resumed p jp cur st)
          = Returns ((n, Some io_EOF), st1) ->
        exists st',
          SubmitWithPolicy E p jp policy st
            = Returns ((n, JobParams_id jp, Some io_EOF), st')
          /\ ISALHandler_jobs (Manager_isal (instance st')) !! JobParams_id jp = None
          /\ ISALHandler_readjobs (Manager_isal (instance st')) !! JobParams_id jp = None
          /\ Manager_jobs (instance st') !! JobParams_id jp = None).
Proof.
  split.
  - intros st1 st2 pre rest n err Hnew Hpol Hpre Hreq Hdone.
    rewrite (SubmitWithPolicy_new _ _ _ _ _ Hnew), Hpol.
    rewrite (skip_all_app _ _ _ _ _ _ Hpre).
    rewrite (tryStrategies_turn E _ ISAL _ _ _ _ _ eq_refl Hreq).
    assert (Hc : completes (Job_set_h (Some (getHandler ISAL)) (fresh_job st p jp)) err
                 = true).
    { unfold completes. cbn [Job_set_h Job_params fresh_job].
      destruct Hdone as [[-> ->]|[-> ->]]; reflexivity. }
    assert (Hs : is_skip err = false)
      by (destruct Hdone as [[_ ->]|[_ ->]]; reflexivity).
    assert (Hok : bool_decide (err <> None) && bool_decide (err <> Some io_EOF) = false)
      by (destruct Hdone as [[_ ->]|[_ ->]]; reflexivity).
    rewrite Hs, Hok, Hc.
    destruct (retire_isal (fresh_id st)
                (register (Job_set_h (Some (getHandler ISAL)) (fresh_job st p jp)) st2))
      as (st' & Hret & H1 & H2 & H3).
    change (getHandler ISAL) with H_isal in *.
    change (Job_id (fresh_job st p jp)) with (fresh_id st).
    rewrite Hret. eauto.
  - intros cur st1 n Hreg Hdir Hid Hh Hreq.
    rewrite (SubmitWithPolicy_resume _ _ _ _ _ _ _ Hreg Hdir Hh), Hreq, Hid.
    rewrite bool_decide_eq_true_2 by reflexivity.
    destruct (retire_isal (JobParams_id jp) st1) as (st' & Hret & H1 & H2 & H3).
    rewrite Hret. eauto.
Qed.

End ManagerRuns.

(** ** The two copies of the policy *)

(** X16.  The two copies of the policy.  The repository carries
    [BufferSizePolicy] twice, with the threshold at 1500 bytes in package
    [glidepack] and at 65536 bytes in package [dcl].  They give the same
    order below 1500 and from 65536 bytes on, and opposite orders in
    between; each answers with the three hardware strategies, all valid and
    none of them DEFAULT, so a call under either policy never meets the
    invalid-strategy error and never reaches the software fallback. *)
Theorem BufferSizePolicy_copies (params : PolicyParameters) :
  (BufferSize params < 1500 \/ 65536 <= BufferSize params ->
   dcl_BufferSizePolicy params = BufferSizePolicy params)
  /\ (1500 <= BufferSize params < 65536 ->
      dcl_BufferSizePolicy params = rev (BufferSizePolicy params))
  /\ Forall (fun s => IsValid s = true /\ getHandler s <> H_fallback)
            (BufferSizePolicy params)
  /\ Forall (fun s => IsValid s = true /\ getHandler s <> H_fallback)
            (dcl_BufferSizePolicy params)
  /\ (forall params', BufferSize params' = BufferSize params ->
        dcl_BufferSizePolicy params' = dcl_BufferSizePolicy params).
Proof.
  unfold dcl_BufferSizePolicy, BufferSizePolicy.
  split; [|split; [|split; [|split]]].
  - intros [H|H].
    + rewrite (proj2 (Z.ltb_lt _ _)) by lia. rewrite (proj2 (Z.ltb_lt _ _) H).
      reflexivity.
    + rewrite (proj2 (Z.ltb_ge _ _) H). rewrite (proj2 (Z.ltb_ge _ _)) by lia.
      reflexivity.
  - intros [H1 H2].
    rewrite (proj2 (Z.ltb_lt _ _) H2). rewrite (proj2 (Z.ltb_ge _ _) H1). reflexivity.
  - destruct (BufferSize params <? 1500);
      repeat (apply List.Forall_cons; [split; [reflexivity|discriminate]|]);
      apply List.Forall_nil.
  - destruct (BufferSize params <? 65536);
      repeat (apply List.Forall_cons; [split; [reflexivity|discriminate]|]);
      apply List.Forall_nil.
  - intros params' ->. reflexivity.
Qed.

(** ** The stream facade: options, closing, and the ids *)

(** What the options can change of a Writer: the algorithm and the level,
    each only to a value that passed its check. *)
Lemma apply_options_Writer options z :
  match apply_options options (applier_Writer z) with
  | Returns (err, a) =>
      exists z', a = applier_Writer z'
        /\ Writer_closed z' = Writer_closed z /\ Writer_w z' = Writer_w z
        /\ Writer_policy z' = Writer_policy z
        /\ JobParams_JobType (Writer_p z') = JobParams_JobType (Writer_p z)
        /\ JobParams_id (Writer_p z') = JobParams_id (Writer_p z)
        /\ JobParams_w (Writer_p z') = JobParams_w (Writer_p z)
        /\ JobParams_r (Writer_p z') = JobParams_r (Writer_p z)
        /\ (Algorithm_isValid (JobParams_a (Writer_p z)) = true ->
            Algorithm_isValid (JobParams_a (Writer_p z')) = true)
        /\ (0 < JobParams_level (Writer_p z) -> 0 < JobParams_level (Writer_p z'))
  | Panics _ => In nil_Option options
  | Blocks => False
  end.
Proof.
  revert z. induction options as [|op rest IH]; intros z.
  - cbn. exists z. auto 20.
  - cbn [apply_options]. unfold bind at 1.
    destruct op as [level|alg|]; cbn [Option_call].
    + destruct (level <=? 0) eqn:Hl; cbn.
      * exists z. auto 20.
      * specialize (IH (Writer_set_p (JobParams_set_level level) z)).
        destruct (apply_options rest _) as [[err a]|why|]; [|right; exact IH|exact IH].
        destruct IH as (z' & -> & H1 & H2 & H3 & H4 & H5 & H6 & H7 & H8 & H9).
        exists z'. cbn in *. apply Z.leb_gt in Hl. auto 20.
    + destruct (Algorithm_isValid alg) eqn:Hv; cbn.
      * specialize (IH (Writer_set_p (JobParams_set_a alg) z)).
        destruct (apply_options rest _) as [[err a]|why|]; [|right; exact IH|exact IH].
        destruct IH as (z' & -> & H1 & H2 & H3 & H4 & H5 & H6 & H7 & H8 & H9).
        exists z'. cbn in *. auto 20.
      * exists z. auto 20.
    + cbn. left. reflexivity.
Qed.

Lemma apply_options_Reader options z :
  match apply_options options (applier_Reader z) with
  | Returns (err, a) =>
      exists z', a = applier_Reader z'
        /\ Reader_closed z' = Reader_closed z
        /\ Reader_policy z' = Reader_policy z
        /\ JobParams_JobType (Reader_p z') = JobParams_JobType (Reader_p z)
        /\ JobParams_id (Reader_p z') = JobParams_id (Reader_p z)
        /\ JobParams_level (Reader_p z') = JobParams_level (Reader_p z)
        /\ JobParams_w (Reader_p z') = JobParams_w (Reader_p z)
        /\ JobParams_r (Reader_p z') = JobParams_r (Reader_p z)
        /\ (Algorithm_isValid (JobParams_a (Reader_p z)) = true ->
            Algorithm_isValid (JobParams_a (Reader_p z')) = true)
  | Panics _ => In nil_Option options
  | Blocks => False
  end.
Proof.
  revert z. induction options as [|op rest IH]; intros z.
  - cbn. exists z. auto 20.
  - cbn [apply_options]. unfold bind at 1.
    destruct op as [level|alg|]; cbn [Option_call].
    + destruct (level <=? 0) eqn:Hl; cbn; exists z; auto 20.
    + destruct (Algorithm_isValid alg) eqn:Hv; cbn.
      * specialize (IH (Reader_set_p (JobParams_set_a alg) z)).
        destruct (apply_options rest _) as [[err a]|why|]; [|right; exact IH|exact IH].
        destruct IH as (z' & -> & H1 & H2 & H3 & H4 & H5 & H6 & H7 & H8).
        exists z'. cbn in *. auto 20.
      * exists z. auto 20.
    + cbn. left. reflexivity.
Qed.

Lemma apply_options_app l1 l2 (a : applier) :
  apply_options (l1 ++ l2) a
  = match apply_options l1 a with
    | Returns (None, a1) => apply_options l2 a1
    | other => other
    end.
Proof.
  revert a. induction l1 as [|op l1 IH]; intros a.
  - reflexivity.
  - cbn [app apply_options]. unfold bind.
    destruct (Option_call op a) as [[[e|] a1]|why|]; auto.
Qed.

(** X17.  [Apply] runs its options from left to right and stops at the first
    one that fails; what the earlier ones have set stays set.  Applying
    [l1 ++ l2] is applying [l1] and, when that succeeded, [l2].  A level is
    accepted by a Writer when it is positive and never by a Reader; an
    algorithm is accepted by both when it is one of the four. *)
Theorem Apply_options (l1 l2 : list Option) (level : Z) (alg : Algorithm) :
  (forall z,
     Writer_Apply (l1 ++ l2) z
     = match Writer_Apply l1 z with
       | Returns (None, z1) => Writer_Apply l2 z1
       | other => other
       end)
  /\ (forall z,
        Reader_Apply (l1 ++ l2) z
        = match Reader_Apply l1 z with
          | Returns (None, z1) => Reader_Apply l2 z1
          | other => other
          end)
  /\ (forall z, Writer_closed z = false ->
        Writer_Apply [CompressionLevelOption level] z
        = Returns (if level <=? 0 then (Some ErrParamCompressionLevel, z)
                   else (None, Writer_set_p (JobParams_set_level level) z))
        /\ Writer_Apply [AlgorithmOption alg] z
           = Returns (if Algorithm_isValid alg
                      then (None, Writer_set_p (JobParams_set_a alg) z)
                      else (Some ErrParamAlgorithm, z)))
  /\ (forall z, Reader_closed z = false ->
        Reader_Apply [CompressionLevelOption level] z
        = Returns (Some (if level <=? 0 then ErrParamCompressionLevel
                         else ErrApplyInvalidType), z)
        /\ Reader_Apply [AlgorithmOption alg] z
           = Returns (if Algorithm_isValid alg
                      then (None, Reader_set_p (JobParams_set_a alg) z)
                      else (Some ErrParamAlgorithm, z))).
Proof.
  split; [|split; [|split]].
  - intros z. unfold Writer_Apply, bind, gets, zoom, ret.
    destruct (Writer_closed z) eqn:Hc; [reflexivity|].
    rewrite apply_options_app.
    pose proof (apply_options_Writer l1 z) as H1.
    destruct (apply_options l1 (applier_Writer z)) as [[[e|] a1]|why|];
      try reflexivity; try contradiction.
    destruct H1 as (z1 & -> & Hc1 & _). rewrite Hc1, Hc.
    pose proof (apply_options_Writer l2 z1) as H2.
    destruct (apply_options l2 (applier_Writer z1)) as [[e2 a2]|why|];
      try reflexivity; try contradiction.
    destruct H2 as (z2 & -> & _). reflexivity.
  - intros z. unfold Reader_Apply, bind, gets, zoom, ret.
    destruct (Reader_closed z) eqn:Hc; [reflexivity|].
    rewrite apply_options_app.
    pose proof (apply_options_Reader l1 z) as H1.
    destruct (apply_options l1 (applier_Reader z)) as [[[e|] a1]|why|];
      try reflexivity; try contradiction.
    destruct H1 as (z1 & -> & Hc1 & _). rewrite Hc1, Hc.
    pose proof (apply_options_Reader l2 z1) as H2.
    destruct (apply_options l2 (applier_Reader z1)) as [[e2 a2]|why|];
      try reflexivity; try contradiction.
    destruct H2 as (z2 & -> & _). reflexivity.
  - intros z Hc. unfold Writer_Apply, bind, gets, zoom, ret. rewrite Hc.
    cbn. split.
    + destruct (level <=? 0); reflexivity.
    + destruct (Algorithm_isValid alg); reflexivity.
  - intros z Hc. unfold Reader_Apply, bind, gets, zoom, ret. rewrite Hc.
    cbn. split.
    + destruct (level <=? 0); reflexivity.
    + destruct (Algorithm_isValid alg); reflexivity.
Qed.

(** The job parameters of a Writer made by [NewWriter w]. *)
Definition Writer_wf (sink : option iohandle) (z : Writer) : Prop :=
  JobParams_JobType (Writer_p z) = COMPRESS
  /\ Algorithm_isValid (JobParams_a (Writer_p z)) = true
  /\ 0 < JobParams_level (Writer_p z)
  /\ JobParams_w (Writer_p z) = sink
  /\ JobParams_r (Writer_p z) = None.

Section FacadeProperties.
Context {W : Type} (E : Engine W).

(** The policy a call goes out with: the object's own, or the Manager's. *)
Definition policy_in_use (policy : option PolicyFunc) (st : State W) : PolicyFunc :=
  match policy with
  | None => Manager_GlobalPolicy (instance st)
  | Some f => f
  end.

Lemma Writer_Write_open p z (st : State W) :
  Writer_closed z = false ->
  Writer_Write E p (z, st)
  = match SubmitWithPolicy E p (Writer_p z) (policy_in_use (Writer_policy z) st) st with
    | Returns ((n, id, err), st') =>
        Returns ((n, err), (Writer_set_p (JobParams_set_id id) z, st'))
    | Panics why => Panics why
    | Blocks => Blocks
    end.
Proof.
  intros Hc. unfold Writer_Write, on_Manager, zoom, bind, gets, modify, ret, SubmitJob.
  cbn beta iota delta [fst snd]. rewrite Hc. unfold bind, gets, policy_in_use.
  destruct (Writer_policy z) as [f|]; cbn beta iota delta [fst snd];
    match goal with
    | |- context [SubmitWithPolicy E p (Writer_p z) ?f st] =>
        destruct (SubmitWithPolicy E p (Writer_p z) f st) as [[[[n id] err] st']| |]
    end; reflexivity.
Qed.

Lemma Reader_Read_eq p z (st : State W) :
  Reader_Read E p (z, st)
  = match SubmitWithPolicy E p (Reader_p z) (policy_in_use (Reader_policy z) st) st with
    | Returns ((n, id, err), st') =>
        Returns ((n, err), (Reader_set_p (JobParams_set_id id) z, st'))
    | Panics why => Panics why
    | Blocks => Blocks
    end.
Proof.
  unfold Reader_Read, on_Manager, zoom, bind, gets, modify, ret, SubmitJob.
  cbn beta iota delta [fst snd]. unfold bind, gets, policy_in_use.
  destruct (Reader_policy z) as [f|]; cbn beta iota delta [fst snd];
    match goal with
    | |- context [SubmitWithPolicy E p (Reader_p z) ?f st] =>
        destruct (SubmitWithPolicy E p (Reader_p z) f st) as [[[[n id] err] st']| |]
    end; reflexivity.
Qed.

(** X18.  Closing a Writer.  After [Close], a [Write], a second [Close] and an
    [Apply] answer [errClosed] and touch neither the Writer nor the Manager:
    no id is minted, no handler is asked.  [Reset] opens the Writer again,
    but it stores the new sink in the Writer's own field [w], which nothing
    reads: the job parameters keep the sink given to [NewWriter], so
    [Close; Reset w'; Write p] does what [Write p] does. *)
Theorem Writer_Close_Reset (z : Writer) (p : list Byte.byte) (options : list Option)
    (w' : option iohandle) (st : State W) :
  Writer_closed z = false ->
  (let* _ := on_object Writer_Close in Writer_Write E p) (z, st)
    = Returns ((0, Some errClosed), (Writer_set_closed true z, st))
  /\ (let* _ := on_object Writer_Close in on_object Writer_Close) (z, st)
     = Returns (Some errClosed, (Writer_set_closed true z, st))
  /\ (let* _ := on_object Writer_Close in on_object (Writer_Apply options)) (z, st)
     = Returns (Some errClosed, (Writer_set_closed true z, st))
  /\ (let* _ := on_object Writer_Close in
      let* _ := on_object (Writer_Reset w') in Writer_Write E p) (z, st)
     = match Writer_Write E p (z, st) with
       | Returns (r, (z', st')) => Returns (r, (Writer_set_w w' z', st'))
       | Panics why => Panics why
       | Blocks => Blocks
       end.
Proof.
  intros Hc.
  split; [|split; [|split]].
  - unfold on_object, Writer_Close, Writer_Write, zoom, bind, gets, modify, ret.
    cbn. rewrite Hc. reflexivity.
  - unfold on_object, Writer_Close, zoom, bind, gets, modify, ret.
    cbn. rewrite Hc. reflexivity.
  - unfold on_object, Writer_Close, Writer_Apply, zoom, bind, gets, modify, ret.
    cbn. rewrite Hc. reflexivity.
  - rewrite (Writer_Write_open p z st Hc).
    unfold bind at 1. unfold on_object at 1, Writer_Close, zoom, bind at 1, gets.
    cbn beta iota delta [fst snd]. rewrite Hc.
    unfold bind at 1, modify, ret. cbn beta iota delta [fst snd].
    unfold bind at 1. unfold on_object, Writer_Reset, zoom, bind at 1, modify.
    cbn beta iota delta [fst snd].
    rewrite Writer_Write_open by reflexivity.
    destruct z as [zw zc zpol zp]. cbn [Writer_closed] in Hc. subst zc.
    cbn [Writer_p Writer_policy Writer_set_closed Writer_set_w Writer_w Writer_closed
         Writer_set_p].
    match goal with
    | |- context [SubmitWithPolicy E p zp ?f st] =>
        destruct (SubmitWithPolicy E p zp f st) as [[[[n id] err] st']| |]
    end; reflexivity.
Qed.

(** X19.  [Reader.Read] does not look at [closed]: a closed Reader reads on.
    Whatever the flag says, [Read] makes the same call of the Manager and
    returns the same result. *)
Theorem Reader_Read_ignores_closed (z : Reader) (p : list Byte.byte) (b : bool)
    (st : State W) :
  Reader_Read E p (Reader_set_closed b z, st)
  = match Reader_Read E p (z, st) with
    | Returns (r, (z', st')) => Returns (r, (Reader_set_closed b z', st'))
    | Panics why => Panics why
    | Blocks => Blocks
    end
  /\ (Reader_closed z = false ->
      (let* _ := on_object Reader_Close in Reader_Read E p) (z, st)
      = match Reader_Read E p (z, st) with
        | Returns (r, (z', st')) => Returns (r, (Reader_set_closed true z', st'))
        | Panics why => Panics why
        | Blocks => Blocks
        end).
Proof.
  assert (Hgen : forall b,
    Reader_Read E p (Reader_set_closed b z, st)
    = match Reader_Read E p (z, st) with
      | Returns (r, (z', st')) => Returns (r, (Reader_set_closed b z', st'))
      | Panics why => Panics why
      | Blocks => Blocks
      end).
  { intros b0. rewrite !Reader_Read_eq.
    cbn [Reader_p Reader_policy Reader_set_closed].
    match goal with
    | |- context [SubmitWithPolicy E p (Reader_p z) ?f st] =>
        destruct (SubmitWithPolicy E p (Reader_p z) f st) as [[[[n id] err] st']| |]
    end; reflexivity. }
  split; [apply Hgen|].
  intros Hc. rewrite <- Hgen.
  unfold bind at 1. unfold on_object, Reader_Close, zoom, bind, gets, modify, ret.
  cbn. rewrite Hc. reflexivity.
Qed.

(** X20.  The job parameters of a Writer stay those of a valid compress job into
    the sink it was made with: [NewWriter] sets them so, and no method
    changes the direction or the sink ([Reset] included), the algorithm
    stays one of the four and the level stays positive, also when [Apply]
    ends with an error after some options were applied. *)
Theorem Writer_params_invariant (sink : option iohandle) :
  Writer_wf sink (NewWriter sink)
  /\ (forall z, Writer_wf sink z ->
      (forall p (st st' : State W) r z',
         Writer_Write E p (z, st) = Returns (r, (z', st')) -> Writer_wf sink z')
      /\ (forall r z', Writer_Close z = Returns (r, z') -> Writer_wf sink z')
      /\ (forall w' r z', Writer_Reset w' z = Returns (r, z') -> Writer_wf sink z')
      /\ (forall pol r z', Writer_SetPolicy pol z = Returns (r, z') -> Writer_wf sink z')
      /\ (forall options r z',
            Writer_Apply options z = Returns (r, z') -> Writer_wf sink z')).
Proof.
  split; [repeat split|].
  intros z (H1 & H2 & H3 & H4 & H5).
  split; [|split; [|split; [|split]]].
  - intros p st st' r z' H.
    destruct (Writer_closed z) eqn:Hc.
    + unfold Writer_Write, bind, gets, ret in H. cbn beta iota delta [fst] in H.
      rewrite Hc in H. inversion H; subst. repeat split; assumption.
    + rewrite (Writer_Write_open p z st Hc) in H.
      destruct (SubmitWithPolicy E p (Writer_p z) _ st) as [[[[n id] err] st1]| |];
        try discriminate.
      inversion H; subst. repeat split; assumption.
  - intros r z' H. unfold Writer_Close, bind, gets, modify, ret in H.
    destruct (Writer_closed z); inversion H; subst; repeat split; assumption.
  - intros w' r z' H. unfold Writer_Reset, bind, modify in H.
    inversion H; subst. repeat split; assumption.
  - intros pol r z' H. unfold Writer_SetPolicy, modify in H.
    inversion H; subst. repeat split; assumption.
  - intros options r z' H. unfold Writer_Apply, bind, gets, zoom, ret in H.
    destruct (Writer_closed z).
    + inversion H; subst. repeat split; assumption.
    + pose proof (apply_options_Writer options z) as Ho.
      destruct (apply_options options (applier_Writer z)) as [[err a]|why|];
        try discriminate.
      destruct Ho as (z1 & -> & _ & _ & _ & Hd & _ & Hw & Hr & Ha & Hl).
      inversion H; subst. unfold Writer_wf.
      rewrite Hd, Hw, Hr. auto.
Qed.

(** X21.  A [Write] never continues a job.  The direction of a Writer's
    parameters is compress, so whatever id the last call left in them, every
    [Write] on an open Writer is a new operation: it mints the next id,
    stores it in the Writer and leaves the counter there.  A [Write] that
    returns without error has retired its job within the call: the id is not
    registered and has gone to the free list. *)
Theorem Writer_Write_new_operation (z z' : Writer) (p : list Byte.byte)
    (st st' : State W) n err :
  Writer_closed z = false ->
  JobParams_JobType (Writer_p z) = COMPRESS ->
  Writer_Write E p (z, st) = Returns ((n, err), (z', st')) ->
  continuation (instance st) (Writer_p z) = None
  /\ z' = Writer_set_p (JobParams_set_id (fresh_id st)) z
  /\ nextID st' = fresh_id st
  /\ (err = None ->
      Manager_jobs (instance st') !! fresh_id st = None
      /\ freeIDs st' = freeIDs st ++ [fresh_id st]).
Proof.
  intros Hc Hdir H.
  assert (Hnew : continuation (instance st) (Writer_p z) = None).
  { unfold continuation. rewrite Hdir.
    destruct (Manager_jobs (instance st) !! JobParams_id (Writer_p z)); reflexivity. }
  split; [exact Hnew|].
  rewrite (Writer_Write_open p z st Hc) in H.
  destruct (SubmitWithPolicy E p (Writer_p z) _ st) as [[[[n1 id] err1] st1]| |] eqn:HS;
    try discriminate.
  inversion H; subst n1 err1 z' st1. clear H.
  rewrite (SubmitWithPolicy_new _ _ _ _ _ Hnew) in HS.
  apply tryStrategies_returns in HS as (-> & Hn & Hres).
  cbn [fresh_job Job_id started nextID instance freeIDs] in *.
  split; [reflexivity|]. split; [exact Hn|].
  intros ->. destruct Hres as [(_ & _ & Hne & _)|(h & _ & Hres)]; [congruence|].
  assert (Hcomp : completes (fresh_job st p (Writer_p z)) None = true).
  { unfold completes. cbn. rewrite Hdir. reflexivity. }
  rewrite Hcomp in Hres. destruct Hres as [Hj Hf].
  rewrite Hj, lookup_delete_eq. auto.
Qed.

(** X22.  A Reader follows its stream.  [Read] stores the id that comes back.
    When the id in the Reader's parameters is registered the call continues
    that job and the id stays; otherwise the call is a new operation and the
    id is the one minted for it.  After a [Read] without error the job is
    registered under the stored id, so the next [Read] continues it; after
    [io.EOF] it is not, so the next [Read] starts a new operation. *)
Theorem Reader_Read_stream (z z' : Reader) (p : list Byte.byte)
    (st st' : State W) n err :
  ids_minted st ->
  JobParams_JobType (Reader_p z) = DECOMPRESS ->
  Reader_Read E p (z, st) = Returns ((n, err), (z', st')) ->
  z' = Reader_set_p
         (JobParams_set_id
            (match continuation (instance st) (Reader_p z) with
             | Some _ => JobParams_id (Reader_p z)
             | None => fresh_id st
             end)) z
  /\ (err = None -> is_Some (continuation (instance st') (Reader_p z')))
  /\ (err = Some io_EOF -> continuation (instance st') (Reader_p z') = None).
Proof.
  intros [Hreg _] Hdir H.
  rewrite Reader_Read_eq in H.
  destruct (SubmitWithPolicy E p (Reader_p z) _ st) as [[[[n1 id] err1] st1]| |] eqn:HS;
    try discriminate.
  inversion H; subst n1 err1 z' st1. clear H.
  unfold continuation at 2 3. cbn [Reader_p Reader_set_p JobParams_set_id JobParams_id
                                     JobParams_JobType].
  rewrite Hdir. cbn [Z.eqb DECOMPRESS Pos.eqb].
  destruct (continuation (instance st) (Reader_p z)) as [cur|] eqn:Hcont.
  - destruct (SubmitWithPolicy_resume_returns E _ _ _ _ _ _ _ _ _ Hcont HS)
      as (Hl & _ & -> & _ & Hres).
    destruct (Hreg _ _ Hl) as (Hid & _). rewrite Hid in *.
    split; [reflexivity|]. split.
    + intros ->. cbn in Hres. destruct Hres as [-> _].
      rewrite lookup_insert_eq. eauto.
    + intros ->. cbn in Hres. destruct Hres as [-> _].
      rewrite lookup_delete_eq. reflexivity.
  - rewrite (SubmitWithPolicy_new _ _ _ _ _ Hcont) in HS.
    apply tryStrategies_returns in HS as (-> & _ & Hres).
    cbn [fresh_job Job_id started nextID instance freeIDs] in *.
    split; [reflexivity|].
    assert (Hc0 : completes (fresh_job st p (Reader_p z)) None = false).
    { unfold completes. cbn. rewrite Hdir. reflexivity. }
    assert (Hc1 : completes (fresh_job st p (Reader_p z)) (Some io_EOF) = true).
    { unfold completes. cbn. rewrite Hdir. reflexivity. }
    split; intros ->.
    + destruct Hres as [(_ & _ & Hne & _)|(h & _ & Hres)]; [congruence|].
      rewrite Hc0 in Hres. destruct Hres as [-> _].
      rewrite lookup_insert_eq. eauto.
    + destruct Hres as [(_ & _ & _ & Hne)|(h & _ & Hres)]; [congruence|].
      rewrite Hc1 in Hres. destruct Hres as [-> _].
      rewrite lookup_delete_eq. reflexivity.
Qed.

End FacadeProperties.

(** * Examples

    Concrete runs: an instance of each statement above at explicit inputs,
    and the inputs at which a claim of the specification fails. *)

(** ** A concrete world

    The world counts the library calls made so far.  A toy engine is given
    by which libraries report ready and by the errors its constructors,
    writers and readers hand back; objects are numbered by the call that
    made them, [Write] and [Read] report the length of the buffer. *)

Record toy : Type := mkToy {
  toy_ready : Lib -> bool;
  toy_New : Ctor -> option error;
  toy_Write : option error;
  toy_Read : option error
}.

Definition toy_engine (t : toy) : Engine nat :=
  {| Ready := fun l w => (toy_ready t l, S w);
     New := fun c w => ((N.of_nat w, toy_New t c), S w);
     Apply := fun _ _ w => (None, S w);
     Write := fun _ p w => ((len p, toy_Write t), S w);
     Read := fun _ p w => ((len p, toy_Read t), S w);
     Close := fun _ w => (None, S w) |}.

Definition state_after {S A} (m : M S A) (s : S) : S :=
  match m s with
  | Returns (_, s') => s'
  | _ => s
  end.

Definition all_ready : Lib -> bool := fun _ => true.
Definition none_ready : Lib -> bool := fun _ => false.
Definition only_ixl_ready : Lib -> bool :=
  fun l => match l with lib_ixl => true | lib_isal => false end.
Definition New_ok : Ctor -> option error := fun _ => None.

(** A gzip compression of an empty buffer into sink 1, and a gzip
    decompression from source 2 continuing the job [id]. *)
Definition gzip_compress : JobParams :=
  mkJobParams GZIP 1 0 COMPRESS (Some 1%N) None.
Definition gzip_decompress (id : JobID) : JobParams :=
  mkJobParams GZIP 1 id DECOMPRESS None (Some 2%N).

(** ISA-L is not installed, and the sink fails with an error of its own:
    under the default policy the IAA candidate aborts the operation and QAT
    is never asked. *)
Definition failing_sink : Engine nat :=
  toy_engine (mkToy only_ixl_ready New_ok (Some (engine_error 5)) None).

Lemma SubmitWithPolicy_skip_or_abort_witness :
  let st := init 0%nat in
  let job := fresh_job st [] gzip_compress in
  let st1 := state_after (Handler_Request failing_sink H_isal job) (started st) in
  let st2 := state_after (Handler_Request failing_sink H_iaa job) st1 in
  SubmitWithPolicy failing_sink [] gzip_compress BufferSizePolicy st
    = Returns ((0, 1, Some (engine_error 5)), st2)
  /\ calls st2 = [call_policy; call_Request H_isal 1; call_Request H_iaa 1].
Proof.
  intros st job st1 st2.
  destruct (SubmitWithPolicy_skip_or_abort failing_sink [] gzip_compress
              BufferSizePolicy st st1 st2 [ISAL] IAA [QAT] 0 (engine_error 5))
    as [_ H]; try (vm_compute; reflexivity).
  apply H; [reflexivity | discriminate].
Defined.

(** Neither ISA-L nor IAA is installed and the policy names only these
    two. *)
Definition nothing_installed : Engine nat :=
  toy_engine (mkToy none_ready New_ok None None).

Definition isal_then_iaa : PolicyFunc := fun _ => [ISAL; IAA].

Lemma SubmitWithPolicy_exhausted_witness :
  let st := init 0%nat in
  let st1 :=
    state_after (tryStrategies nothing_installed (fresh_job st [] gzip_compress)
                   [ISAL; IAA]) (started st) in
  SubmitWithPolicy nothing_installed [] gzip_compress isal_then_iaa st
    = Returns ((0, 1, Some errNoWorkingStrategies), st1)
  /\ Manager_jobs (instance st1) = ∅
  /\ (Manager_jobs (instance st) !! fresh_id st = None ->
      Manager_jobs (instance st1) !! 1 = None).
Proof.
  intros st st1.
  apply (SubmitWithPolicy_exhausted nothing_installed [] gzip_compress
           isal_then_iaa st st1); vm_compute; reflexivity.
Defined.

(** ** The default policy *)

(** 100 bytes go to ISA-L first, 1500 bytes to QAT first. *)
Lemma BufferSizePolicy_order_witness :
  BufferSizePolicy (mkPolicyParameters 100 strategyBank gzip_compress)
    = [ISAL; IAA; QAT]
  /\ BufferSizePolicy (mkPolicyParameters 1500 strategyBank gzip_compress)
    = [QAT; IAA; ISAL].
Proof.
  split.
  - destruct (BufferSizePolicy_order (mkPolicyParameters 100 strategyBank gzip_compress))
      as (_ & _ & Hsmall & _).
    apply Hsmall. reflexivity.
  - destruct (BufferSizePolicy_order (mkPolicyParameters 1500 strategyBank gzip_compress))
      as (_ & _ & _ & Hlarge & _).
    apply Hlarge. discriminate.
Defined.

Definition lz4_compress : JobParams :=
  mkJobParams LZ4 1 0 COMPRESS (Some 1%N) None.

Definition everything_works : Engine nat :=
  toy_engine (mkToy all_ready New_ok None None).

(** LZ4 under the default policy, from the initial state: the three
    hardware handlers are asked in the small-buffer order and none
    supports it. *)
Lemma SubmitJob_default_policy_no_fallback_witness :
  exists st',
    SubmitJob everything_works [] lz4_compress (init 0%nat)
      = Returns ((0, 1, Some errNoWorkingStrategies), st')
    /\ calls st'
       = [call_policy; call_Request H_isal 1; call_Request H_iaa 1;
          call_Request H_qat 1].
Proof.
  destruct (SubmitJob_default_policy_no_fallback everything_works [] lz4_compress
              (init 0%nat))
    as (_ & (st' & Hrun & Hcalls & _) & _); try reflexivity.
  - repeat split.
  - exists st'. split; [exact Hrun | exact Hcalls].
Defined.

(** ** Releasing, and the pools *)

(** C5, as the specification words it, fails on the software fallback: a
    fresh [DefaultHandler] has bound no job, and [Release] returns nil. *)
Lemma DefaultHandler_Release_unbound_is_nil :
  DefaultHandler_Release 7 (NewDefaultHandler, 0%nat)
    = Returns (None, (NewDefaultHandler, 0%nat))
  /\ exists st',
       Handler_Release everything_works H_fallback 7 (init 0%nat)
         = Returns (None, st').
Proof. split; [reflexivity|]. eexists. reflexivity. Qed.

(** Fresh handlers have bound nothing: the three that keep bindings say
    "not found". *)
Lemma Release_unbound_witness :
  QatHandler_Release everything_works 7 (NewQATHandler, 0%nat)
    = Returns (Some ErrJobNotFound, (NewQATHandler, 0%nat))
  /\ IAAHandler_Release everything_works 7 (NewIAAHandler, 0%nat)
    = Returns (Some (errors_New "could not find the job"), (NewIAAHandler, 0%nat))
  /\ ISALHandler_Release everything_works 7 (NewISALHandler, 0%nat)
    = Returns (Some (errors_New "could not find the job"), (NewISALHandler, 0%nat)).
Proof.
  destruct (Release_unbound everything_works 7 0%nat) as (Hq & Hi & Hs & _).
  split; [|split].
  - apply Hq; [|reflexivity]. intros k qat H. cbn in H.
    rewrite lookup_empty in H. discriminate H.
  - apply Hi. reflexivity.
  - apply Hs; reflexivity.
Defined.

(** The job registered under [id] (a blank job when there is none). *)
Definition registered (st : State nat) (id : JobID) : Job :=
  match Manager_jobs (instance st) !! id with
  | Some job => job
  | None => new_Job 0
  end.

(** Running a call [k] times. *)
Fixpoint times {S A} (k : nat) (m : M S A) : M S unit :=
  match k with
  | O => ret tt
  | Datatypes.S k' => let* _ := m in times k' m
  end.

Definition qat_only : PolicyFunc := fun _ => [QAT].
Definition iaa_only : PolicyFunc := fun _ => [IAA].

(** Eight decompress streams are open on QAT (each read succeeded without
    end-of-stream), so the QAT pool is at its cap. *)
Definition qat_pool_full : State nat :=
  state_after (times 8 (SubmitWithPolicy everything_works [] (gzip_decompress 0) qat_only))
              (init 0%nat).

(** Eight IAA compressions failed in the sink; their bindings were never
    released, so the IAA pool is at its cap. *)
Definition iaa_pool_full : State nat :=
  state_after (times 8 (SubmitWithPolicy failing_sink [] gzip_compress iaa_only))
              (init 0%nat).

(** C6, as the specification words it, does not hold of every request
    that meets a full pool.  A request for an algorithm outside the table is
    answered [ErrUnsupported] whatever the state of the pool (the table is
    checked first), and a QAT request for a job that already has a binding
    goes on to read through it. *)
Lemma Request_at_cap_not_always_ErrNotAvailable :
  (Z.of_nat (size (IAAHandler_jobs (Manager_iaa (instance iaa_pool_full))))
     = MAX_IAA_BINDINGS
   /\ IAAHandler_Request everything_works (fresh_job iaa_pool_full [] lz4_compress)
        (Manager_iaa (instance iaa_pool_full), world iaa_pool_full)
      = Returns ((0, Some ErrUnsupported),
                 (Manager_iaa (instance iaa_pool_full), S (world iaa_pool_full))))
  /\ (Z.of_nat (size (QatHandler_jobs (Manager_qat (instance qat_pool_full))))
        = MAX_QAT_BINDINGS
      /\ QatHandler_Request everything_works (registered qat_pool_full 1)
           (Manager_qat (instance qat_pool_full), world qat_pool_full)
         = Returns ((0, None),
                    (Manager_qat (instance qat_pool_full), S (world qat_pool_full)))).
Proof. vm_compute. repeat split. Qed.

(** What the amended C6 leaves out: a new QAT request that meets the full
    pool does not return.  [newQatJob] hands back a nil binding with
    [ErrNotAvailable], and [Request] goes through the binding before it
    looks at the error. *)
Lemma QatHandler_Request_at_cap_panics :
  Z.of_nat (size (QatHandler_jobs (Manager_qat (instance qat_pool_full))))
    = MAX_QAT_BINDINGS
  /\ QatHandler_Request everything_works
       (fresh_job qat_pool_full [] (gzip_decompress 0))
       (Manager_qat (instance qat_pool_full), world qat_pool_full)
     = Panics "invalid memory address or nil pointer dereference"
  /\ SubmitWithPolicy everything_works [] (gzip_decompress 0) qat_only qat_pool_full
     = Panics "invalid memory address or nil pointer dereference".
Proof. vm_compute. repeat split. Qed.

(** At the cap the pool check says [ErrNotAvailable] and nothing moves:
    IAA for a supported algorithm, and [newQatJob]. *)
Lemma binding_pools_capped_witness :
  IAAHandler_Request everything_works (fresh_job iaa_pool_full [] gzip_compress)
    (Manager_iaa (instance iaa_pool_full), world iaa_pool_full)
  = Returns ((0, Some ErrNotAvailable),
             (Manager_iaa (instance iaa_pool_full), S (world iaa_pool_full)))
  /\ newQatJob everything_works (fresh_job qat_pool_full [] (gzip_decompress 0)) DIRECT
       (Manager_qat (instance qat_pool_full), world qat_pool_full)
     = Returns ((None, Some ErrNotAvailable),
                (Manager_qat (instance qat_pool_full), world qat_pool_full)).
Proof.
  split.
  - destruct (binding_pools_capped everything_works
                (fresh_job iaa_pool_full [] gzip_compress) (world iaa_pool_full))
      as (_ & _ & Hiaa & _).
    apply (Hiaa (Manager_iaa (instance iaa_pool_full))); vm_compute; congruence.
  - destruct (binding_pools_capped everything_works
                (fresh_job qat_pool_full [] (gzip_decompress 0)) (world qat_pool_full))
      as (_ & _ & _ & Hqat).
    apply (Hqat (Manager_qat (instance qat_pool_full)) DIRECT). vm_compute. congruence.
Defined.

(** ** The life cycle *)

(** ISA-L is not installed; the compression goes to IAA, succeeds and is
    retired in the same call.  The decompression stays registered. *)
Definition without_isal : Engine nat :=
  toy_engine (mkToy only_ixl_ready New_ok None None).

Lemma SubmitWithPolicy_completion_witness :
  (exists st',
     SubmitWithPolicy without_isal [] gzip_compress BufferSizePolicy (init 0%nat)
       = Returns ((0, 1, None), st')
     /\ Manager_jobs (instance st') !! 1 = None
     /\ freeIDs st' = [1]
     /\ calls st' = [call_policy; call_Request H_isal 1; call_Request H_iaa 1;
                     call_Release H_iaa 1])
  /\ (exists st',
        SubmitWithPolicy without_isal [] (gzip_decompress 0) BufferSizePolicy (init 0%nat)
          = Returns ((0, 1, None), st')
        /\ exists job, Manager_jobs (instance st') !! 1 = Some job
                       /\ Job_h job = Some H_iaa).
Proof.
  set (st := init 0%nat).
  split.
  - set (job := fresh_job st [] gzip_compress).
    set (st1 := state_after (Handler_Request without_isal H_isal job) (started st)).
    set (st2 := state_after (Handler_Request without_isal H_iaa job) st1).
    destruct (SubmitWithPolicy_completion without_isal [] gzip_compress
                BufferSizePolicy st st1 st2 [ISAL] IAA [QAT] 0 None)
      as [Hdone _]; try (vm_compute; reflexivity).
    destruct Hdone as (r & st3 & _ & Hrun & Hreg & Hfree & Hcalls).
    { left. split; reflexivity. }
    eexists. split; [exact Hrun|]. split; [exact Hreg|].
    split; [exact Hfree | exact Hcalls].
  - set (job := fresh_job st [] (gzip_decompress 0)).
    set (st1 := state_after (Handler_Request without_isal H_isal job) (started st)).
    set (st2 := state_after (Handler_Request without_isal H_iaa job) st1).
    destruct (SubmitWithPolicy_completion without_isal [] (gzip_decompress 0)
                BufferSizePolicy st st1 st2 [ISAL] IAA [QAT] 0 None)
      as [_ Hstay]; try (vm_compute; reflexivity).
    destruct Hstay as (Hrun & Hreg); try reflexivity.
    eexists. split; [exact Hrun|]. eexists. split; [exact Hreg|]. reflexivity.
Defined.

(** A gzip stream is open (job 1 on ISA-L, under the default policy); the
    next read reaches the end of the stream. *)
Definition stream_open : State nat :=
  state_after (SubmitJob everything_works [] (gzip_decompress 0)) (init 0%nat).

Definition eof_source : Engine nat :=
  toy_engine (mkToy all_ready New_ok None (Some io_EOF)).

Lemma SubmitWithPolicy_continuation_witness :
  exists st',
    SubmitWithPolicy eof_source [] (gzip_decompress 1) qat_only stream_open
      = Returns ((0, 1, Some io_EOF), st')
    /\ Manager_jobs (instance st') !! 1 = None
    /\ freeIDs st' = [1]
    /\ calls st'
       = calls stream_open ++ [call_Request H_isal 1; call_Release H_isal 1].
Proof.
  set (cur := registered stream_open 1).
  set (st1 := state_after (Handler_Request eof_source H_isal (Job_set_p [] cur))
                          (resumed [] (gzip_decompress 1) cur stream_open)).
  destruct (SubmitWithPolicy_continuation eof_source [] (gzip_decompress 1) qat_only
              stream_open st1 cur H_isal 0 (Some io_EOF))
    as [_ Heof]; try (vm_compute; reflexivity).
  destruct (Heof eq_refl) as (Hall & Hret & _).
  destruct Hret as (r & st2 & Hrel); [intros Hh; discriminate Hh|].
  destruct (Hall r st2 Hrel) as (Hrun & Hreg & Hfree & Hcalls & _).
  eexists. split; [exact Hrun|]. split; [exact Hreg|].
  split; [exact Hfree | exact Hcalls].
Defined.

(** C9 fails on the code when a compress request is answered [io.EOF].
    Here the policy names the software fallback and the sink's [Write] says
    [io.EOF], which the gzip writer hands back: the error test lets [io.EOF]
    through, the Job is registered, the completion test wants a nil error
    for a compress Job, and the call returns [io.EOF] with compress Job 1
    left in the registry. *)
Definition eof_sink : Engine nat :=
  toy_engine (mkToy all_ready New_ok (Some io_EOF) None).

Definition fallback_only : PolicyFunc := fun _ => [DEFAULT].

Lemma compress_job_persists_on_EOF :
  let st' :=
    state_after (SubmitWithPolicy eof_sink [] gzip_compress fallback_only)
                (init 0%nat) in
  registry_decompress (init 0%nat)
  /\ SubmitWithPolicy eof_sink [] gzip_compress fallback_only (init 0%nat)
     = Returns ((0, 1, Some io_EOF), st')
  /\ Manager_jobs (instance st') !! 1 = Some (registered st' 1)
  /\ JobParams_JobType (Job_params (registered st' 1)) = COMPRESS
  /\ ~ registry_decompress st'.
Proof.
  intros st'.
  assert (Hreg : Manager_jobs (instance st') !! 1 = Some (registered st' 1))
    by (vm_compute; reflexivity).
  split; [|split; [|split; [|split]]].
  - intros id job H. cbn in H. rewrite lookup_empty in H. discriminate H.
  - vm_compute. reflexivity.
  - exact Hreg.
  - vm_compute. reflexivity.
  - intros Hinv. specialize (Hinv 1 _ Hreg). vm_compute in Hinv. discriminate Hinv.
Qed.

(** With a stream open, a compression that succeeds leaves only the
    decompress job behind. *)
Lemma registry_decompress_preserved_example :
  registry_decompress stream_open
  /\ registry_decompress
       (state_after (SubmitJob without_isal [] gzip_compress) stream_open).
Proof.
  assert (H0 : registry_decompress (init 0%nat)).
  { intros id job H. cbn in H. rewrite lookup_empty in H. discriminate H. }
  assert (H1 : registry_decompress stream_open).
  { apply (registry_decompress_preserved everything_works [] (gzip_decompress 0)
             BufferSizePolicy (init 0%nat) stream_open 0 1 None H0).
    - left. reflexivity.
    - vm_compute. reflexivity. }
  split; [exact H1|].
  apply (registry_decompress_preserved without_isal [] gzip_compress
           BufferSizePolicy stream_open
           (state_after (SubmitJob without_isal [] gzip_compress) stream_open)
           0 2 None H1).
  - right. split; [reflexivity | discriminate].
  - vm_compute. reflexivity.
Defined.

(** Four jobs are created from the initial state, with two ids freed in
    between: the ids are 1, 2, 3, 4 and the free list is what was freed. *)
Lemma createJob_strictly_increasing_witness :
  fst (run_ids [op_createJob; op_freeJobID 1; op_createJob; op_createJob;
                op_freeJobID 2; op_createJob] (init 0%nat))
    = [1; 2; 3; 4]
  /\ freeIDs (snd (run_ids [op_createJob; op_freeJobID 1; op_createJob; op_createJob;
                            op_freeJobID 2; op_createJob] (init 0%nat)))
     = [1; 2].
Proof.
  destruct (createJob_strictly_increasing
              [op_createJob; op_freeJobID 1; op_createJob; op_createJob;
               op_freeJobID 2; op_createJob] (init 0%nat))
    as (Hids & _ & _ & Hfree & _).
  - vm_compute. discriminate.
  - vm_compute. discriminate.
  - split; [exact Hids | exact Hfree].
Defined.

(** ** The handlers, one by one *)

Lemma Request_checks_before_work_witness :
  QatHandler_Request everything_works (fresh_job (init 0%nat) [] lz4_compress)
    (NewQATHandler, 0%nat)
  = Returns ((0, Some ErrUnsupported), (NewQATHandler, 0%nat))
  /\ ISALHandler_Request nothing_installed (fresh_job (init 0%nat) [] gzip_compress)
       (NewISALHandler, 0%nat)
     = Returns ((0, Some ErrNotInstalled), (NewISALHandler, 1%nat)).
Proof.
  destruct (Request_checks_before_work everything_works
              (fresh_job (init 0%nat) [] lz4_compress) 0%nat) as (Hq & _).
  destruct (Request_checks_before_work nothing_installed
              (fresh_job (init 0%nat) [] gzip_compress) 0%nat) as (_ & _ & Hs & _).
  split; [apply Hq; reflexivity | apply Hs; reflexivity].
Defined.

(** With eight streams open on QAT, a ninth decompression sent to QAT
    panics. *)
Lemma QatHandler_Request_full_pool_witness :
  SubmitWithPolicy everything_works [] (gzip_decompress 0) qat_only qat_pool_full
  = Panics "invalid memory address or nil pointer dereference".
Proof.
  destruct (QatHandler_Request_full_pool everything_works [] (gzip_decompress 0)
              qat_only qat_pool_full (started qat_pool_full) [] []) as [_ H].
  apply H; try (vm_compute; reflexivity).
  - right. reflexivity.
  - vm_compute. discriminate.
Defined.

(** One binding each, for job 1. *)
Definition qat_bound : QatHandler :=
  QatHandler_set_jobs
    <[1 := mkQATJob [] None None (Some 5%N) 1 DIRECT]> NewQATHandler.

Definition iaa_bound : IAAHandler := IAAHandler_set_jobs <[1 := 5%N]> NewIAAHandler.

Lemma Release_bound_witness :
  (exists r h' w',
     QatHandler_Release everything_works 1 (qat_bound, 0%nat) = Returns (r, (h', w'))
     /\ (r = None /\ h' = QatHandler_set_jobs (delete 1) qat_bound
         \/ (exists e, r = Some e) /\ h' = qat_bound))
  /\ IAAHandler_Release everything_works 1 (iaa_bound, 0%nat)
     = Returns (None, (IAAHandler_set_jobs (delete 1) iaa_bound, 1%nat)).
Proof.
  destruct (Release_bound everything_works 1 0%nat) as (Hq & Hi & _).
  split.
  - apply (Hq qat_bound (mkQATJob [] None None (Some 5%N) 1 DIRECT)); [|reflexivity].
    intros k qat H. unfold qat_bound in H. cbn in H.
    destruct (decide (1 = k)) as [<-|Hne].
    + rewrite lookup_insert_eq in H. inversion H. reflexivity.
    + rewrite lookup_insert_ne, lookup_empty in H by assumption. discriminate H.
  - apply (Hi iaa_bound 5%N); reflexivity.
Defined.

(** [ixl.NewInflate] fails: the request returns its error with the lock
    held, and the next request blocks. *)
Definition broken_inflate : Engine nat :=
  toy_engine (mkToy all_ready
                (fun c => match c with
                          | ixl_NewInflate _ => Some (engine_error 9)
                          | _ => None
                          end) None None).

Lemma IAAHandler_lock_leak_witness :
  let job := fresh_job (init 0%nat) [] (gzip_decompress 0) in
  IAAHandler_Request broken_inflate job (NewIAAHandler, 0%nat)
  = Returns ((0, Some (engine_error 9)),
             (IAAHandler_set_jobsLock true NewIAAHandler, 2%nat))
  /\ IAAHandler_Request broken_inflate job
       (IAAHandler_set_jobsLock true NewIAAHandler, 2%nat)
     = Blocks.
Proof.
  intros job.
  destruct (IAAHandler_lock_leak broken_inflate job NewIAAHandler 0%nat 1%nat 2%nat
              1%N (engine_error 9)) as (_ & Hd & _ & Hb); try reflexivity.
  split.
  - apply Hd; [reflexivity | right; reflexivity | reflexivity].
  - apply Hb; reflexivity.
Defined.

(** A stream is opened on IAA and read to its end: the job is retired, and
    its read binding is still in the handler. *)
Definition iaa_stream_open : State nat :=
  state_after (SubmitWithPolicy everything_works [] (gzip_decompress 0) iaa_only)
              (init 0%nat).

Definition iaa_stream_ended : State nat :=
  state_after (SubmitWithPolicy eof_source [] (gzip_decompress 1) iaa_only)
              iaa_stream_open.

Lemma IAAHandler_readjobs_write_only_witness :
  Manager_jobs (instance iaa_stream_ended) !! 1 = None
  /\ is_Some (IAAHandler_readjobs (Manager_iaa (instance iaa_stream_ended)) !! 1).
Proof.
  split; [vm_compute; reflexivity|].
  destruct (IAAHandler_readjobs_write_only eof_source (new_Job 0) 0 NewIAAHandler 0%nat)
    as (_ & _ & _ & H).
  apply (H [] (gzip_decompress 1) iaa_only iaa_stream_open iaa_stream_ended
           (0, 1, Some io_EOF) 1).
  - vm_compute. reflexivity.
  - vm_compute. eauto.
Defined.

(** The open ISA-L stream of job 1 is read again through the reader made
    for it. *)
Lemma Request_reuses_binding_witness :
  let h := Manager_isal (instance stream_open) in
  ISALHandler_Request everything_works (registered stream_open 1) (h, 10%nat)
  = Returns ((0, None), (h, 12%nat)).
Proof.
  intros h.
  destruct (Request_reuses_binding everything_works (registered stream_open 1) 10%nat)
    as (Hs & _).
  destruct (Hs h 1%N 11%nat) as (_ & Hd);
    [vm_compute; reflexivity | vm_compute; reflexivity |].
  apply Hd; vm_compute; reflexivity.
Defined.

(** ** More runs of the Manager *)

Definition deflate_compress : JobParams :=
  mkJobParams DEFLATE 1 0 COMPRESS (Some 1%N) None.

Definition fallback_then_qat : PolicyFunc := fun _ => [DEFAULT; QAT].

Lemma SubmitWithPolicy_DEFLATE_on_fallback_witness :
  exists msg st',
    SubmitWithPolicy everything_works [] deflate_compress fallback_then_qat (init 0%nat)
    = Returns ((0, 1, Some (errors_New msg)), st')
    /\ calls st' = [call_policy; call_Request H_fallback 1].
Proof.
  destruct (SubmitWithPolicy_DEFLATE_on_fallback everything_works [] deflate_compress
              fallback_then_qat (init 0%nat) (started (init 0%nat)) [] [QAT])
    as (_ & msg & _ & _ & Hrun & _ & _); try reflexivity.
  - left. reflexivity.
  - exists msg. eexists. split; [exact Hrun | reflexivity].
Defined.

Definition zstd_compress : JobParams :=
  mkJobParams ZSTD 1 0 COMPRESS (Some 1%N) None.

(** Neither the ISA-L nor the IAA table holds ZSTD. *)
Lemma SubmitWithPolicy_unsupported_everywhere_witness :
  exists st1,
    SubmitWithPolicy everything_works [] zstd_compress isal_then_iaa (init 0%nat)
    = Returns ((0, 1, Some errNoWorkingStrategies), st1)
    /\ calls st1 = [call_policy; call_Request H_isal 1; call_Request H_iaa 1].
Proof.
  destruct (SubmitWithPolicy_unsupported_everywhere everything_works [] zstd_compress
              isal_then_iaa (init 0%nat)) as (st1 & Hrun & _ & _ & Hcalls).
  - reflexivity.
  - repeat (apply List.Forall_cons; [split; reflexivity|]). apply List.Forall_nil.
  - exists st1. split; [exact Hrun | exact Hcalls].
Defined.

(** The policy names a strategy that is not in the bank. *)
Definition isal_then_unknown : PolicyFunc := fun _ => [ISAL; 7; QAT].

Lemma SubmitWithPolicy_invalid_strategy_witness :
  let st1 :=
    state_after (Handler_Request nothing_installed H_isal
                   (fresh_job (init 0%nat) [] gzip_compress)) (started (init 0%nat)) in
  SubmitWithPolicy nothing_installed [] gzip_compress isal_then_unknown (init 0%nat)
  = Returns ((0, 1, Some (errors_New "invalid strategy given by the policy")), st1)
  /\ calls st1 = [call_policy; call_Request H_isal 1]
  /\ nextID st1 = 1.
Proof.
  intros st1.
  destruct (SubmitWithPolicy_invalid_strategy nothing_installed [] gzip_compress
              isal_then_unknown (init 0%nat) st1 [ISAL] 7 [QAT])
    as (Hrun & Hcalls & _ & _ & Hn); try (vm_compute; reflexivity).
  split; [exact Hrun|]. split; [exact Hcalls | exact Hn].
Defined.

(** An operation that fails for want of a strategy has spent id 1; the
    next one gets id 2. *)
Lemma SubmitWithPolicy_id_accounting_witness :
  let st1 :=
    state_after (SubmitWithPolicy nothing_installed [] gzip_compress isal_then_iaa)
                (init 0%nat) in
  let st2 :=
    state_after (SubmitWithPolicy everything_works [] gzip_compress isal_then_iaa) st1 in
  nextID st1 = 1 /\ nextID st2 = 2.
Proof.
  intros st1 st2.
  pose proof (SubmitWithPolicy_id_accounting nothing_installed [] gzip_compress
                isal_then_iaa (init 0%nat) st1 0 1 (Some errNoWorkingStrategies))
    as H1.
  pose proof (SubmitWithPolicy_id_accounting everything_works [] gzip_compress
                isal_then_iaa st1 st2 0 2 None) as H2.
  split.
  - destruct H1 as (_ & Hn & _); [vm_compute; reflexivity | exact Hn].
  - destruct H2 as (_ & Hn & _); [vm_compute; reflexivity | exact Hn].
Defined.

Lemma Manager_wf_invariant_witness : Manager_wf stream_open.
Proof.
  destruct (Manager_wf_invariant everything_works) as (Hinit & _ & Hjob).
  apply (Hjob [] (gzip_decompress 0) (init 0%nat) stream_open (0, 1, None)).
  - apply Hinit.
  - vm_compute. split; [discriminate | reflexivity].
  - vm_compute. reflexivity.
Defined.

(** The open ISA-L stream of job 1 reaches its end: the reader bound to it
    is gone from the handler. *)
Lemma SubmitWithPolicy_ISAL_cleanup_witness :
  exists st',
    SubmitWithPolicy eof_source [] (gzip_decompress 1) qat_only stream_open
    = Returns ((0, 1, Some io_EOF), st')
    /\ ISALHandler_readjobs (Manager_isal (instance stream_open)) !! 1 = Some 1%N
    /\ ISALHandler_readjobs (Manager_isal (instance st')) !! 1 = None
    /\ Manager_jobs (instance st') !! 1 = None.
Proof.
  destruct (SubmitWithPolicy_ISAL_cleanup eof_source [] (gzip_decompress 1) qat_only
              stream_open) as (_ & Hcont).
  destruct (Hcont (registered stream_open 1)
              (state_after (Handler_Request eof_source H_isal
                              (Job_set_p [] (registered stream_open 1)))
                 (resumed [] (gzip_decompress 1) (registered stream_open 1) stream_open))
              0)
    as (st' & Hrun & _ & Hr & Hm); try (vm_compute; reflexivity).
  exists st'. split; [exact Hrun|]. split; [vm_compute; reflexivity|].
  split; [exact Hr | exact Hm].
Defined.

(** At 2000 bytes the two copies disagree, at 100 bytes they agree. *)
Lemma BufferSizePolicy_copies_witness :
  dcl_BufferSizePolicy (mkPolicyParameters 2000 strategyBank gzip_compress)
  = rev (BufferSizePolicy (mkPolicyParameters 2000 strategyBank gzip_compress))
  /\ dcl_BufferSizePolicy (mkPolicyParameters 100 strategyBank gzip_compress)
     = BufferSizePolicy (mkPolicyParameters 100 strategyBank gzip_compress).
Proof.
  split.
  - destruct (BufferSizePolicy_copies (mkPolicyParameters 2000 strategyBank gzip_compress))
      as (_ & H & _).
    apply H. cbn. lia.
  - destruct (BufferSizePolicy_copies (mkPolicyParameters 100 strategyBank gzip_compress))
      as (H & _).
    apply H. left. cbn. lia.
Defined.

(** ** The stream facade *)

(** The second option fails: the first stays applied, the third is not
    looked at. *)
Lemma Apply_options_witness :
  Writer_Apply ([AlgorithmOption ZSTD] ++ [CompressionLevelOption 0; AlgorithmOption LZ4])
    (NewWriter (Some 1%N))
  = Returns (Some ErrParamCompressionLevel,
             Writer_set_p (JobParams_set_a ZSTD) (NewWriter (Some 1%N))).
Proof.
  destruct (Apply_options [AlgorithmOption ZSTD]
              [CompressionLevelOption 0; AlgorithmOption LZ4] 0 ZSTD) as (Happ & _).
  rewrite Happ. reflexivity.
Defined.

Lemma Writer_Close_Reset_witness :
  (let* _ := on_object Writer_Close in Writer_Write everything_works [])
    (NewWriter (Some 1%N), init 0%nat)
  = Returns ((0, Some errClosed),
             (Writer_set_closed true (NewWriter (Some 1%N)), init 0%nat))
  /\ (let* _ := on_object Writer_Close in
      let* _ := on_object (Writer_Reset (Some 9%N)) in
      Writer_Write without_isal [])
       (NewWriter (Some 1%N), init 0%nat)
     = Returns ((0, None),
                (Writer_set_w (Some 9%N)
                   (Writer_set_p (JobParams_set_id 1) (NewWriter (Some 1%N))),
                 state_after (SubmitJob without_isal [] gzip_compress) (init 0%nat))).
Proof.
  destruct (Writer_Close_Reset everything_works (NewWriter (Some 1%N)) [] []
              (Some 9%N) (init 0%nat) eq_refl) as (Hw & _).
  destruct (Writer_Close_Reset without_isal (NewWriter (Some 1%N)) [] []
              (Some 9%N) (init 0%nat) eq_refl) as (_ & _ & _ & Hr).
  split; [exact Hw|]. rewrite Hr. vm_compute. reflexivity.
Defined.

(** The state after the first read of a new Reader on source 2. *)
Definition first_read : State nat :=
  state_after (SubmitJob everything_works [] (Reader_p (NewReader (Some 2%N))))
              (init 0%nat).

Lemma Reader_Read_ignores_closed_witness :
  (let* _ := on_object Reader_Close in Reader_Read everything_works [])
    (NewReader (Some 2%N), init 0%nat)
  = Returns ((0, None),
             (Reader_set_closed true
                (Reader_set_p (JobParams_set_id 1) (NewReader (Some 2%N))),
              first_read)).
Proof.
  destruct (Reader_Read_ignores_closed everything_works (NewReader (Some 2%N)) [] true
              (init 0%nat)) as (_ & H).
  rewrite (H eq_refl). vm_compute. reflexivity.
Defined.

Lemma Writer_params_invariant_witness :
  Writer_wf (Some 1%N)
    (state_after (Writer_Reset (Some 9%N))
       (state_after (Writer_Apply [AlgorithmOption ZSTD; CompressionLevelOption 0])
          (NewWriter (Some 1%N)))).
Proof.
  destruct (Writer_params_invariant everything_works (Some 1%N)) as (Hnew & Hstep).
  destruct (Hstep _ Hnew) as (_ & _ & _ & _ & Happ).
  specialize (Happ [AlgorithmOption ZSTD; CompressionLevelOption 0] _ _ eq_refl).
  destruct (Hstep _ Happ) as (_ & _ & Hreset & _).
  exact (Hreset (Some 9%N) _ _ eq_refl).
Defined.

(** The second write of a Writer: the first one left id 1 in its
    parameters, and the second is a new operation with id 2 all the same. *)
Lemma Writer_Write_new_operation_witness :
  let z1 := Writer_set_p (JobParams_set_id 1) (NewWriter (Some 1%N)) in
  let st1 := state_after (SubmitJob without_isal [] gzip_compress) (init 0%nat) in
  let z2 := Writer_set_p (JobParams_set_id 2) z1 in
  let st2 := state_after (SubmitJob without_isal [] (Writer_p z1)) st1 in
  Writer_Write without_isal [] (z1, st1) = Returns ((0, None), (z2, st2))
  /\ nextID st2 = 2
  /\ Manager_jobs (instance st2) !! 2 = None.
Proof.
  intros z1 st1 z2 st2.
  assert (H : Writer_Write without_isal [] (z1, st1) = Returns ((0, None), (z2, st2)))
    by (vm_compute; reflexivity).
  destruct (Writer_Write_new_operation without_isal z1 z2 [] st1 st2 0 None
              eq_refl eq_refl H) as (_ & _ & Hn & Hdone).
  split; [exact H|]. split; [exact Hn|]. exact (proj1 (Hdone eq_refl)).
Defined.

Lemma Reader_Read_stream_witness :
  let z1 := Reader_set_p (JobParams_set_id 1) (NewReader (Some 2%N)) in
  Reader_Read everything_works [] (NewReader (Some 2%N), init 0%nat)
  = Returns ((0, None), (z1, first_read))
  /\ is_Some (continuation (instance first_read) (Reader_p z1)).
Proof.
  intros z1.
  assert (H : Reader_Read everything_works [] (NewReader (Some 2%N), init 0%nat)
              = Returns ((0, None), (z1, first_read))) by (vm_compute; reflexivity).
  split; [exact H|].
  destruct (Reader_Read_stream everything_works (NewReader (Some 2%N)) z1 []
              (init 0%nat) first_read 0 None (init_ids_minted 0%nat) eq_refl H)
    as (_ & Hopen & _).
  exact (Hopen eq_refl).
Defined.
